(** * BDSM Message Manager: the scheduling plugin, embedded and verified

    A shallow embedding of [src/__init__.py]: the configuration loader,
    the content markup parser, the queue file and its accessors, the
    startup reconciliation, the scheduled-task callback and the command
    handler, followed by the properties of the specification that concern
    them and by further properties that the code shows: what the parser
    and the command grammar keep, what the accessors of the queue file do
    to the other jobs, what the handler never changes, and how scheduling,
    cancelling and restarting fit together.

    Conventions of the embedding.
    - Python [str] is [string], the text as its UTF-8 bytes.  The slice
      of thirty characters counts characters, not bytes.  [isdigit],
      [strip] and [lower] are [str.isdigit], [str.strip] and [str.lower]
      on texts of ASCII characters; beyond ASCII, Python also knows the
      digits, the whitespace and the capitals of other scripts, so a
      statement that rests on one of them says that the text it reads is
      ASCII ([ascii_text]), or that [isdigit] holds of it.
    - Python [int] is [Z]; a dictionary is an association list in
      insertion order with one binding per key.
    - The queue file is seen through [json.load] and [json.dump]: it is
      absent, or holds bytes that are not UTF-8 text, which the read
      rejects with [UnicodeDecodeError], or text that [json.load] rejects
      with [JSONDecodeError], or a JSON document, and a value that was
      dumped loads back as itself.  Number literals with a fraction or an
      exponent are never written by the plugin and are left out; so are
      the failures of the operating system on a file that exists.
    - Every effect goes through the [World]: the queue file, the
      registrations of the scheduler, the trace of the calls made to the
      chat platform, the clock.  A computation is a function from the
      world to an outcome, a value or a raised exception, and a new world.
      Calls to the plugin's logger only append to the log file and are
      left out.
    - The scheduler is APScheduler as the plugin meets it: [add_job]
      refuses an identifier that is registered, [remove_job] one that is
      not.
    - What the libraries decide and the plugin only passes on is a field
      of [Platform]: the reading and printing of a [Message],
      [datetime.timestamp], [datetime.fromisoformat], [strftime],
      [re.compile], and the texts of the library exceptions.
      [datetime.strptime] is embedded with the regular expressions of
      CPython's [_strptime].
    - The configuration file is seen through [ConfigParser]: its sections
      by name and, in a section, the values that [get] returns.  [int] on
      the items of a list option is a parameter of the loader. *)

From Stdlib Require Import String Ascii List ZArith Lia Bool DecimalString.
From Equations Require Import Equations.
Import ListNotations.

Set Implicit Arguments.
Open Scope string_scope.
Open Scope Z_scope.

(** ** Characters and strings *)

Definition dquote : ascii := "034"%char.
Definition newline : ascii := "010"%char.
Definition backslash : ascii := "\"%char.

(** [s.startswith(p)], returning what follows the prefix. *)
Fixpoint strip_prefix (p s : string) : option string :=
  match p with
  | EmptyString => Some s
  | String a p' =>
      match s with
      | EmptyString => None
      | String b s' => if Ascii.eqb a b then strip_prefix p' s' else None
      end
  end.

(** An [int] inside an f-string. *)
Definition Z_str (z : Z) : string := NilZero.string_of_int (Z.to_int z).

(** ** Message segments (the OneBot v11 adapter's [MessageSegment]) *)

Inductive MessageSegment : Type :=
| text (s : string)                  (* MessageSegment.text(s) *)
| at_ (qq : string)                  (* MessageSegment.at(qq) *)
| image (file : string)              (* MessageSegment.image(file=...) *)
| cq (kind data : string).           (* any other segment of the adapter *)

(** A [Message] is a list of segments; [bool(message)] is [len > 0]. *)
Definition Message : Type := list MessageSegment.

Definition truthy_message (m : Message) : bool :=
  match m with [] => false | _ :: _ => true end.

(** ** parse_content_to_message (lines 256-286) *)

(** The [content.replace] of line 263: every occurrence, left to right, of
    the two characters backslash, n becomes one newline. *)
Fixpoint replace_escaped_newlines (s : string) : string :=
  match s with
  | EmptyString => EmptyString
  | String c rest =>
      match rest with
      | String d rest' =>
          if (Ascii.eqb c backslash && Ascii.eqb d "n"%char)%bool
          then String newline (replace_escaped_newlines rest')
          else String c (replace_escaped_newlines rest)
      | EmptyString => String c EmptyString
      end
  end.

Definition at_all_tag : string := "{at_all}".
Definition image_open : string := "{:Image(url=" ++ String dquote EmptyString.
Definition image_close : string := String dquote ")}".

(** The lazy [.*?] of the image pattern followed by its closing quote,
    parenthesis and brace: the shortest run of characters other than
    newline after which the closing text stands.  Returns the run and what
    follows the closing text. *)
Fixpoint lazy_url (s : string) : option (string * string) :=
  match strip_prefix image_close s with
  | Some rest => Some (EmptyString, rest)
  | None =>
      match s with
      | EmptyString => None
      | String c s' =>
          if Ascii.eqb c newline then None
          else match lazy_url s' with
               | Some (u, rest) => Some (String c u, rest)
               | None => None
               end
      end
  end.

(** [image_url_regex] matched at the start of [s]: group 1 and the rest. *)
Definition match_image (s : string) : option (string * string) :=
  match strip_prefix image_open s with
  | Some s' => lazy_url s'
  | None => None
  end.

(** [tag_regex] matched at the start of [s]: the text of the match (the
    capture group of [re.split]) and the rest. *)
Definition match_tag (s : string) : option (string * string) :=
  match strip_prefix at_all_tag s with
  | Some rest => Some (at_all_tag, rest)
  | None =>
      match match_image s with
      | Some (u, rest) => Some (image_open ++ u ++ image_close, rest)%string
      | None => None
      end
  end.

Lemma strip_prefix_length p s r :
  strip_prefix p s = Some r -> String.length s = (String.length p + String.length r)%nat.
Proof.
  revert s; induction p as [|a p IH]; intros s; simpl.
  - intros [= ->]; reflexivity.
  - destruct s as [|b s]; [discriminate|].
    destruct (Ascii.eqb a b); [|discriminate].
    intros H; simpl; rewrite (IH _ H); reflexivity.
Qed.

Lemma lazy_url_length s u r :
  lazy_url s = Some (u, r) -> (String.length r < String.length s)%nat.
Proof.
  revert u; induction s as [|c s IH]; intros u.
  - discriminate.
  - cbn [lazy_url].
    destruct (strip_prefix image_close (String c s)) as [r'|] eqn:E.
    + intros [= _ <-]. apply strip_prefix_length in E.
      change (String.length image_close) with 3%nat in E. lia.
    + destruct (Ascii.eqb c newline); [discriminate|].
      destruct (lazy_url s) as [[u' r']|]; [|discriminate].
      intros [= _ <-]. specialize (IH _ eq_refl). simpl. lia.
Qed.

Lemma match_tag_length s t r :
  match_tag s = Some (t, r) -> (String.length r < String.length s)%nat.
Proof.
  unfold match_tag, match_image.
  destruct (strip_prefix at_all_tag s) as [r0|] eqn:E.
  - intros [= _ <-]. apply strip_prefix_length in E.
    change (String.length at_all_tag) with 8%nat in E. lia.
  - destruct (strip_prefix image_open s) as [s'|] eqn:E'; [|discriminate].
    destruct (lazy_url s') as [[u r']|] eqn:E''; [|discriminate].
    intros [= _ <-]. apply lazy_url_length in E''.
    apply strip_prefix_length in E'. lia.
Qed.

Definition inspect {A} (a : A) : {b : A | a = b} := exist _ a eq_refl.

(** [re.split(tag_regex, content)] with the text gathered since the last
    match in [cur]: the pieces between the matches (possibly empty) and
    the matches themselves, in order. *)
Equations? re_split_from (cur s : string) : list string
  by wf (String.length s) lt :=
  re_split_from cur s with inspect (match_tag s) => {
    | exist _ (Some (t, rest)) _ => cur :: t :: re_split_from EmptyString rest ;
    | exist _ None _ with s => {
        | EmptyString => [cur] ;
        | String c s' => re_split_from (cur ++ String c EmptyString) s' } }.
Proof.
  eapply match_tag_length; eauto.
Qed.

Definition re_split (s : string) : list string := re_split_from EmptyString s.

(** The body of the loop over the parts (lines 272-284). *)
Definition segment_of_part (part : string) : Message :=
  if String.eqb part EmptyString then []
  else if String.eqb part at_all_tag then [at_ "all"]
  else match match_image part with
       | Some (url, _) => [image url]
       | None => [text part]
       end.

Definition parse_content_to_message (content : string) : Message :=
  flat_map segment_of_part (re_split (replace_escaped_newlines content)).

(** A tag occurs somewhere in [s]. *)
Fixpoint has_tag (s : string) : bool :=
  match match_tag s with
  | Some _ => true
  | None => match s with
            | EmptyString => false
            | String _ s' => has_tag s'
            end
  end.

(** ** Python strings: the methods the plugin calls *)

Definition is_digit (c : ascii) : bool :=
  let n := nat_of_ascii c in (48 <=? n)%nat && (n <=? 57)%nat.

Definition digit_value (c : ascii) : Z := Z.of_nat (nat_of_ascii c) - 48.

Fixpoint all_digits (s : string) : bool :=
  match s with
  | EmptyString => true
  | String c s' => is_digit c && all_digits s'
  end.

(** [s.isdigit()] on a text of ASCII characters: at least one character,
    and all of them digits. *)
Definition isdigit (s : string) : bool :=
  match s with EmptyString => false | _ => all_digits s end.

(** [int(s)] on a string of digits. *)
Fixpoint int_of_digits_from (acc : Z) (s : string) : Z :=
  match s with
  | EmptyString => acc
  | String c s' => int_of_digits_from (10 * acc + digit_value c) s'
  end.

Definition int_of_digits (s : string) : Z := int_of_digits_from 0 s.

(** The ASCII characters for which [str.isspace] holds; [lstrip],
    [rstrip] and [strip] below are the methods of [str] on texts of ASCII
    characters. *)
Definition is_space (c : ascii) : bool :=
  let n := nat_of_ascii c in
  ((9 <=? n)%nat && (n <=? 13)%nat) || ((28 <=? n)%nat && (n <=? 32)%nat).

Fixpoint lstrip (s : string) : string :=
  match s with
  | String c s' => if is_space c then lstrip s' else s
  | EmptyString => EmptyString
  end.

Fixpoint rstrip (s : string) : string :=
  match s with
  | EmptyString => EmptyString
  | String c s' =>
      match rstrip s' with
      | EmptyString => if is_space c then EmptyString else String c EmptyString
      | t => String c t
      end
  end.

(** [s.strip()] *)
Definition strip (s : string) : string := rstrip (lstrip s).

Definition lower_char (c : ascii) : ascii :=
  let n := nat_of_ascii c in
  if ((65 <=? n)%nat && (n <=? 90)%nat)%bool then ascii_of_nat (n + 32) else c.

(** [s.lower()] *)
Fixpoint lower (s : string) : string :=
  match s with
  | EmptyString => EmptyString
  | String c s' => String (lower_char c) (lower s')
  end.

(** A byte that continues a character of the UTF-8 text. *)
Definition is_continuation (c : ascii) : bool :=
  let n := nat_of_ascii c in ((128 <=? n)%nat && (n <? 192)%nat)%bool.

(** [s[:n]]: the first [n] characters, each with all its bytes. *)
Fixpoint take (n : nat) (s : string) : string :=
  match s with
  | EmptyString => EmptyString
  | String c s' =>
      if is_continuation c then String c (take n s')
      else
        match n with
        | O => EmptyString
        | S n' => String c (take n' s')
        end
  end.

(** Every character of [s] is in the ASCII range.  On such a text
    [isdigit], [strip], [lower] and [String.length] are [str.isdigit],
    [str.strip], [str.lower] and [len]. *)
Fixpoint ascii_text (s : string) : bool :=
  match s with
  | EmptyString => true
  | String c s' => (nat_of_ascii c <? 128)%nat && ascii_text s'
  end.

(** [s.replace(c, '')] for a single character [c]. *)
Fixpoint remove_char (c : ascii) (s : string) : string :=
  match s with
  | EmptyString => EmptyString
  | String a s' =>
      if Ascii.eqb a c then remove_char c s' else String a (remove_char c s')
  end.

(** ** Python dictionaries: insertion-ordered, one binding per key *)

Section Dict.
Variable V : Type.

Definition dict : Type := list (string * V).

(** [d[k]], [None] standing for [KeyError]. *)
Fixpoint dict_get (k : string) (d : dict) : option V :=
  match d with
  | [] => None
  | (k', v) :: d' => if String.eqb k k' then Some v else dict_get k d'
  end.

(** [k in d] *)
Definition dict_mem (k : string) (d : dict) : bool :=
  match dict_get k d with Some _ => true | None => false end.

(** [d[k] = v]: a present key keeps its place, a new one goes last. *)
Fixpoint dict_set (k : string) (v : V) (d : dict) : dict :=
  match d with
  | [] => [(k, v)]
  | (k', v') :: d' =>
      if String.eqb k k' then (k, v) :: d' else (k', v') :: dict_set k v d'
  end.

(** [del d[k]] for a present key. *)
Fixpoint dict_del (k : string) (d : dict) : dict :=
  match d with
  | [] => []
  | (k', v') :: d' =>
      if String.eqb k k' then d' else (k', v') :: dict_del k d'
  end.

Definition keys (d : dict) : list string := map fst d.
End Dict.

(** ** JSON *)

(** A JSON document as it stands in a file: an object is the sequence of
    its members, in which a name may occur more than once. *)
#[warnings="-register-all"]
Inductive json : Type :=
| JNull
| JBool (b : bool)
| JInt (n : Z)
| JStr (s : string)
| JArr (items : list json)
| JObj (members : list (string * json)).

(** [json.load] on a document: arrays become lists and objects become
    dictionaries, built member after member, so that of several members
    with one name the last gives the value. *)
Fixpoint json_load (j : json) : json :=
  match j with
  | JArr l => JArr (map json_load l)
  | JObj ms =>
      JObj (fold_left (fun d m => dict_set (fst m) (json_load (snd m)) d) ms [])
  | _ => j
  end.

(** [isinstance(v, dict)] *)
Definition is_dict (v : json) : bool :=
  match v with JObj _ => true | _ => false end.

(** [bool(v)] of a loaded value. *)
Definition truthy (v : json) : bool :=
  match v with
  | JNull => false
  | JBool b => b
  | JInt n => negb (n =? 0)
  | JStr s => negb (String.eqb s EmptyString)
  | JArr l => match l with [] => false | _ => true end
  | JObj d => match d with [] => false | _ => true end
  end.

(** [v == n] for an [int] [n]; [True] and [False] compare as 1 and 0. *)
Definition eq_int (v : json) (n : Z) : bool :=
  match v with
  | JInt m => m =? n
  | JBool b => (if b then 1 else 0) =? n
  | _ => false
  end.

(** ** Exceptions *)

Inductive exn_class : Type :=
| ValueError
| JSONDecodeError        (* a ValueError *)
| UnicodeDecodeError     (* a ValueError *)
| KeyError
| ConflictingIdError     (* apscheduler: a KeyError *)
| JobLookupError         (* apscheduler: a KeyError *)
| TypeError
| AttributeError
| re_error
| FinishedException      (* nonebot: raised by Matcher.finish *)
| OtherException (name : string).

Record exn : Type := Exn { exn_cls : exn_class; exn_text : string }.

(** [isinstance(e, ValueError)] *)
Definition is_ValueError (e : exn) : bool :=
  match exn_cls e with
  | ValueError | JSONDecodeError | UnicodeDecodeError => true
  | _ => false
  end.

Definition is_JSONDecodeError (e : exn) : bool :=
  match exn_cls e with JSONDecodeError => true | _ => false end.

Definition is_re_error (e : exn) : bool :=
  match exn_cls e with re_error => true | _ => false end.

(** ** datetime *)

(** A naive [datetime]. *)
Record datetime : Type := Datetime {
  year : Z; month : Z; day : Z;
  hour : Z; minute : Z; second : Z; microsecond : Z
}.

Definition datetime_fields (d : datetime) : list Z :=
  [year d; month d; day d; hour d; minute d; second d; microsecond d].

Fixpoint lex_compare (a b : list Z) : comparison :=
  match a, b with
  | x :: a', y :: b' =>
      match x ?= y with Eq => lex_compare a' b' | c => c end
  | [], [] => Eq
  | [], _ :: _ => Lt
  | _ :: _, [] => Gt
  end.

(** [a > b] *)
Definition datetime_gt (a b : datetime) : bool :=
  match lex_compare (datetime_fields a) (datetime_fields b) with
  | Gt => true
  | _ => false
  end.

(** [a == b] *)
Definition datetime_eq (a b : datetime) : bool :=
  match lex_compare (datetime_fields a) (datetime_fields b) with
  | Eq => true
  | _ => false
  end.

Definition is_leap (y : Z) : bool :=
  ((y mod 4 =? 0) && negb (y mod 100 =? 0)) || (y mod 400 =? 0).

Definition days_in_month (y m : Z) : Z :=
  if m =? 2 then (if is_leap y then 29 else 28)
  else if (m =? 4) || (m =? 6) || (m =? 9) || (m =? 11) then 30
  else 31.

(** What the [datetime] constructor accepts. *)
Definition valid_datetime (d : datetime) : bool :=
  (1 <=? year d) && (year d <=? 9999) &&
  (1 <=? month d) && (month d <=? 12) &&
  (1 <=? day d) && (day d <=? days_in_month (year d) (month d)) &&
  (0 <=? hour d) && (hour d <=? 23) &&
  (0 <=? minute d) && (minute d <=? 59) &&
  (0 <=? second d) && (second d <=? 59) &&
  (0 <=? microsecond d) && (microsecond d <=? 999999).

(** *** strptime

    [datetime.strptime] turns each directive of the format into a group of
    a regular expression, whose alternatives are tried in order, matches
    the expression at the start of the text, and rejects the text when the
    match does not reach its end.  A field below lists, for the text at
    hand, what the alternatives of its group can match, in their order. *)

Definition field : Type := string -> list (Z * string).

Definition digits2 (ok : Z -> Z -> bool) (s : string) : list (Z * string) :=
  match s with
  | String a (String b rest) =>
      if is_digit a && is_digit b && ok (digit_value a) (digit_value b)
      then [(10 * digit_value a + digit_value b, rest)] else []
  | _ => []
  end.

Definition digits1 (ok : Z -> bool) (s : string) : list (Z * string) :=
  match s with
  | String a rest =>
      if is_digit a && ok (digit_value a) then [(digit_value a, rest)] else []
  | _ => []
  end.

(** [%Y]: four digits. *)
Definition field_Y : field := fun s =>
  match s with
  | String a (String b (String c (String d rest))) =>
      if is_digit a && is_digit b && is_digit c && is_digit d
      then [(1000 * digit_value a + 100 * digit_value b
             + 10 * digit_value c + digit_value d, rest)]
      else []
  | _ => []
  end.

(** The two-character alternatives of the groups, on the values of the
    two digits: 1[0-2] and 0[1-9] for [%m]; 3[0-1], [1-2]\d and 0[1-9]
    for [%d]; 2[0-3] and [0-1]\d for [%H]; [0-5]\d for [%M]; 6[0-1] and
    [0-5]\d for [%S]. *)
Definition ok_m (a b : Z) : bool :=
  ((a =? 1) && (b <=? 2)) || ((a =? 0) && (1 <=? b)).
Definition ok_d (a b : Z) : bool :=
  ((a =? 3) && (b <=? 1)) || ((1 <=? a) && (a <=? 2)) || ((a =? 0) && (1 <=? b)).
Definition ok_H (a b : Z) : bool := ((a =? 2) && (b <=? 3)) || (a <=? 1).
Definition ok_M (a b : Z) : bool := a <=? 5.
Definition ok_S (a b : Z) : bool := ((a =? 6) && (b <=? 1)) || (a <=? 5).

(** [%m]: 1[0-2], 0[1-9], [1-9]. *)
Definition field_m : field := fun s =>
  (digits2 ok_m s ++ digits1 (fun a => 1 <=? a) s)%list.

(** [%d]: 3[0-1], [1-2]\d, 0[1-9], [1-9], and a space before [1-9]. *)
Definition field_d : field := fun s =>
  (digits2 ok_d s
   ++ digits1 (fun a => 1 <=? a) s
   ++ match s with
      | String a s' =>
          if Ascii.eqb a " "%char then digits1 (fun a => 1 <=? a) s' else []
      | EmptyString => []
      end)%list.

(** [%H]: 2[0-3], [0-1]\d, \d. *)
Definition field_H : field := fun s =>
  (digits2 ok_H s ++ digits1 (fun _ => true) s)%list.

(** [%M]: [0-5]\d, \d. *)
Definition field_M : field := fun s =>
  (digits2 ok_M s ++ digits1 (fun _ => true) s)%list.

(** [%S]: 6[0-1], [0-5]\d, \d. *)
Definition field_S : field := fun s =>
  (digits2 ok_S s ++ digits1 (fun _ => true) s)%list.

(** The first candidate of [cands] after which [k] succeeds. *)
Fixpoint first_match {A B} (k : A -> option B) (cands : list A) : option B :=
  match cands with
  | [] => None
  | c :: cands' =>
      match k c with
      | Some b => Some b
      | None => first_match k cands'
      end
  end.

(** The groups one after the other, backtracking into earlier ones. *)
Fixpoint match_fields (fs : list field) (s : string) : option (list Z * string) :=
  match fs with
  | [] => Some ([], s)
  | f :: fs' =>
      first_match
        (fun c : Z * string =>
           match match_fields fs' (snd c) with
           | Some (vs, rest) => Some (fst c :: vs, rest)
           | None => None
           end)
        (f s)
  end.

Inductive time_format : Type :=
| fmt_YmdHMS     (* %Y%m%d%H%M%S *)
| fmt_YmdHM.     (* %Y%m%d%H%M *)

Definition format_fields (f : time_format) : list field :=
  match f with
  | fmt_YmdHMS => [field_Y; field_m; field_d; field_H; field_M; field_S]
  | fmt_YmdHM => [field_Y; field_m; field_d; field_H; field_M]
  end.

(** [datetime.strptime(s, format)]; [None] is its [ValueError]. *)
Definition strptime (s : string) (f : time_format) : option datetime :=
  match match_fields (format_fields f) s with
  | Some (vs, EmptyString) =>
      let t :=
        match vs with
        | [y; mo; dd; hh; mi; ss] => Datetime y mo dd hh mi ss 0
        | [y; mo; dd; hh; mi] => Datetime y mo dd hh mi 0 0
        | _ => Datetime 0 0 0 0 0 0 0
        end in
      if valid_datetime t then Some t else None
  | _ => None
  end.

Fixpoint zero_pad (width : nat) (s : string) : string :=
  match (width - String.length s)%nat with
  | O => s
  | S _ =>
      match width with
      | O => s
      | S w' => String "0" (zero_pad w' s)
      end
  end.

Definition pad (width : nat) (z : Z) : string := zero_pad width (Z_str z).

(** [d.isoformat()] *)
Definition isoformat (d : datetime) : string :=
  (pad 4 (year d) ++ "-" ++ pad 2 (month d) ++ "-" ++ pad 2 (day d) ++ "T"
   ++ pad 2 (hour d) ++ ":" ++ pad 2 (minute d) ++ ":" ++ pad 2 (second d)
   ++ (if Z.eqb (microsecond d) 0 then EmptyString
       else "." ++ pad 6 (microsecond d)))%string.

(** ** What the libraries decide *)

Record Platform : Type := {
  (** [Message(content)]: the adapter's reading of a CQ-code string. *)
  Message_of_str : string -> Message;
  (** [str(message)]. *)
  str_of_Message : Message -> string;
  (** [send_time.timestamp()] inside an f-string, or what it raises. *)
  posix_timestamp : datetime -> exn + string;
  (** [datetime.fromisoformat(s)], or what it raises. *)
  fromisoformat : string -> exn + datetime;
  (** [t.strftime('%Y-%m-%d %H:%M:%S')]. *)
  strftime : datetime -> string;
  (** [re.compile(p)], or what it raises; the compiled pattern is given
      by whether [regex.search(s)] finds a match. *)
  re_compile : string -> exn + (string -> bool);
  (** A list or a dictionary inside an f-string. *)
  repr_json : json -> string;
  (** [str(e)] of the library exceptions the plugin can meet. *)
  decode_error_text : string -> string;
  codec_error_text : string -> string;
  conflict_text : string -> string;
  lookup_text : string -> string
}.

(** ** Configuration, events, the world *)

(** [Config] after [_load_config]. *)
Record Config : Type := {
  admin_groups : list Z;
  receiver_groups : list Z;
  admins : list Z
}.

Record Reply : Type := { reply_message_id : Z; reply_message : Message }.

(** A [GroupMessageEvent]. *)
Record Event : Type := {
  group_id : Z;
  user_id : Z;
  plaintext : string;            (* event.get_plaintext() *)
  reply : option Reply           (* event.reply *)
}.

(** What [QUEUE_FILE] holds when it exists: bytes that are not UTF-8
    text, text that is not JSON, or a JSON document. *)
Inductive file_content : Type :=
| NotUtf8 (raw : string)         (* reading raises UnicodeDecodeError *)
| Undecodable (raw : string)     (* json.load raises JSONDecodeError *)
| Document (j : json).

(** A registration of the scheduler: [add_job(execute_scheduled_task,
    'date', run_date=..., id=..., args=[...])]. *)
Record job : Type := {
  job_id : string;
  run_date : datetime;
  job_args : json * json * json * string
}.

Inductive payload : Type :=
| of_message (m : Message)
| of_str (s : string).

(** The calls made to the chat platform. *)
Inductive action : Type :=
| send_group_msg (group : Z) (message : payload)   (* bot.send_group_msg *)
| matcher_send (message : string)   (* message_handler.send, and finish *)
| delete_msg (message_id : Z).                     (* bot.delete_msg *)

Record World : Type := {
  queue_file : option file_content;
  scheduler_jobs : list job;
  calls : list action;             (* every call attempted, oldest first *)
  now : datetime;                  (* datetime.now() *)
  bot_connected : bool             (* get_driver().bots is not empty *)
}.

Definition with_queue_file (f : option file_content) (w : World) : World :=
  {| queue_file := f; scheduler_jobs := scheduler_jobs w; calls := calls w;
     now := now w; bot_connected := bot_connected w |}.

Definition with_scheduler_jobs (js : list job) (w : World) : World :=
  {| queue_file := queue_file w; scheduler_jobs := js; calls := calls w;
     now := now w; bot_connected := bot_connected w |}.

Definition with_calls (cs : list action) (w : World) : World :=
  {| queue_file := queue_file w; scheduler_jobs := scheduler_jobs w;
     calls := cs; now := now w; bot_connected := bot_connected w |}.

(** ** Computations: state and exceptions *)

Inductive outcome (A : Type) : Type :=
| Return (a : A)
| Raise (e : exn).
Arguments Return {A} a.
Arguments Raise {A} e.

Definition M (A : Type) : Type := World -> outcome A * World.

Definition ret {A} (a : A) : M A := fun w => (Return a, w).

Definition raise {A} (e : exn) : M A := fun w => (Raise e, w).

Definition bind {A B} (m : M A) (k : A -> M B) : M B :=
  fun w =>
    match m w with
    | (Return a, w') => k a w'
    | (Raise e, w') => (Raise e, w')
    end.

(** [try: m  except ... as e: h e]; a handler re-raises what no clause of
    the statement catches. *)
Definition try_except {A} (m : M A) (h : exn -> M A) : M A :=
  fun w =>
    match m w with
    | (Return a, w') => (Return a, w')
    | (Raise e, w') => h e w'
    end.

Declare Scope monad_scope.
Delimit Scope monad_scope with monad.
Notation "x <- m ;; k" := (bind m (fun x => k))
  (at level 61, m at next level, right associativity) : monad_scope.
Notation "m ;;; k" := (bind m (fun _ => k))
  (at level 61, right associativity) : monad_scope.
Open Scope monad_scope.

Definition get {A} (f : World -> A) : M A := fun w => (Return (f w), w).

(** [for x in l: body x] *)
Fixpoint for_each {A} (l : list A) (body : A -> M unit) : M unit :=
  match l with
  | [] => ret tt
  | x :: l' => body x ;;; for_each l' body
  end.

(** [v[k]] on a loaded value. *)
Definition getitem (v : json) (k : string) : M json :=
  match v with
  | JObj d =>
      match dict_get k d with
      | Some x => ret x
      | None => raise (Exn KeyError k)
      end
  | _ => raise (Exn TypeError k)
  end.

(** [v.items()] *)
Definition items_of (v : json) : M (dict json) :=
  match v with
  | JObj d => ret d
  | _ => raise (Exn AttributeError "items")
  end.

(** The record of a job in the queue file (lines 420-425, 473-478). *)
Definition task_info (timestamp type content : string) (target_group : Z)
  : json :=
  JObj [("timestamp", JStr timestamp); ("type", JStr type);
        ("content", JStr content); ("target_group", JInt target_group)].

(** ** A platform, a configuration and two transports to run the plugin on *)

(** Days from 1970-01-01 to a date of the proleptic Gregorian calendar. *)
Definition days_from_civil (y m d : Z) : Z :=
  let y' := if m <=? 2 then y - 1 else y in
  let era := y' / 400 in
  let yoe := y' - era * 400 in
  let mp := (m + 9) mod 12 in
  let doy := (153 * mp + 2) / 5 + d - 1 in
  let doe := yoe * 365 + yoe / 4 - yoe / 100 + doy in
  era * 146097 + doe - 719468.

(** The text of [t.timestamp()] for a clock on UTC. *)
Definition utc_timestamp (t : datetime) : string :=
  (Z_str (days_from_civil (year t) (month t) (day t) * 86400
          + hour t * 3600 + minute t * 60 + second t) ++ ".0")%string.

(** [YYYY-MM-DDTHH:MM:SS], the form [isoformat] writes. *)
Definition iso_seconds (s : string) : exn + datetime :=
  let bad := inl (Exn ValueError ("Invalid isoformat string: " ++ s)) in
  match s with
  | String y1 (String y2 (String y3 (String y4 (String "-"
    (String m1 (String m2 (String "-" (String d1 (String d2 (String "T"
    (String h1 (String h2 (String ":" (String i1 (String i2 (String ":"
    (String s1 (String s2 EmptyString)))))))))))))))))) =>
      let n2 a b := 10 * digit_value a + digit_value b in
      let t := Datetime (100 * n2 y1 y2 + n2 y3 y4) (n2 m1 m2) (n2 d1 d2)
                        (n2 h1 h2) (n2 i1 i2) (n2 s1 s2) 0 in
      if all_digits (String y1 (String y2 (String y3 (String y4 (String m1
           (String m2 (String d1 (String d2 (String h1 (String h2 (String i1
           (String i2 (String s1 (String s2 EmptyString))))))))))))))
         && valid_datetime t
      then inr t else bad
  | _ => bad
  end.

Fixpoint segments_text (m : Message) : string :=
  match m with
  | [] => EmptyString
  | text s :: m' => (s ++ segments_text m')%string
  | at_ qq :: m' => ("[CQ:at,qq=" ++ qq ++ "]" ++ segments_text m')%string
  | image f :: m' => ("[CQ:image,file=" ++ f ++ "]" ++ segments_text m')%string
  | cq k d :: m' => ("[CQ:" ++ k ++ "," ++ d ++ "]" ++ segments_text m')%string
  end.

Definition sample_platform : Platform := {|
  Message_of_str := fun s => if String.eqb s EmptyString then [] else [text s];
  str_of_Message := segments_text;
  posix_timestamp := fun t => inr (utc_timestamp t);
  fromisoformat := iso_seconds;
  strftime := fun t =>
    (pad 4 (year t) ++ "-" ++ pad 2 (month t) ++ "-" ++ pad 2 (day t) ++ " "
     ++ pad 2 (hour t) ++ ":" ++ pad 2 (minute t) ++ ":" ++ pad 2 (second t))%string;
  re_compile := fun p => inr (fun s => String.eqb p s);
  repr_json := fun _ => "{...}";
  decode_error_text := fun _ => "Expecting value: line 1 column 1 (char 0)";
  codec_error_text := fun _ =>
    "'utf-8' codec can't decode byte 0xff in position 0: invalid start byte";
  conflict_text := fun id =>
    ("'Job identifier (" ++ id ++ ") conflicts with an existing job'")%string;
  lookup_text := fun id => ("'No job by the id of " ++ id ++ " was found'")%string
|}.

Definition sample_config : Config :=
  {| admin_groups := [100]; receiver_groups := [200; 201]; admins := [] |}.

(** A transport that accepts every call, numbering the messages. *)
Definition transport_up : list action -> action -> exn + Z :=
  fun before _ => inr (1000 + Z.of_nat (List.length before)).

(** A transport that delivers nothing to group 200 and accepts the rest. *)
Definition transport_down : list action -> action -> exn + Z :=
  fun before a =>
    match a with
    | send_group_msg 200 _ =>
        inl (Exn (OtherException "ActionFailed") "ActionFailed(retcode=100)")
    | _ => inr (1000 + Z.of_nat (List.length before))
    end.

Definition sample_event (msg : string) : Event :=
  {| group_id := 100; user_id := 7; plaintext := msg; reply := None |}.

Definition sample_reply_event (msg : string) : Event :=
  {| group_id := 100; user_id := 7; plaintext := msg;
     reply := Some {| reply_message_id := 55; reply_message := [text "hello"] |} |}.

Definition sample_now : datetime := Datetime 2025 9 1 8 30 0 0.

(** A world whose queue file holds one job that the scheduler no longer
    knows. *)
Definition sample_world : World := {|
  queue_file :=
    Some (Document (JObj [("job_1", task_info "2025-09-20T12:00:00"
                                      "sendmessage" "hi" 200)]));
  scheduler_jobs := [];
  calls := [];
  now := sample_now;
  bot_connected := true
|}.

(** ** The plugin *)

Section Plugin.

Variable P : Platform.
Variable config : Config.

(** The chat platform: given the calls attempted so far and the call at
    hand, the identifier it answers with, or the exception it raises. *)
Variable transport : list action -> action -> exn + Z.

Definition call (a : action) : M Z :=
  fun w =>
    let w' := with_calls (calls w ++ [a]) w in
    match transport (calls w) a with
    | inr id => (Return id, w')
    | inl e => (Raise e, w')
    end.

(** [message_handler.send(text)] *)
Definition send (message : string) : M unit :=
  call (matcher_send message) ;;; ret tt.

(** [message_handler.finish(text)]: sends, then leaves the handler by
    raising [FinishedException]. *)
Definition finish {A} (message : string) : M A :=
  call (matcher_send message) ;;;
  raise (Exn FinishedException EmptyString).

(** *** The scheduler *)

Definition has_job (id : string) (js : list job) : bool :=
  existsb (fun j => String.eqb (job_id j) id) js.

(** [scheduler.add_job(..., id=job_id j)]: an identifier already
    registered is refused with [ConflictingIdError]. *)
Definition add_job (j : job) : M unit :=
  fun w =>
    if has_job (job_id j) (scheduler_jobs w)
    then (Raise (Exn ConflictingIdError (conflict_text P (job_id j))), w)
    else (Return tt, with_scheduler_jobs (scheduler_jobs w ++ [j]) w).

(** [scheduler.remove_job(id)]: an identifier that is not registered is
    refused with [JobLookupError]. *)
Definition remove_job (id : string) : M unit :=
  fun w =>
    if has_job id (scheduler_jobs w)
    then (Return tt,
          with_scheduler_jobs
            (filter (fun j => negb (String.eqb (job_id j) id))
                    (scheduler_jobs w)) w)
    else (Raise (Exn JobLookupError (lookup_text P id)), w).

(** *** The queue file *)

(** [QUEUE_FILE.exists()] *)
Definition file_exists : M bool :=
  get (fun w => match queue_file w with Some _ => true | None => false end).

(** [with open(QUEUE_FILE, 'r') as f: json.load(f)] *)
Definition json_load_file : M json :=
  fun w =>
    match queue_file w with
    | Some (Document j) => (Return (json_load j), w)
    | Some (Undecodable raw) =>
        (Raise (Exn JSONDecodeError (decode_error_text P raw)), w)
    | Some (NotUtf8 raw) =>
        (Raise (Exn UnicodeDecodeError (codec_error_text P raw)), w)
    | None => (Raise (Exn (OtherException "FileNotFoundError") EmptyString), w)
    end.

(** [with open(QUEUE_FILE, 'w') as f: json.dump(v, f, ...)] *)
Definition json_dump_file (v : json) : M unit :=
  fun w => (Return tt, with_queue_file (Some (Document v)) w).

(** Lines 53-55, run when the module is imported. *)
Definition initial_setup : M unit :=
  present <- file_exists ;;
  if present then ret tt else json_dump_file (JObj []).

(** The head of [save_to_queue] (lines 222-230): the queue as a
    dictionary, empty when the file is absent, is not decodable or does
    not hold an object. *)
Definition read_queue : M (dict json) :=
  present <- file_exists ;;
  if present then
    try_except
      (queue <- json_load_file ;;
       ret (match queue with JObj d => d | _ => [] end))
      (fun e => if is_JSONDecodeError e then ret [] else raise e)
  else ret [].

(** save_to_queue (lines 217-233) *)
Definition save_to_queue (job_id : string) (task_info : json) : M unit :=
  queue <- read_queue ;;
  json_dump_file (JObj (dict_set job_id task_info queue)).

(** remove_from_queue (lines 236-253) *)
Definition remove_from_queue (job_id : string) : M unit :=
  present <- file_exists ;;
  if negb present then ret tt
  else
    loaded <- try_except
                (queue <- json_load_file ;;
                 ret (match queue with JObj d => Some d | _ => None end))
                (fun e => if is_JSONDecodeError e then ret None else raise e) ;;
    match loaded with
    | None => ret tt
    | Some queue =>
        if dict_mem job_id queue
        then json_dump_file (JObj (dict_del job_id queue))
        else ret tt
    end.

(** *** on_startup (lines 133-165) *)

(** [datetime.fromisoformat(v)] on a loaded value. *)
Definition fromisoformat_value (v : json) : M datetime :=
  match v with
  | JStr s =>
      match fromisoformat P s with
      | inr t => ret t
      | inl e => raise e
      end
  | _ => raise (Exn TypeError "fromisoformat")
  end.

(** The body of the loop of lines 148-163. *)
Definition reload_job (entry : string * json) : M unit :=
  let (job_id, job_info) := entry in
  stamp <- getitem job_info "timestamp" ;;
  timestamp <- fromisoformat_value stamp ;;
  current <- get now ;;
  if datetime_gt timestamp current then
    kind <- getitem job_info "type" ;;
    content <- getitem job_info "content" ;;
    target_group <- getitem job_info "target_group" ;;
    add_job {| job_id := job_id; run_date := timestamp;
               job_args := (kind, content, target_group, job_id) |}
  else ret tt.

Definition on_startup : M unit :=
  present <- file_exists ;;
  if present then
    try_except
      (loaded <- json_load_file ;;
       let queue := match loaded with JObj d => d | _ => [] end in
       for_each queue reload_job)
      (fun e => if is_JSONDecodeError e then ret tt else raise e)
  else ret tt.

(** *** execute_scheduled_task (lines 168-214) *)

Definition confirmation_message (target_group message_id : Z) : string :=
  ("Scheduled message sent to group " ++ Z_str target_group ++ "."
   ++ String newline ("MessageID: " ++ Z_str message_id))%string.

(** Lines 201-209: a failed confirmation is logged and the loop goes on. *)
Definition confirm_to (confirmation : string) (admin_group : Z) : M unit :=
  try_except
    (call (send_group_msg admin_group (of_str confirmation)) ;;; ret tt)
    (fun _ => ret tt).

(** Lines 183-187. *)
Definition message_to_send (command_type content : string) : option Message :=
  if String.eqb command_type "sendmessage"
  then Some (parse_content_to_message content)
  else if String.eqb command_type "forwardmessage"
  then Some (Message_of_str P content)
  else None.

Definition execute_scheduled_task
    (command_type content : string) (target_group : Z) (job_id : string)
  : M unit :=
  connected <- get bot_connected ;;
  if negb connected then ret tt
  else
    try_except
      (match message_to_send command_type content with
       | Some message =>
           if truthy_message message then
             message_id <- call (send_group_msg target_group (of_message message)) ;;
             for_each (admin_groups config)
                      (confirm_to (confirmation_message target_group message_id))
           else ret tt
       | None => ret tt
       end ;;;
       remove_from_queue job_id)
      (fun _ => ret tt).

(** *** Reading a command (lines 299-307 and 362-367) *)

(** A lazy group [(.*?)] under DOTALL followed by the literal [sep] and
    by the rest [k] of the pattern: the shortest text after which the
    separator stands and the rest matches. *)
Fixpoint lazy_group {A} (sep : string) (k : string -> option A) (s : string)
  : option (string * A) :=
  match match strip_prefix sep s with
        | Some rest => k rest
        | None => None
        end with
  | Some a => Some (EmptyString, a)
  | None =>
      match s with
      | EmptyString => None
      | String c s' =>
          match lazy_group sep k s' with
          | Some (g, a) => Some (String c g, a)
          | None => None
          end
      end
  end.

(** The pattern of four bracketed lazy groups, matched at the start of
    [s]: [match.groups()]. *)
Definition match_command (s : string)
  : option (string * string * string * string) :=
  match strip_prefix "[" s with
  | None => None
  | Some s1 =>
      match lazy_group "][" (lazy_group "][" (lazy_group "]["
              (lazy_group "]" (fun _ => Some tt)))) s1 with
      | Some (g1, (g2, (g3, (g4, _)))) => Some (g1, g2, g3, g4)
      | None => None
      end
  end.

(** The rule [is_bdsm_command]. *)
Definition is_bdsm_command (e : Event) : bool :=
  let msg := strip (plaintext e) in
  match match_command msg with
  | Some _ => true
  | None => String.eqb (lower msg) "message"
  end.

(** is_admin (lines 289-296) *)
Definition is_admin (user_id : Z) : bool :=
  match admins config with
  | [] => true
  | _ => existsb (Z.eqb user_id) (admins config)
  end.

(** The usage text of lines 335-357, line by line. *)
Definition help_lines : list string :=
  [
    ("BDSM Message Manager - 可用命令:")%string;
    ("基本格式: [命令类型][时间戳][消息内容][目标群号]")%string;
    EmptyString;
    ("1. sendmessage: 发送消息")%string;
    ("   - 时间戳: 0 (立即发送) 或 YYYYMMDDHHMM(SS) (定时发送)")%string;
    ("   - 消息内容: 支持纯文本, {at_all}, \n (换行), 和 `{:Image(url=" ++ String dquote EmptyString ++ "..." ++ String dquote EmptyString ++ ")}` 图片格式.")%string;
    ("   - 示例: `[sendmessage][202509201200][大家好][123456]`")%string;
    EmptyString;
    ("2. forwardmessage: 转发消息 (需回复一条消息)")%string;
    ("   - 时间戳: 0 (立即发送) 或 YYYYMMDDHHMM(SS) (定时发送)")%string;
    ("   - 消息内容: 留空")%string;
    ("   - 示例: `[forwardmessage][0][][123456]` (回复某条消息时使用)")%string;
    EmptyString;
    ("3. recallmessage: 撤回消息")%string;
    ("   - 时间戳: 0")%string;
    ("   - 消息内容: 要撤回的消息ID (MessageID).")%string;
    ("   - 目标群号: 消息所在的群号 (虽然格式上需要, 但实际未使用).")%string;
    ("   - 也可以通过回复要撤回的消息来使用, 消息内容和群号任意.")%string;
    ("   - 示例: `[recallmessage][0][12345][654321]`")%string;
    EmptyString;
    ("4. cancelmessage: 取消定时任务")%string;
    ("   - 时间戳: -1")%string;
    ("   - 消息内容: 要取消的任务ID (JobID).")%string;
    ("   - 示例: `[cancelmessage][-1][job_...][0]`")%string;
    EmptyString;
    ("5. schedulemessage: 查看定时任务列表")%string;
    ("   - 时间戳/消息内容/目标群号: 可选的筛选条件.")%string;
    ("   - 示例: `[schedulemessage][][][123456]` (查看所有发往群123456的任务)")%string;
    EmptyString
  ].
Definition help_text : string := String.concat (String newline EmptyString) help_lines.

(** *** Scheduling (lines 401-436 and 454-489) *)

(** Lines 403-408. *)
Definition parse_send_time (timestamp_str : string) : M datetime :=
  if (String.length timestamp_str =? 14)%nat then
    match strptime timestamp_str fmt_YmdHMS with
    | Some t => ret t
    | None => raise (Exn ValueError "strptime")
    end
  else if (String.length timestamp_str =? 12)%nat then
    match strptime timestamp_str fmt_YmdHM with
    | Some t => ret t
    | None => raise (Exn ValueError "strptime")
    end
  else raise (Exn ValueError "Incorrect timestamp length").

Definition timestamp_text (t : datetime) : M string :=
  match posix_timestamp P t with
  | inr s => ret s
  | inl e => raise e
  end.

Definition invalid_timestamp_reply : string :=
  "Invalid timestamp format. Please use YYYYMMDDHHMMSS or YYYYMMDDHHMM.".

(** Lines 410-431. *)
Definition register_send (send_time : datetime) (content : string)
    (target_group : Z) : M unit :=
  stamp <- timestamp_text send_time ;;
  let job_id := ("job_" ++ stamp ++ "_" ++ Z_str target_group)%string in
  add_job {| job_id := job_id; run_date := send_time;
             job_args := (JStr "sendmessage", JStr content,
                          JInt target_group, job_id) |} ;;;
  save_to_queue job_id
    (task_info (isoformat send_time) "sendmessage" content target_group) ;;;
  send ("Message scheduled for " ++ strftime P send_time ++ " to group "
        ++ Z_str target_group ++ "." ++ " JobID: " ++ job_id).

(** Lines 432-436. *)
Definition send_failed (e : exn) : M unit :=
  if is_ValueError e then send invalid_timestamp_reply
  else send ("Failed to schedule message: " ++ exn_text e).

(** Lines 402-436. *)
Definition schedule_send (timestamp_str content : string) (target_group : Z)
  : M unit :=
  try_except
    (send_time <- parse_send_time timestamp_str ;;
     register_send send_time content target_group)
    send_failed.

(** Lines 463-484. *)
Definition register_forward (send_time : datetime) (forward_message : Message)
    (target_group : Z) : M unit :=
  stamp <- timestamp_text send_time ;;
  let job_id := ("job_forward_" ++ stamp ++ "_" ++ Z_str target_group)%string in
  add_job {| job_id := job_id; run_date := send_time;
             job_args := (JStr "forwardmessage",
                          JStr (str_of_Message P forward_message),
                          JInt target_group, job_id) |} ;;;
  save_to_queue job_id
    (task_info (isoformat send_time) "forwardmessage"
               (str_of_Message P forward_message) target_group) ;;;
  send ("Forward message scheduled for " ++ strftime P send_time
        ++ " to group " ++ Z_str target_group ++ "." ++ " JobID: " ++ job_id).

(** Lines 485-489. *)
Definition forward_failed (e : exn) : M unit :=
  if is_ValueError e then send invalid_timestamp_reply
  else send ("Failed to schedule forward: " ++ exn_text e).

(** Lines 455-489. *)
Definition schedule_forward (timestamp_str : string) (forward_message : Message)
    (target_group : Z) : M unit :=
  try_except
    (send_time <- parse_send_time timestamp_str ;;
     register_forward send_time forward_message target_group)
    forward_failed.

(** Lines 388-436. *)
Definition do_sendmessage (timestamp_str content : string) (target_group : Z)
  : M unit :=
  if String.eqb timestamp_str "0" then
    try_except
      (message_id <- call (send_group_msg target_group
                             (of_message (parse_content_to_message content))) ;;
       send ("Message sent to group " ++ Z_str target_group
             ++ ". MessageID: " ++ Z_str message_id))
      (fun e => send ("Failed to send message: " ++ exn_text e))
  else if isdigit timestamp_str then
    schedule_send timestamp_str content target_group
  else ret tt.

(** Lines 438-489. *)
Definition do_forwardmessage (event : Event) (timestamp_str : string)
    (target_group : Z) : M unit :=
  match reply event with
  | None =>
      finish "The `forwardmessage` command must be used by replying to a message."
  | Some r =>
      let forward_message := reply_message r in
      if String.eqb timestamp_str "0" then
        try_except
          (message_id <- call (send_group_msg target_group
                                 (of_message forward_message)) ;;
           send ("Message forwarded to group " ++ Z_str target_group
                 ++ ". MessageID: " ++ Z_str message_id))
          (fun e => send ("Failed to forward message: " ++ exn_text e))
      else if isdigit timestamp_str then
        schedule_forward timestamp_str forward_message target_group
      else ret tt
  end.

(** Lines 491-516. *)
Definition do_recallmessage (event : Event) (content : string) : M unit :=
  recalled <- match reply event with
              | Some r =>
                  try_except
                    (call (delete_msg (reply_message_id r)) ;;;
                     send ("Message " ++ Z_str (reply_message_id r)
                           ++ " has been recalled.") ;;;
                     ret true)
                    (fun _ => ret false)
              | None => ret false
              end ;;
  if recalled : bool then ret tt
  else if negb (isdigit content) then
    finish "Invalid MessageID. Provide a numeric MessageID or reply to the message to recall."
  else
    let message_id := int_of_digits content in
    try_except
      (call (delete_msg message_id) ;;;
       send ("Message " ++ Z_str message_id ++ " has been recalled."))
      (fun e => send ("Failed to recall message: " ++ exn_text e)).

(** *** Listing (lines 518-590) *)

(** A dictionary comprehension with a condition that may raise. *)
Fixpoint filter_items (keep : json -> M bool) (d : dict json) : M (dict json) :=
  match d with
  | [] => ret []
  | (k, info) :: d' =>
      kept <- keep info ;;
      rest <- filter_items keep d' ;;
      ret (if kept : bool then (k, info) :: rest else rest)
  end.

(** [queue.copy()] *)
Definition copy_of (v : json) : M json :=
  match v with
  | JObj _ | JArr _ => ret v
  | _ => raise (Exn AttributeError "copy")
  end.

(** Lines 538-553. *)
Definition filter_by_time (timestamp_str : string) (tasks : json) : M json :=
  if String.eqb timestamp_str EmptyString then ret tasks
  else
    try_except
      (filter_time <-
         (if (String.length timestamp_str =? 14)%nat then
            match strptime timestamp_str fmt_YmdHMS with
            | Some t => ret (Some t)
            | None => raise (Exn ValueError "strptime")
            end
          else if (String.length timestamp_str =? 12)%nat then
            match strptime timestamp_str fmt_YmdHM with
            | Some t => ret (Some t)
            | None => raise (Exn ValueError "strptime")
            end
          else ret None) ;;
       match filter_time with
       | Some wanted =>
           entries <- items_of tasks ;;
           kept <- filter_items
                     (fun info =>
                        stamp <- getitem info "timestamp" ;;
                        t <- fromisoformat_value stamp ;;
                        ret (datetime_eq t wanted))
                     entries ;;
           ret (JObj kept)
       | None => ret tasks
       end)
      (fun e => if is_ValueError e then ret tasks else raise e).

(** [regex.search(v)] on a loaded value. *)
Definition search_value (found : string -> bool) (v : json) : M bool :=
  match v with
  | JStr s => ret (found s)
  | _ => raise (Exn TypeError "expected string or bytes-like object")
  end.

(** Lines 556-566; [None] when the handler has replied and returned. *)
Definition filter_by_content (content : string) (tasks : json)
  : M (option json) :=
  if String.eqb content EmptyString then ret (Some tasks)
  else
    try_except
      (found <- match re_compile P content with
                | inr f => ret f
                | inl e => raise e
                end ;;
       entries <- items_of tasks ;;
       kept <- filter_items
                 (fun info =>
                    v <- getitem info "content" ;; search_value found v)
                 entries ;;
       ret (Some (JObj kept)))
      (fun e =>
         if is_re_error e
         then send "Invalid regular expression for content filtering." ;;;
              ret None
         else raise e).

(** Lines 569-575. *)
Definition filter_by_group (target_group_str : string) (tasks : json) : M json :=
  if isdigit target_group_str then
    let filter_group := int_of_digits target_group_str in
    entries <- items_of tasks ;;
    kept <- filter_items
              (fun info =>
                 v <- getitem info "target_group" ;;
                 ret (eq_int v filter_group))
              entries ;;
    ret (JObj kept)
  else ret tasks.

(** A loaded value inside an f-string. *)
Definition format_value (v : json) : string :=
  match v with
  | JInt n => Z_str n
  | JStr s => s
  | JNull => "None"
  | JBool true => "True"
  | JBool false => "False"
  | _ => repr_json P v
  end.

(** [v[:30].replace('`', '')] on a loaded value. *)
Definition content_preview (v : json) : M string :=
  match v with
  | JStr s => ret (remove_char "`"%char (take 30 s))
  | JArr _ => raise (Exn AttributeError "replace")
  | _ => raise (Exn TypeError "slice")
  end.

(** Lines 582-589. *)
Fixpoint render_tasks (response : string) (entries : dict json) : M string :=
  match entries with
  | [] => ret response
  | (job_id, job_info) :: rest =>
      stamp <- getitem job_info "timestamp" ;;
      t <- fromisoformat_value stamp ;;
      group <- getitem job_info "target_group" ;;
      body <- getitem job_info "content" ;;
      preview <- content_preview body ;;
      render_tasks
        (response
         ++ "  - JobID: " ++ job_id ++ String newline
            ("    Time: " ++ strftime P t ++ String newline
            ("    Group: " ++ format_value group ++ String newline
            ("    Content: `" ++ preview ++ "...`" ++ String newline EmptyString))))
        rest
  end.

Definition do_schedulemessage (timestamp_str content target_group_str : string)
  : M unit :=
  present <- file_exists ;;
  if negb present then send "The schedule queue is empty."
  else
    loaded <- try_except
                (queue <- json_load_file ;; ret (Some queue))
                (fun e =>
                   if is_JSONDecodeError e
                   then send "Could not read the schedule queue." ;;; ret None
                   else raise e) ;;
    match loaded with
    | None => ret tt
    | Some queue =>
        if negb (truthy queue) then send "The schedule queue is empty."
        else
          tasks0 <- copy_of queue ;;
          tasks1 <- filter_by_time timestamp_str tasks0 ;;
          filtered <- filter_by_content content tasks1 ;;
          match filtered with
          | None => ret tt
          | Some tasks2 =>
              tasks3 <- filter_by_group target_group_str tasks2 ;;
              if negb (truthy tasks3)
              then send "No scheduled tasks match your criteria."
              else
                entries <- items_of tasks3 ;;
                response <- render_tasks
                              ("Scheduled Tasks:" ++ String newline EmptyString)
                              entries ;;
                send response
          end
    end.

(** Lines 592-605. *)
Definition do_cancelmessage (timestamp_str content : string) : M unit :=
  if negb (String.eqb timestamp_str "-1") then
    finish "To cancel a task, the timestamp must be -1."
  else
    let job_id_to_cancel := content in
    try_except
      (remove_job job_id_to_cancel ;;;
       remove_from_queue job_id_to_cancel ;;;
       send ("Scheduled job " ++ job_id_to_cancel ++ " has been canceled."))
      (fun e =>
         send ("Failed to cancel job " ++ job_id_to_cancel ++ ": " ++ exn_text e)).

(** *** handle_message (lines 314-605) *)

(** The command delegation of lines 385-605. *)
Definition delegate (event : Event)
    (command_type timestamp_str content target_group_str : string)
    (target_group : Z) : M unit :=
  if String.eqb command_type "sendmessage" then
    do_sendmessage timestamp_str content target_group
  else if String.eqb command_type "forwardmessage" then
    do_forwardmessage event timestamp_str target_group
  else if String.eqb command_type "recallmessage" then
    do_recallmessage event content
  else if String.eqb command_type "schedulemessage" then
    do_schedulemessage timestamp_str content target_group_str
  else if String.eqb command_type "cancelmessage" then
    do_cancelmessage timestamp_str content
  else ret tt.

(** Line 367: the four groups, each stripped. *)
Definition command_fields (command_text : string)
  : option (string * string * string * string) :=
  match match_command command_text with
  | Some (g1, g2, g3, g4) => Some (strip g1, strip g2, strip g3, strip g4)
  | None => None
  end.

(** Line 374. *)
Definition target_group_of (target_group_str : string) : Z :=
  if isdigit target_group_str then int_of_digits target_group_str else 0.

Definition handle_message (event : Event) : M unit :=
  if negb (existsb (Z.eqb (group_id event)) (admin_groups config)) then ret tt
  else if negb (is_admin (user_id event)) then
    finish "You are not authorized to use this command."
  else
    let command_text := strip (plaintext event) in
    if String.eqb (lower command_text) "message" then finish help_text
    else
      match command_fields command_text with
      | None => ret tt
      | Some (command_type, timestamp_str, content, target_group_str) =>
          if negb (isdigit target_group_str)
             && negb (String.eqb command_type "schedulemessage")
          then finish "Invalid target group number."
          else
            let target_group := target_group_of target_group_str in
            if negb (target_group =? 0)
               && negb (existsb (Z.eqb target_group) (receiver_groups config))
            then finish ("Group " ++ Z_str target_group
                         ++ " is not in the receiver groups list.")
            else delegate event command_type timestamp_str content
                          target_group_str target_group
      end.

(** The fields of the command with which [handle_message] reaches the
    delegation, when the event passes the checks of lines 322-378. *)
Definition accepted (event : Event)
  : option (string * string * string * string) :=
  if negb (existsb (Z.eqb (group_id event)) (admin_groups config)) then None
  else if negb (is_admin (user_id event)) then None
  else
    let command_text := strip (plaintext event) in
    if String.eqb (lower command_text) "message" then None
    else
      match command_fields command_text with
      | None => None
      | Some (command_type, timestamp_str, content, target_group_str) =>
          if negb (isdigit target_group_str)
             && negb (String.eqb command_type "schedulemessage")
          then None
          else
            let target_group := target_group_of target_group_str in
            if negb (target_group =? 0)
               && negb (existsb (Z.eqb target_group) (receiver_groups config))
            then None
            else Some (command_type, timestamp_str, content, target_group_str)
      end.

(** ** Views used in the statements *)

(** One member of an object, as [json.load] enters it. *)
Definition add_member (d : dict json) (m : string * json) : dict json :=
  dict_set (fst m) (json_load (snd m)) d.

(** The mapping a queue file stands for: the one [read_queue] returns. *)
Definition stored (f : option file_content) : dict json :=
  match f with
  | Some (Document j) =>
      match json_load j with
      | JObj d => d
      | _ => []
      end
  | _ => []
  end.

(** What [execute_scheduled_task] has to deliver, if anything: the message
    of lines 183-187 when it passes the test of line 189. *)
Definition deliverable (command_type content : string) : option Message :=
  match message_to_send command_type content with
  | Some message => if truthy_message message then Some message else None
  | None => None
  end.

(** The file is missing, holds text that is not JSON, or holds a
    document that is not an object. *)
Definition unusable (f : option file_content) : bool :=
  match f with
  | None => true
  | Some (Undecodable _) => true
  | Some (Document j) => negb (is_dict (json_load j))
  | Some (NotUtf8 _) => false
  end.

(** The file holds bytes that are not UTF-8 text. *)
Definition not_text (f : option file_content) : bool :=
  match f with
  | Some (NotUtf8 _) => true
  | _ => false
  end.

(** What reading the file raises past the readers that only catch
    [JSONDecodeError]. *)
Definition read_failure (f : option file_content) : option exn :=
  match f with
  | Some (NotUtf8 raw) =>
      Some (Exn UnicodeDecodeError (codec_error_text P raw))
  | _ => None
  end.

(** What [reload_job] reads from the record of a persisted job: the
    time its timestamp stands for, its kind, content and target group. *)
Definition stored_job (info : json) : option (datetime * json * json * json) :=
  match info with
  | JObj d =>
      match dict_get "timestamp" d, dict_get "type" d,
            dict_get "content" d, dict_get "target_group" d with
      | Some (JStr stamp), Some kind, Some content, Some target_group =>
          match fromisoformat P stamp with
          | inr t => Some (t, kind, content, target_group)
          | inl _ => None
          end
      | _, _, _, _ => None
      end
  | _ => None
  end.

(** The registration due to an entry of the queue at a given time: one
    when the job lies strictly in the future, none otherwise. *)
Definition registration (current : datetime) (entry : string * json)
  : list job :=
  match stored_job (snd entry) with
  | Some (t, kind, content, target_group) =>
      if datetime_gt t current
      then [{| job_id := fst entry; run_date := t;
               job_args := (kind, content, target_group, fst entry) |}]
      else []
  | None => []
  end.

(** The time a scheduling command asks for (lines 403-408). *)
Definition requested_time (timestamp_str : string) : option datetime :=
  if (String.length timestamp_str =? 14)%nat
  then strptime timestamp_str fmt_YmdHMS
  else if (String.length timestamp_str =? 12)%nat
  then strptime timestamp_str fmt_YmdHM
  else None.

(** No newline character in [s]. *)
Fixpoint no_newline (s : string) : bool :=
  match s with
  | EmptyString => true
  | String c s' => negb (Ascii.eqb c newline) && no_newline s'
  end.

(** *** Timestamps read at fixed width *)

(** The number written by the [n] characters of [s] from position [i]. *)
Definition digits_at (i n : nat) (s : string) : Z :=
  int_of_digits (substring i n s).

(** YYYYMMDDHHMM and YYYYMMDDHHMMSS: the fields at their places. *)
Definition fixed_width (f : time_format) (s : string) : datetime :=
  Datetime (digits_at 0 4 s) (digits_at 4 2 s) (digits_at 6 2 s)
           (digits_at 8 2 s) (digits_at 10 2 s)
           (match f with fmt_YmdHMS => digits_at 12 2 s | fmt_YmdHM => 0 end) 0.

Definition format_width (f : time_format) : nat :=
  match f with fmt_YmdHMS => 14 | fmt_YmdHM => 12 end.

(** A text of pairs of digits, each pair accepted by the two-character
    alternatives of its group, and the values of the pairs. *)
Fixpoint pairs_ok (oks : list (Z -> Z -> bool)) (s : string) : bool :=
  match oks, s with
  | [], EmptyString => true
  | ok :: oks', String a (String b r) =>
      ok (digit_value a) (digit_value b) && pairs_ok oks' r
  | _, _ => false
  end.

Fixpoint pairs_values (n : nat) (s : string) : list Z :=
  match n, s with
  | S n', String a (String b r) =>
      (10 * digit_value a + digit_value b) :: pairs_values n' r
  | _, _ => []
  end.

(** A group that takes at most two characters and whose first
    alternatives are the two-digit ones, accepted by [ok]. *)
Definition two_digit (f : field) (ok : Z -> Z -> bool) : Prop :=
  (forall s v rest, In (v, rest) (f s) ->
                    (String.length s <= String.length rest + 2)%nat) /\
  (forall a b r, is_digit a = true -> is_digit b = true ->
     exists tl,
       f (String a (String b r))
       = ((if ok (digit_value a) (digit_value b)
           then [(10 * digit_value a + digit_value b, r)] else []) ++ tl)%list
       /\ forall c, In c tl -> snd c = String b r).

(** *** The markup a message stands for *)

(** A segment written back in the markup of the content field. *)
Definition markup_of_segment (seg : MessageSegment) : string :=
  match seg with
  | text s => s
  | at_ _ => at_all_tag
  | image url => (image_open ++ url ++ image_close)%string
  | cq _ _ => EmptyString
  end.

Fixpoint markup_of (m : Message) : string :=
  match m with
  | [] => EmptyString
  | seg :: m' => (markup_of_segment seg ++ markup_of m')%string
  end.

(** The segments [parse_content_to_message] builds: a text that is not
    empty, the mention of all, an image whose address holds no newline. *)
Definition parsed_segment (seg : MessageSegment) : bool :=
  match seg with
  | text s => negb (String.eqb s EmptyString)
  | at_ qq => String.eqb qq "all"
  | image url => no_newline url
  | cq _ _ => false
  end.

(** No closing bracket in [s]. *)
Fixpoint no_closing_bracket (s : string) : bool :=
  match s with
  | EmptyString => true
  | String c s' => negb (Ascii.eqb c "]"%char) && no_closing_bracket s'
  end.

(** The text of a command with the four fields given, and what follows. *)
Definition command_text (f1 f2 f3 f4 rest : string) : string :=
  ("[" ++ f1 ++ "][" ++ f2 ++ "][" ++ f3 ++ "][" ++ f4 ++ "]" ++ rest)%string.

(** *** What a computation keeps *)

(** Every run of [m] takes a world to one that [R] relates to it. *)
Definition keeps (R : World -> World -> Prop) {A} (m : M A) : Prop :=
  forall w, R w (snd (m w)).

(** The queue file and the registrations are as they were. *)
Definition unchanged (w w' : World) : Prop :=
  queue_file w' = queue_file w /\ scheduler_jobs w' = scheduler_jobs w.

(** The commands that write: a scheduling, that is sendmessage or
    forwardmessage with a timestamp of digits other than 0, and a
    cancellation with the timestamp -1. *)
Definition writes (command_type timestamp_str : string) : bool :=
  ((String.eqb command_type "sendmessage"
    || String.eqb command_type "forwardmessage")
   && negb (String.eqb timestamp_str "0") && isdigit timestamp_str)
  || (String.eqb command_type "cancelmessage"
      && String.eqb timestamp_str "-1").

Definition store_command (event : Event) : bool :=
  match accepted event with
  | Some (command_type, timestamp_str, _, _) => writes command_type timestamp_str
  | None => false
  end.

(** The groups a command may name: none, written 0, or a receiver. *)
Definition receiver_or_zero (g : Z) : Prop :=
  g = 0 \/ In g (receiver_groups config).

Definition to_receivers (a : action) : Prop :=
  match a with
  | send_group_msg g _ => receiver_or_zero g
  | _ => True
  end.

(** The calls of [w'] are those of [w] followed by calls that deliver to
    receivers only. *)
Definition delivers_to_receivers (w w' : World) : Prop :=
  exists later, calls w' = (calls w ++ later)%list /\ Forall to_receivers later.

(** A job as the handler registers it: its arguments are the kind, the
    content, a group that a command may name, and its own identifier. *)
Definition handler_job (j : job) : Prop :=
  exists kind content g,
    job_args j = (JStr kind, JStr content, JInt g, job_id j) /\
    receiver_or_zero g.

Definition registers_handler_jobs (w w' : World) : Prop :=
  forall j, In j (scheduler_jobs w') -> In j (scheduler_jobs w) \/ handler_job j.

(** Every job the scheduler holds has its record in the queue file. *)
Definition registered_are_stored (w : World) : Prop :=
  forall id, has_job id (scheduler_jobs w) = true ->
             dict_mem id (stored (queue_file w)) = true.

(** [j] is the registration due, at the time of [w], to a record that the
    queue file of [w] holds under the identifier of [j]. *)
Definition reloaded_from (w : World) (j : job) : Prop :=
  exists info,
    In (job_id j, info) (stored (queue_file w)) /\
    registration (now w) (job_id j, info) = [j].

(** *** The listing *)

(** What the listing reads from a record: the time its timestamp stands
    for, its content, and its target group. *)
Definition listed_job (info : json) : option (datetime * string * json) :=
  match info with
  | JObj d =>
      match dict_get "timestamp" d, dict_get "content" d,
            dict_get "target_group" d with
      | Some (JStr stamp), Some (JStr content), Some target_group =>
          match fromisoformat P stamp with
          | inr t => Some (t, content, target_group)
          | inl _ => None
          end
      | _, _, _ => None
      end
  | _ => None
  end.

(** The search the content field asks for: none when it is empty, that
    of the pattern when it compiles. *)
Definition content_filter (content : string) : option (string -> bool) :=
  if String.eqb content EmptyString then Some (fun _ => true)
  else match re_compile P content with
       | inr found => Some found
       | inl _ => None
       end.

(** A time field that is a timestamp selects the jobs of that time; any
    other selects them all. *)
Definition time_selected (timestamp_str : string) (info : json) : bool :=
  match requested_time timestamp_str with
  | Some wanted =>
      match listed_job info with
      | Some (t, _, _) => datetime_eq t wanted
      | None => false
      end
  | None => true
  end.

Definition content_selected (found : string -> bool) (info : json) : bool :=
  match listed_job info with
  | Some (_, content, _) => found content
  | None => false
  end.

(** A group field made of digits selects the jobs for that group; any
    other selects them all. *)
Definition group_selected (target_group_str : string) (info : json) : bool :=
  if isdigit target_group_str then
    match listed_job info with
    | Some (_, _, target_group) =>
        eq_int target_group (int_of_digits target_group_str)
    | None => false
    end
  else true.

Definition selected (timestamp_str : string) (found : string -> bool)
    (target_group_str : string) (entry : string * json) : bool :=
  time_selected timestamp_str (snd entry)
  && (content_selected found (snd entry)
      && group_selected target_group_str (snd entry)).

(** The four lines of a job in the reply. *)
Definition task_lines (entry : string * json) : string :=
  match listed_job (snd entry) with
  | Some (t, content, target_group) =>
      "  - JobID: " ++ fst entry ++ String newline
      ("    Time: " ++ strftime P t ++ String newline
      ("    Group: " ++ format_value target_group ++ String newline
      ("    Content: `" ++ remove_char "`"%char (take 30 content) ++ "...`"
       ++ String newline EmptyString)))
  | None => EmptyString
  end.

Fixpoint lines_of (entries : dict json) : string :=
  match entries with
  | [] => EmptyString
  | entry :: rest => task_lines entry ++ lines_of rest
  end.

(** The reply to a listing that selects [entries]. *)
Definition listing_reply (entries : dict json) : string :=
  match entries with
  | [] => "No scheduled tasks match your criteria."
  | _ => "Scheduled Tasks:" ++ String newline (lines_of entries)
  end.

(** *** Immediate commands and recalls *)

(** What an immediate command delivers: the parsed content for
    sendmessage, the message replied to for forwardmessage. *)
Definition immediate_payload (event : Event) (command_type content : string)
  : option payload :=
  if String.eqb command_type "sendmessage"
  then Some (of_message (parse_content_to_message content))
  else if String.eqb command_type "forwardmessage"
  then match reply event with
       | Some r => Some (of_message (reply_message r))
       | None => None
       end
  else None.

Definition is_reply (a : action) : Prop :=
  match a with
  | matcher_send _ => True
  | _ => False
  end.

(** The event as it would be without the message it replies to. *)
Definition without_reply (event : Event) : Event :=
  {| group_id := group_id event; user_id := user_id event;
     plaintext := plaintext event; reply := None |}.

(** *** The configuration file (lines 81-124) *)

(** The file as [ConfigParser] presents it once read: the sections by
    name, and in a section the values that [get] returns by option
    name. *)
Definition ini : Type := dict (dict string).

(** [section.get(name, "")] *)
Definition option_of (section : dict string) (name : string) : string :=
  match dict_get name section with
  | Some value => value
  | None => EmptyString
  end.

(** The file that lines 92-98 write when there is none. *)
Definition default_ini : ini :=
  [("bdsmm_Groups", [("admin_groups", EmptyString);
                     ("receiver_groups", EmptyString)]);
   ("bdsmm_Admins", [("admin", EmptyString)])].

(** [s.split(",")] *)
Fixpoint split_comma (s : string) : list string :=
  match s with
  | EmptyString => [EmptyString]
  | String c s' =>
      if Ascii.eqb c ","%char then EmptyString :: split_comma s'
      else match split_comma s' with
           | part :: parts => String c part :: parts
           | [] => [String c EmptyString]
           end
  end.

Section Loading.

(** [int(s)] on a stripped text that is not empty: the number read, or
    the [ValueError] raised. *)
Variable int_of_str : string -> exn + Z.

(** [[int(g.strip()) for g in parts if g.strip()]] *)
Fixpoint int_items (parts : list string) : exn + list Z :=
  match parts with
  | [] => inr []
  | g :: rest =>
      if String.eqb (strip g) EmptyString then int_items rest
      else
        match int_of_str (strip g) with
        | inl e => inl e
        | inr n =>
            match int_items rest with
            | inl e => inl e
            | inr ns => inr (n :: ns)
            end
        end
  end.

(** Lines 104-108, 110-114 and 118-122: the list of an option. *)
Definition parse_id_list (s : string) : exn + list Z :=
  if String.eqb s EmptyString then inr [] else int_items (split_comma s).

(** [Config._load_config]: the configuration, or the exception that
    leaves the constructor, and the file afterwards. *)
Definition _load_config (file : option ini) : (exn + Config) * option ini :=
  match file with
  | None =>
      (inr {| admin_groups := []; receiver_groups := []; admins := [] |},
       Some default_ini)
  | Some config =>
      (match
         match dict_get "bdsmm_Groups" config with
         | Some groups =>
             match parse_id_list (option_of groups "admin_groups") with
             | inl e => inl e
             | inr admin_groups =>
                 match parse_id_list (option_of groups "receiver_groups") with
                 | inl e => inl e
                 | inr receiver_groups => inr (admin_groups, receiver_groups)
                 end
             end
         | None => inr ([], [])
         end
       with
       | inl e => inl e
       | inr (admin_groups, receiver_groups) =>
           match
             match dict_get "bdsmm_Admins" config with
             | Some section => parse_id_list (option_of section "admin")
             | None => inr []
             end
           with
           | inl e => inl e
           | inr admins =>
               inr {| admin_groups := admin_groups;
                      receiver_groups := receiver_groups;
                      admins := admins |}
           end
       end,
       file)
  end.

End Loading.

(** Items written one after the other with commas between them. *)
Fixpoint join_comma (items : list string) : string :=
  match items with
  | [] => EmptyString
  | item :: rest =>
      match rest with
      | [] => item
      | _ => item ++ String ","%char (join_comma rest)
      end
  end.

Fixpoint no_comma (s : string) : bool :=
  match s with
  | EmptyString => true
  | String c s' => negb (Ascii.eqb c ","%char) && no_comma s'
  end.

(** An item of an option and what is read from it: nothing from a blank
    item, the number that [int] makes of any other, once stripped. *)
Definition reads (int_of_str : string -> exn + Z) (item : string)
    (reading : option Z) : Prop :=
  no_comma item = true /\
  match reading with
  | None => strip item = EmptyString
  | Some n => strip item <> EmptyString /\ int_of_str (strip item) = inr n
  end.

Definition readings_list (readings : list (option Z)) : list Z :=
  flat_map (fun r => match r with Some n => [n] | None => [] end) readings.

(** The value of the admin option, empty when the file, the section or
    the option is missing. *)
Definition admin_option (file : option ini) : string :=
  match file with
  | Some config =>
      match dict_get "bdsmm_Admins" config with
      | Some section => option_of section "admin"
      | None => EmptyString
      end
  | None => EmptyString
  end.

(** Every item between the commas of [s] is blank. *)
Definition blank_items (s : string) : bool :=
  forallb (fun g => String.eqb (strip g) EmptyString) (split_comma s).

(** The world after [remove_from_queue]. *)
Definition removed (job_id : string) (w : World) : World :=
  if unusable (queue_file w) then w
  else if dict_mem job_id (stored (queue_file w))
  then with_queue_file
         (Some (Document (JObj (dict_del job_id (stored (queue_file w)))))) w
  else w.

(** * Properties *)

(** ** The content markup parser *)

Example parse_A_at_all_B :
  parse_content_to_message "A{at_all}B" = [text "A"; at_ "all"; text "B"].
Proof. reflexivity. Qed.

Example parse_image :
  parse_content_to_message (image_open ++ "http://x/y.png" ++ image_close)
  = [image "http://x/y.png"].
Proof. reflexivity. Qed.

Example parse_escaped :
  parse_content_to_message "a\nb" = [text (String "a" (String newline "b"))].
Proof. reflexivity. Qed.

Lemma replace_escaped_head c r s :
  Ascii.eqb c newline = false ->
  replace_escaped_newlines s = String c r ->
  exists s', s = String c s' /\ r = replace_escaped_newlines s'.
Proof.
  intros Hc. destruct s as [|a [|b s]]; cbn [replace_escaped_newlines].
  - discriminate.
  - intros [= -> <-]. exists EmptyString; split; reflexivity.
  - destruct (Ascii.eqb a backslash && Ascii.eqb b "n")%bool.
    + intros [= <- _]. discriminate.
    + intros [= -> <-]. eexists; split; reflexivity.
Qed.

Lemma strip_prefix_replace p : no_newline p = true ->
  forall s r, strip_prefix p (replace_escaped_newlines s) = Some r ->
  exists s', strip_prefix p s = Some s' /\ r = replace_escaped_newlines s'.
Proof.
  induction p as [|a p IH]; intros Hp s r; cbn [strip_prefix].
  - intros [= <-]. exists s; split; reflexivity.
  - cbn [no_newline] in Hp. apply andb_true_iff in Hp as [Ha Hp].
    apply negb_true_iff in Ha.
    destruct (replace_escaped_newlines s) as [|b t] eqn:E; [discriminate|].
    destruct (Ascii.eqb a b) eqn:Eab; [|discriminate].
    apply Ascii.eqb_eq in Eab; subst b.
    destruct (replace_escaped_head _ Ha E) as (s0 & -> & ->).
    intros H. destruct (IH Hp _ _ H) as (s' & Hs' & ->).
    exists s'. rewrite Ascii.eqb_refl. split; [assumption|reflexivity].
Qed.

Lemma lazy_url_replace s :
  lazy_url (replace_escaped_newlines s) <> None -> lazy_url s <> None.
Proof.
  induction s as [|c s IH].
  - simpl. congruence.
  - intros H.
    destruct (strip_prefix image_close (replace_escaped_newlines (String c s)))
      as [r|] eqn:E.
    + apply (strip_prefix_replace image_close eq_refl) in E as (s' & E & _).
      cbn [lazy_url]. rewrite E. discriminate.
    + destruct (replace_escaped_newlines (String c s)) as [|b t] eqn:Er.
      * simpl in H. congruence.
      * cbn [lazy_url] in H. rewrite E in H.
        destruct (Ascii.eqb b newline) eqn:Eb; [congruence|].
        destruct (replace_escaped_head _ Eb Er) as (s0 & [= <- <-] & ->).
        cbn [lazy_url].
        destruct (strip_prefix image_close (String c s)); [discriminate|].
        rewrite Eb.
        destruct (lazy_url (replace_escaped_newlines s)) as [[u r]|];
          [|congruence].
        destruct (lazy_url s) as [[u' r']|] eqn:E'; [discriminate|].
        exfalso; apply IH; [discriminate|reflexivity].
Qed.

Lemma match_tag_replace s :
  match_tag (replace_escaped_newlines s) <> None -> match_tag s <> None.
Proof.
  unfold match_tag, match_image.
  destruct (strip_prefix at_all_tag (replace_escaped_newlines s)) as [r|] eqn:E.
  - apply (strip_prefix_replace at_all_tag eq_refl) in E as (s' & -> & _).
    discriminate.
  - destruct (strip_prefix at_all_tag s); [discriminate|].
    destruct (strip_prefix image_open (replace_escaped_newlines s))
      as [r|] eqn:E'; [|congruence].
    apply (strip_prefix_replace image_open eq_refl) in E' as (s' & -> & ->).
    intros H.
    assert (lazy_url s' <> None) as H'.
    { apply lazy_url_replace.
      destruct (lazy_url (replace_escaped_newlines s')) as [[? ?]|];
        congruence. }
    destruct (lazy_url s') as [[? ?]|]; congruence.
Qed.

Lemma has_tag_tail c s : has_tag s = true -> has_tag (String c s) = true.
Proof.
  intros H. cbn [has_tag]. destruct (match_tag (String c s)); auto.
Qed.

Lemma has_tag_replace_bounded n : forall s, (String.length s <= n)%nat ->
  has_tag (replace_escaped_newlines s) = true -> has_tag s = true.
Proof.
  induction n as [|n IH]; intros s Hn.
  - destruct s; [simpl; congruence|simpl in Hn; lia].
  - destruct s as [|a s]; [simpl; congruence|].
    intros H.
    destruct (match_tag (String a s)) as [p|] eqn:Em.
    { cbn [has_tag]. rewrite Em. reflexivity. }
    pose proof (@match_tag_replace (String a s)) as Hm.
    destruct (match_tag (replace_escaped_newlines (String a s))) as [p|] eqn:Er.
    { exfalso. apply Hm; [discriminate|assumption]. }
    clear Hm. apply has_tag_tail.
    destruct s as [|b s].
    + cbn [replace_escaped_newlines has_tag] in H. rewrite Em in H. exact H.
    + cbn [replace_escaped_newlines] in H, Er.
      destruct (Ascii.eqb a backslash && Ascii.eqb b "n")%bool.
      * cbn [has_tag] in H. rewrite Er in H.
        apply has_tag_tail. apply IH; [simpl in Hn |- *; lia|assumption].
      * cbn [has_tag] in H. rewrite Er in H.
        apply IH; [simpl in Hn |- *; lia|assumption].
Qed.

Lemma has_tag_replace s :
  has_tag s = false -> has_tag (replace_escaped_newlines s) = false.
Proof.
  intros H. destruct (has_tag (replace_escaped_newlines s)) eqn:E; auto.
  rewrite (has_tag_replace_bounded s (le_n _) E) in H. discriminate.
Qed.

Lemma string_app_assoc (a b c : string) : ((a ++ b) ++ c = a ++ (b ++ c))%string.
Proof. induction a; simpl; congruence. Qed.

Lemma string_app_nil_r (a : string) : (a ++ EmptyString)%string = a.
Proof. induction a; simpl; congruence. Qed.

Lemma re_split_from_no_tag s : forall cur,
  has_tag s = false -> re_split_from cur s = [(cur ++ s)%string].
Proof.
  induction s as [|c s IH]; intros cur H; cbn [has_tag] in H.
  - simp re_split_from. cbn. rewrite string_app_nil_r. reflexivity.
  - destruct (match_tag (String c s)) as [p|] eqn:Em; [discriminate|].
    simp re_split_from.
    destruct (inspect (match_tag (String c s))) as [[[t r]|] E]; [congruence|].
    simp re_split_from. rewrite <- re_split_from_equation_1.
    rewrite (IH _ H), string_app_assoc. reflexivity.
Qed.

Lemma segment_of_part_no_tag p :
  p <> EmptyString -> has_tag p = false -> segment_of_part p = [text p].
Proof.
  intros Hp H. unfold segment_of_part.
  destruct (String.eqb_spec p EmptyString) as [->|_]; [congruence|].
  destruct (String.eqb_spec p at_all_tag) as [->|_]; [discriminate|].
  destruct p as [|c p]; [congruence|]. cbn [has_tag] in H.
  unfold match_tag in H.
  destruct (strip_prefix at_all_tag (String c p)); [discriminate|].
  destruct (match_image (String c p)) as [[u r]|]; [discriminate|reflexivity].
Qed.

Lemma replace_escaped_nonempty s :
  s <> EmptyString -> replace_escaped_newlines s <> EmptyString.
Proof.
  destruct s as [|a [|b s]]; cbn [replace_escaped_newlines];
    [congruence|discriminate|].
  destruct (Ascii.eqb a backslash && Ascii.eqb b "n")%bool; discriminate.
Qed.

(** C5 (as amended): a non-empty content in which no tag occurs is parsed
    to exactly one Text segment, the content with every escaped newline
    replaced by a newline character. *)
Theorem parse_content_plain_text (content : string) :
  content <> EmptyString ->
  has_tag content = false ->
  parse_content_to_message content
  = [text (replace_escaped_newlines content)].
Proof.
  intros Hne Htag. unfold parse_content_to_message, re_split.
  rewrite re_split_from_no_tag by (apply has_tag_replace; assumption).
  cbn [flat_map append]. rewrite app_nil_r.
  apply segment_of_part_no_tag.
  - apply replace_escaped_nonempty; assumption.
  - apply has_tag_replace; assumption.
Qed.

(** ** Dictionaries and loaded documents *)

Lemma dict_mem_In (V : Type) k (d : dict V) :
  dict_mem k d = true <-> In k (keys d).
Proof.
  unfold dict_mem. induction d as [|[k' v] d IH]; simpl.
  - split; [discriminate|tauto].
  - destruct (String.eqb_spec k k') as [->|Hne].
    + split; auto.
    + rewrite IH. split; [auto|]. intros [H|H]; [congruence|assumption].
Qed.

Lemma dict_get_not_In (V : Type) k (d : dict V) :
  ~ In k (keys d) -> dict_get k d = None.
Proof.
  intros H. destruct (dict_get k d) eqn:E; [|reflexivity].
  exfalso. apply H, dict_mem_In. unfold dict_mem. rewrite E. reflexivity.
Qed.

Lemma dict_set_fresh (V : Type) k (v : V) d :
  ~ In k (keys d) -> dict_set k v d = (d ++ [(k, v)])%list.
Proof.
  induction d as [|[k' v'] d IH]; simpl; intros H; [reflexivity|].
  destruct (String.eqb_spec k k') as [->|_]; [tauto|].
  rewrite IH by tauto. reflexivity.
Qed.

Lemma keys_dict_set (V : Type) k (v : V) d x :
  In x (keys (dict_set k v d)) <-> x = k \/ In x (keys d).
Proof.
  induction d as [|[k' v'] d IH]; simpl.
  - intuition congruence.
  - destruct (String.eqb_spec k k') as [->|Hne]; simpl.
    + intuition congruence.
    + rewrite IH. intuition congruence.
Qed.

Lemma NoDup_dict_set (V : Type) k (v : V) d :
  NoDup (keys d) -> NoDup (keys (dict_set k v d)).
Proof.
  induction d as [|[k' v'] d IH]; simpl; intros H.
  - constructor; [tauto|constructor].
  - inversion H as [|? ? Hk' Hd]; subst.
    destruct (String.eqb_spec k k') as [->|Hne]; simpl.
    + constructor; assumption.
    + constructor; [|auto].
      rewrite keys_dict_set. intros [?|?]; [congruence|tauto].
Qed.

Lemma dict_get_set (V : Type) k (v : V) d :
  dict_get k (dict_set k v d) = Some v.
Proof.
  induction d as [|[k' v'] d IH]; simpl.
  - rewrite String.eqb_refl. reflexivity.
  - destruct (String.eqb_spec k k') as [->|Hne]; simpl.
    + rewrite String.eqb_refl. reflexivity.
    + destruct (String.eqb_spec k k'); [congruence|assumption].
Qed.

Lemma keys_dict_del (V : Type) k (d : dict V) x :
  In x (keys (dict_del k d)) -> In x (keys d).
Proof.
  induction d as [|[k' v'] d IH]; simpl; [tauto|].
  destruct (String.eqb_spec k k') as [->|Hne]; simpl; tauto.
Qed.

Lemma dict_del_removes (V : Type) k (d : dict V) :
  NoDup (keys d) -> ~ In k (keys (dict_del k d)).
Proof.
  induction d as [|[k' v'] d IH]; simpl; intros H; [tauto|].
  inversion H as [|? ? Hk' Hd]; subst.
  destruct (String.eqb_spec k k') as [->|Hne]; simpl; [assumption|].
  intros [?|?]; [congruence|]. apply IH; assumption.
Qed.

Lemma json_load_object ms :
  json_load (JObj ms) = JObj (fold_left add_member ms []).
Proof. reflexivity. Qed.

Lemma NoDup_members ms : forall acc,
  NoDup (keys acc) -> NoDup (keys (fold_left add_member ms acc)).
Proof.
  induction ms as [|m ms IH]; intros acc H; simpl; [assumption|].
  apply IH, NoDup_dict_set, H.
Qed.

Lemma keys_members ms : forall acc x,
  In x (keys (fold_left add_member ms acc)) ->
  In x (keys acc) \/ In x (map fst ms).
Proof.
  induction ms as [|m ms IH]; intros acc x; simpl; [tauto|].
  intros H. apply IH in H as [H|H]; [|tauto].
  unfold add_member in H. apply keys_dict_set in H as [->|H]; auto.
Qed.

Lemma members_fresh ms : forall acc,
  NoDup (map fst ms) ->
  (forall x, In x (map fst ms) -> ~ In x (keys acc)) ->
  fold_left add_member ms acc
  = (acc ++ map (fun m => (fst m, json_load (snd m))) ms)%list.
Proof.
  induction ms as [|m ms IH]; intros acc Hms Hacc; simpl.
  - rewrite app_nil_r. reflexivity.
  - inversion Hms as [|? ? Hm Hms']; subst.
    unfold add_member at 2. rewrite dict_set_fresh by (apply Hacc; simpl; auto).
    rewrite IH.
    + rewrite <- app_assoc. reflexivity.
    + assumption.
    + intros x Hx. unfold keys. rewrite map_app, in_app_iff. simpl.
      intros [H|[H|[]]].
      * apply (Hacc x); simpl; auto.
      * congruence.
Qed.

Lemma dict_get_loaded k (d : dict json) :
  dict_get k (map (fun m => (fst m, json_load (snd m))) d)
  = option_map json_load (dict_get k d).
Proof.
  induction d as [|[k' v] d IH]; simpl; [reflexivity|].
  destruct (String.eqb k k'); [reflexivity|assumption].
Qed.

(** What [json.load] makes of an object is a dictionary. *)
Lemma loaded_NoDup j d : json_load j = JObj d -> NoDup (keys d).
Proof.
  destruct j; simpl; try discriminate.
  intros [= <-]. apply NoDup_members. constructor.
Qed.

(** ** The queue file *)

Lemma with_queue_file_same w : with_queue_file (queue_file w) w = w.
Proof. destruct w; reflexivity. Qed.

Lemma stored_NoDup f : NoDup (keys (stored f)).
Proof.
  destruct f as [[raw|raw|j]|]; simpl; try constructor.
  destruct (json_load j) eqn:E; try constructor.
  eapply loaded_NoDup; eassumption.
Qed.

Lemma read_failure_text f : not_text f = false -> read_failure f = None.
Proof. destruct f as [[raw|raw|j]|]; [discriminate|reflexivity..]. Qed.

Lemma read_failure_not_text f e : read_failure f = Some e -> not_text f = true.
Proof. destruct f as [[raw|raw|j]|]; try discriminate. reflexivity. Qed.

Lemma read_failure_stored f e : read_failure f = Some e -> stored f = [].
Proof. destruct f as [[raw|raw|j]|]; try discriminate. reflexivity. Qed.

Lemma read_failure_usable f e : read_failure f = Some e -> unusable f = false.
Proof. destruct f as [[raw|raw|j]|]; try discriminate. reflexivity. Qed.

Lemma read_queue_run w :
  read_queue w
  = match read_failure (queue_file w) with
    | Some e => (Raise e, w)
    | None => (Return (stored (queue_file w)), w)
    end.
Proof.
  unfold read_queue, bind, file_exists, get, try_except, json_load_file, ret,
    stored, read_failure.
  destruct w as [[[raw|raw|j]|] js cs t b]; reflexivity.
Qed.

Lemma save_to_queue_run job_id info w :
  save_to_queue job_id info w
  = match read_failure (queue_file w) with
    | Some e => (Raise e, w)
    | None =>
        (Return tt,
         with_queue_file
           (Some (Document (JObj (dict_set job_id info
                                           (stored (queue_file w)))))) w)
    end.
Proof.
  unfold save_to_queue, bind. rewrite read_queue_run.
  destruct (read_failure (queue_file w)); reflexivity.
Qed.

Lemma remove_from_queue_run job_id w :
  remove_from_queue job_id w
  = match read_failure (queue_file w) with
    | Some e => (Raise e, w)
    | None => (Return tt, removed job_id w)
    end.
Proof.
  unfold remove_from_queue, bind, file_exists, get, try_except, json_load_file,
    ret, removed, stored, unusable, json_dump_file, read_failure.
  destruct w as [[[raw|raw|j]|] js cs t b]; simpl; try reflexivity.
  destruct (json_load j) as [| | | | |d]; simpl; try reflexivity.
  destruct (dict_mem job_id d); reflexivity.
Qed.

Lemma remove_from_queue_world job_id w :
  snd (remove_from_queue job_id w) = removed job_id w.
Proof.
  rewrite remove_from_queue_run.
  destruct (read_failure (queue_file w)) as [e|] eqn:E; [|reflexivity].
  unfold removed. rewrite (read_failure_stored _ E), (read_failure_usable _ E).
  reflexivity.
Qed.

Lemma stored_written (d : dict json) :
  NoDup (keys d) ->
  stored (Some (Document (JObj d)))
  = map (fun m => (fst m, json_load (snd m))) d.
Proof.
  intros H. unfold stored. rewrite json_load_object.
  rewrite members_fresh; [reflexivity|exact H|].
  intros x _ [].
Qed.

Lemma keys_loaded (d : dict json) :
  keys (map (fun m => (fst m, json_load (snd m))) d) = keys d.
Proof. unfold keys. rewrite map_map. reflexivity. Qed.

Lemma removed_text job_id w :
  read_failure (queue_file w) = None ->
  read_failure (queue_file (removed job_id w)) = None.
Proof.
  intros H. unfold removed. destruct (unusable (queue_file w)); [exact H|].
  destruct (dict_mem job_id (stored (queue_file w))); [reflexivity|exact H].
Qed.

Lemma removed_idempotent job_id w :
  removed job_id (removed job_id w) = removed job_id w.
Proof.
  unfold removed at 2 3.
  destruct (unusable (queue_file w)) eqn:Hu.
  { unfold removed. rewrite Hu. reflexivity. }
  destruct (dict_mem job_id (stored (queue_file w))) eqn:Hm.
  - unfold removed.
    cbn [queue_file with_queue_file unusable json_load is_dict negb].
    rewrite stored_written.
    + replace (dict_mem job_id _) with false; [reflexivity|].
      symmetry. apply not_true_is_false. rewrite dict_mem_In, keys_loaded.
      apply dict_del_removes, stored_NoDup.
    + pose proof (stored_NoDup (queue_file w)) as Hnd.
      revert Hnd. generalize (stored (queue_file w)). clear.
      induction d as [|[k v] d IH]; simpl; intros H; [constructor|].
      inversion H as [|? ? Hk Hd]; subst.
      destruct (String.eqb job_id k); [assumption|].
      simpl. constructor; [|auto].
      intros Hin. apply Hk. eapply keys_dict_del. exact Hin.
  - unfold removed. rewrite Hu, Hm. reflexivity.
Qed.



(** ** execute_scheduled_task *)

Lemma with_calls_with_calls cs cs' w :
  with_calls cs' (with_calls cs w) = with_calls cs' w.
Proof. reflexivity. Qed.

Lemma confirm_to_run confirmation admin_group w :
  confirm_to confirmation admin_group w
  = (Return tt,
     with_calls (calls w ++ [send_group_msg admin_group (of_str confirmation)]) w).
Proof.
  unfold confirm_to, try_except, bind, call, ret.
  destruct (transport (calls w) _); reflexivity.
Qed.

Lemma confirmations_run confirmation groups : forall w,
  for_each groups (confirm_to confirmation) w
  = (Return tt,
     with_calls
       (calls w ++ map (fun g => send_group_msg g (of_str confirmation)) groups)
       w).
Proof.
  induction groups as [|g groups IH]; intros w; cbn [for_each map].
  - unfold ret. rewrite app_nil_r. destruct w; reflexivity.
  - unfold bind. rewrite confirm_to_run, IH.
    cbn [calls with_calls]. rewrite <- app_assoc. reflexivity.
Qed.

Lemma remove_from_queue_fields job_id w :
  let w' := snd (remove_from_queue job_id w) in
  scheduler_jobs w' = scheduler_jobs w /\ calls w' = calls w /\
  now w' = now w /\ bot_connected w' = bot_connected w.
Proof.
  cbv zeta. rewrite remove_from_queue_world. unfold removed.
  destruct (unusable (queue_file w)); [repeat split|].
  destruct (dict_mem job_id (stored (queue_file w))); repeat split.
Qed.

Lemma remove_from_queue_frame job_id cs w :
  snd (remove_from_queue job_id (with_calls cs w))
  = with_calls cs (snd (remove_from_queue job_id w)).
Proof.
  rewrite !remove_from_queue_world. unfold removed.
  cbn [queue_file with_calls].
  destruct (unusable (queue_file w)); [reflexivity|].
  destruct (dict_mem job_id (stored (queue_file w))); reflexivity.
Qed.

(** A block whose every exception is caught and dropped. *)
Lemma try_except_pass (m : M unit) w :
  try_except m (fun _ => ret tt) w = (Return tt, snd (m w)).
Proof. unfold try_except. destruct (m w) as [[[]|e] w1]; reflexivity. Qed.

(** C1 (as amended): the callback always returns and never touches the
    registrations of the scheduler.  With no bot connected it does nothing.
    With nothing to deliver it removes the job from the queue file.  When
    the delivery raises, the delivery is the only call made and the queue
    file is left as it was.  When the delivery returns, every admin group
    is sent the confirmation, whatever becomes of each, and the job is
    removed from the queue file, once. *)
Theorem execute_scheduled_task_store
    (command_type content : string) (target_group : Z) (job_id : string)
    (w : World) :
  exists w',
    execute_scheduled_task command_type content target_group job_id w
    = (Return tt, w') /\
    scheduler_jobs w' = scheduler_jobs w /\
    if negb (bot_connected w) then w' = w
    else
      match deliverable command_type content with
      | None => w' = snd (remove_from_queue job_id w)
      | Some message =>
          let delivery := send_group_msg target_group (of_message message) in
          match transport (calls w) delivery with
          | inl _ => w' = with_calls (calls w ++ [delivery]) w
          | inr message_id =>
              w' = with_calls
                     (calls w ++ delivery ::
                        map (fun g => send_group_msg g
                               (of_str (confirmation_message target_group message_id)))
                            (admin_groups config))
                     (snd (remove_from_queue job_id w))
          end
      end.
Proof.
  unfold execute_scheduled_task, deliverable, bind at 1, get.
  destruct (bot_connected w) eqn:Hb; cbn [negb].
  { rewrite try_except_pass. unfold bind.
    destruct (message_to_send command_type content) as [message|].
    - destruct (truthy_message message).
      + unfold call at 1.
        destruct (transport (calls w) _) as [e|message_id].
        * eexists; split; [reflexivity|]. split; reflexivity.
        * rewrite confirmations_run.
          cbn [calls with_calls]. rewrite !remove_from_queue_frame.
          rewrite with_calls_with_calls.
          eexists; split; [reflexivity|].
          rewrite <- app_assoc. split; [|reflexivity].
          cbn [scheduler_jobs with_calls].
          apply remove_from_queue_fields.
      + unfold ret at 1.
        eexists; split; [reflexivity|]. split; [|reflexivity].
        apply remove_from_queue_fields.
    - unfold ret at 1.
      eexists; split; [reflexivity|]. split; [|reflexivity].
      apply remove_from_queue_fields. }
  eexists; split; [reflexivity|]. split; reflexivity.
Qed.

(** ** handle_message: reaching the delegation *)

Lemma handle_message_accepted event command_type timestamp_str content
    target_group_str :
  accepted event
  = Some (command_type, timestamp_str, content, target_group_str) ->
  handle_message event
  = delegate event command_type timestamp_str content target_group_str
             (target_group_of target_group_str).
Proof.
  unfold accepted, handle_message.
  destruct (negb (existsb _ (admin_groups config))); [discriminate|].
  destruct (negb (is_admin (user_id event))); [discriminate|].
  cbv zeta.
  destruct (String.eqb (lower (strip (plaintext event))) "message");
    [discriminate|].
  destruct (command_fields (strip (plaintext event)))
    as [[[[ct ts] c] tg]|]; [|discriminate].
  destruct (negb (isdigit tg) && negb (String.eqb ct "schedulemessage"));
    [discriminate|].
  destruct (negb (target_group_of tg =? 0)
            && negb (existsb (Z.eqb (target_group_of tg))
                             (receiver_groups config)));
    [discriminate|].
  intros [= -> -> -> ->]. reflexivity.
Qed.

Lemma send_run message w :
  send message w
  = (match transport (calls w) (matcher_send message) with
     | inr _ => Return tt
     | inl e => Raise e
     end,
     with_calls (calls w ++ [matcher_send message]) w).
Proof.
  unfold send, bind, call, ret.
  destruct (transport (calls w) (matcher_send message)); reflexivity.
Qed.

(** ** Cancelling *)

Lemma remove_from_queue_file job_id w w0 :
  queue_file w0 = queue_file w ->
  queue_file (snd (remove_from_queue job_id w0))
  = queue_file (snd (remove_from_queue job_id w)).
Proof.
  intros H. rewrite !remove_from_queue_world. unfold removed. rewrite H.
  destruct (unusable (queue_file w)); [assumption|].
  destruct (dict_mem job_id (stored (queue_file w))); [reflexivity|assumption].
Qed.

Lemma do_cancelmessage_run job w :
  do_cancelmessage "-1" job w
  = if has_job job (scheduler_jobs w)
    then
      let remaining :=
        filter (fun j => negb (String.eqb (job_id j) job)) (scheduler_jobs w) in
      match read_failure (queue_file w) with
      | Some e =>
          send ("Failed to cancel job " ++ job ++ ": " ++ exn_text e)
               (with_scheduler_jobs remaining w)
      | None =>
          let w1 := with_scheduler_jobs remaining
                                        (snd (remove_from_queue job w)) in
          let confirmed :=
            matcher_send ("Scheduled job " ++ job ++ " has been canceled.") in
          match transport (calls w) confirmed with
          | inr _ => (Return tt, with_calls (calls w ++ [confirmed]) w1)
          | inl e =>
              send ("Failed to cancel job " ++ job ++ ": " ++ exn_text e)
                   (with_calls (calls w ++ [confirmed]) w1)
          end
      end
    else send ("Failed to cancel job " ++ job ++ ": " ++ lookup_text P job) w.
Proof.
  unfold do_cancelmessage. cbn [String.eqb Ascii.eqb Bool.eqb negb].
  unfold try_except at 1, bind at 1, remove_job.
  destruct (has_job job (scheduler_jobs w)); [|reflexivity].
  unfold bind. rewrite !remove_from_queue_run. cbv zeta.
  cbn [queue_file with_scheduler_jobs].
  destruct (read_failure (queue_file w)) as [e|]; [reflexivity|].
  cbn [snd]. rewrite send_run. unfold removed.
  cbn [queue_file with_scheduler_jobs].
  destruct (unusable (queue_file w)).
  - cbn [calls with_scheduler_jobs].
    destruct (transport (calls w) _); reflexivity.
  - destruct (dict_mem job (stored (queue_file w)));
      cbn [calls with_scheduler_jobs with_queue_file];
      destruct (transport (calls w) _); reflexivity.
Qed.


(** ** Timestamps that are neither 0 nor digits *)

(** C10: a sendmessage command, and a forwardmessage command that has
    passed the reply check of line 439, whose timestamp field is a text
    of ASCII characters that is neither 0 nor made of digits, is passed
    over in silence: no call to the transport, no registration, no
    change of the queue file. *)
Theorem non_digit_timestamp_is_ignored (event : Event)
    (command_type timestamp content target : string) (w : World) :
  accepted event = Some (command_type, timestamp, content, target) ->
  command_type = "sendmessage"
  \/ (command_type = "forwardmessage" /\ reply event <> None) ->
  ascii_text timestamp = true ->
  timestamp <> "0" ->
  isdigit timestamp = false ->
  handle_message event w = (Return tt, w).
Proof.
  intros H Hkind _ H0 Hd. rewrite (handle_message_accepted _ H).
  apply String.eqb_neq in H0.
  destruct Hkind as [->|[-> Hr]]; unfold delegate;
    cbn [String.eqb Ascii.eqb Bool.eqb].
  - unfold do_sendmessage. rewrite H0, Hd. reflexivity.
  - unfold do_forwardmessage. destruct (reply event); [|congruence].
    rewrite H0, Hd. reflexivity.
Qed.

(** ** A queue file that cannot be used *)

Lemma stored_unusable f : unusable f = true -> stored f = [].
Proof.
  destruct f as [[raw|raw|j]|]; simpl; try reflexivity.
  destruct (json_load j); simpl; try reflexivity. discriminate.
Qed.

Lemma unusable_text f : unusable f = true -> read_failure f = None.
Proof. destruct f as [[raw|raw|j]|]; [discriminate|reflexivity..]. Qed.

Lemma on_startup_unusable w :
  unusable (queue_file w) = true -> on_startup w = (Return tt, w).
Proof.
  destruct w as [[[raw|raw|j]|] js cs t b]; simpl; intros H;
    try reflexivity; try discriminate.
  unfold on_startup, bind, file_exists, get, try_except, json_load_file.
  cbn [queue_file]. destruct (json_load j); try reflexivity. discriminate.
Qed.

Lemma on_startup_not_text w e :
  read_failure (queue_file w) = Some e -> on_startup w = (Raise e, w).
Proof.
  destruct w as [[[raw|raw|j]|] js cs t b]; cbn [queue_file read_failure];
    try discriminate.
  intros [= <-]. reflexivity.
Qed.

Lemma listing_not_text timestamp content target w e :
  read_failure (queue_file w) = Some e ->
  do_schedulemessage timestamp content target w = (Raise e, w).
Proof.
  destruct w as [[[raw|raw|j]|] js cs t b]; cbn [queue_file read_failure];
    try discriminate.
  intros [= <-]. reflexivity.
Qed.


(** ** Startup reconciliation *)

Lemma with_scheduler_jobs_same w : with_scheduler_jobs (scheduler_jobs w) w = w.
Proof. destruct w; reflexivity. Qed.

Lemma has_job_app id js js' :
  has_job id (js ++ js') = has_job id js || has_job id js'.
Proof. unfold has_job. apply existsb_app. Qed.

Lemma reload_job_run id info t kind content target_group w :
  stored_job info = Some (t, kind, content, target_group) ->
  has_job id (scheduler_jobs w) = false ->
  reload_job (id, info) w
  = (Return tt,
     with_scheduler_jobs (scheduler_jobs w ++ registration (now w) (id, info)) w).
Proof.
  unfold stored_job, registration. cbn [snd fst].
  destruct info as [| | | | |d]; try discriminate.
  unfold stored_job.
  destruct (dict_get "timestamp" d) as [[| | |stamp| |]|] eqn:E1; try discriminate.
  destruct (dict_get "type" d) as [k|] eqn:E2; [|discriminate].
  destruct (dict_get "content" d) as [c|] eqn:E3; [|discriminate].
  destruct (dict_get "target_group" d) as [g|] eqn:E4; [|discriminate].
  destruct (fromisoformat P stamp) as [e|t'] eqn:E5; [discriminate|].
  intros [= -> -> -> ->] Hfree.
  destruct w as [f js cs current b]. cbn [scheduler_jobs now] in *.
  unfold reload_job, getitem, get, fromisoformat_value, add_job;
    unfold bind, ret.
  rewrite E1, E5. cbn [now].
  destruct (datetime_gt t current).
  - rewrite E2, E3, E4. cbn [job_id scheduler_jobs]. rewrite Hfree.
    reflexivity.
  - rewrite app_nil_r. reflexivity.
Qed.

Lemma registration_ids current entry j :
  In j (registration current entry) -> job_id j = fst entry.
Proof.
  unfold registration.
  destruct (stored_job (snd entry)) as [[[[t k] c] g]|]; [|intros []].
  destruct (datetime_gt t current); [|intros []].
  intros [<-|[]]. reflexivity.
Qed.

Lemma has_job_registration current entry id :
  id <> fst entry -> has_job id (registration current entry) = false.
Proof.
  intros Hne. unfold has_job.
  destruct (existsb _ _) eqn:E; [|reflexivity].
  apply existsb_exists in E as (j & Hj & Hid).
  apply registration_ids in Hj. apply String.eqb_eq in Hid. congruence.
Qed.

Lemma reload_jobs_run (queue : dict json) : forall w,
  NoDup (keys queue) ->
  (forall entry, In entry queue -> stored_job (snd entry) <> None) ->
  (forall id, In id (keys queue) -> has_job id (scheduler_jobs w) = false) ->
  for_each queue reload_job w
  = (Return tt,
     with_scheduler_jobs
       (scheduler_jobs w ++ flat_map (registration (now w)) queue) w).
Proof.
  induction queue as [|[id info] queue IH]; intros w Hnd Hwf Hfree.
  - cbn. rewrite app_nil_r, with_scheduler_jobs_same. reflexivity.
  - cbn [for_each flat_map]. unfold bind.
    destruct (stored_job info) as [[[[t k] c] g]|] eqn:Es.
    2:{ exfalso. apply (Hwf (id, info)); [left; reflexivity|exact Es]. }
    rewrite (@reload_job_run id info t k c g w Es)
      by (apply Hfree; left; reflexivity).
    inversion Hnd as [|? ? Hid Hnd']; subst.
    rewrite IH.
    + cbn [scheduler_jobs now with_scheduler_jobs].
      rewrite <- app_assoc. reflexivity.
    + assumption.
    + intros entry He. apply Hwf. right. assumption.
    + intros id' Hid'. cbn [scheduler_jobs with_scheduler_jobs].
      rewrite has_job_app, Hfree by (right; assumption).
      apply has_job_registration. cbn [fst]. intros ->. contradiction.
Qed.

Lemma on_startup_run w :
  not_text (queue_file w) = false ->
  (forall entry, In entry (stored (queue_file w)) ->
                 stored_job (snd entry) <> None) ->
  (forall id, In id (keys (stored (queue_file w))) ->
              has_job id (scheduler_jobs w) = false) ->
  on_startup w
  = (Return tt,
     with_scheduler_jobs
       (scheduler_jobs w
        ++ flat_map (registration (now w)) (stored (queue_file w))) w).
Proof.
  intros Htext Hwf Hfree.
  pose proof (stored_NoDup (queue_file w)) as Hnd.
  pose proof (@reload_jobs_run (stored (queue_file w)) w Hnd Hwf Hfree) as Hrun.
  destruct (unusable (queue_file w)) eqn:Hu.
  { rewrite on_startup_unusable, stored_unusable by assumption.
    cbn. rewrite app_nil_r, with_scheduler_jobs_same. reflexivity. }
  revert Htext Hrun Hu. unfold on_startup, stored, unusable.
  destruct w as [[[raw|raw|j]|] js cs t b]; cbn [queue_file not_text];
    try discriminate. intros _.
  unfold bind at 1, file_exists, get. cbn [queue_file].
  unfold try_except, bind at 1, json_load_file. cbn [queue_file].
  destruct (json_load j) as [| | | | |d]; try discriminate.
  intros -> _. reflexivity.
Qed.


(** ** strptime on digits *)

Lemma is_digit_not_space c : is_digit c = true -> Ascii.eqb c " " = false.
Proof.
  destruct c as [[] [] [] [] [] [] [] []]; cbn; intros H;
    try reflexivity; discriminate.
Qed.

Lemma digits2_bound ok s v rest :
  In (v, rest) (digits2 ok s) -> (String.length s <= String.length rest + 2)%nat.
Proof.
  unfold digits2. destruct s as [|a [|b r]]; try (intros []).
  destruct (_ && _); [|intros []]. intros [[= _ <-]|[]]. simpl. lia.
Qed.

Lemma digits1_length ok s v rest :
  In (v, rest) (digits1 ok s) -> (String.length s = String.length rest + 1)%nat.
Proof.
  unfold digits1. destruct s as [|a r]; try (intros []).
  destruct (_ && _); [|intros []]. intros [[= _ <-]|[]]. simpl. lia.
Qed.

Lemma digits1_bound ok s v rest :
  In (v, rest) (digits1 ok s) -> (String.length s <= String.length rest + 2)%nat.
Proof.
  unfold digits1. destruct s as [|a r]; try (intros []).
  destruct (_ && _); [|intros []]. intros [[= _ <-]|[]]. simpl. lia.
Qed.

Lemma digits1_rest ok a b r c :
  In c (digits1 ok (String a (String b r))) -> snd c = String b r.
Proof.
  unfold digits1. destruct (_ && _); [|intros []]. intros [<-|[]]. reflexivity.
Qed.

Lemma digits2_head ok a b r :
  is_digit a = true -> is_digit b = true ->
  digits2 ok (String a (String b r))
  = if ok (digit_value a) (digit_value b)
    then [(10 * digit_value a + digit_value b, r)] else [].
Proof. intros Ha Hb. unfold digits2. rewrite Ha, Hb. reflexivity. Qed.

Ltac bound_cases :=
  repeat match goal with
         | H : In _ (_ ++ _)%list |- _ => apply in_app_or in H as [H|H]
         | H : In _ (digits2 _ _) |- _ => exact (@digits2_bound _ _ _ _ H)
         | H : In _ (digits1 _ _) |- _ => exact (@digits1_bound _ _ _ _ H)
         end.

Lemma two_digit_m : two_digit field_m ok_m.
Proof.
  split.
  - intros s v rest H. unfold field_m in H. bound_cases.
  - intros a b r Ha Hb. unfold field_m. rewrite digits2_head by assumption.
    eexists. split; [reflexivity|]. intros c. apply digits1_rest.
Qed.

Lemma two_digit_H : two_digit field_H ok_H.
Proof.
  split.
  - intros s v rest H. unfold field_H in H. bound_cases.
  - intros a b r Ha Hb. unfold field_H. rewrite digits2_head by assumption.
    eexists. split; [reflexivity|]. intros c. apply digits1_rest.
Qed.

Lemma two_digit_M : two_digit field_M ok_M.
Proof.
  split.
  - intros s v rest H. unfold field_M in H. bound_cases.
  - intros a b r Ha Hb. unfold field_M. rewrite digits2_head by assumption.
    eexists. split; [reflexivity|]. intros c. apply digits1_rest.
Qed.

Lemma two_digit_S : two_digit field_S ok_S.
Proof.
  split.
  - intros s v rest H. unfold field_S in H. bound_cases.
  - intros a b r Ha Hb. unfold field_S. rewrite digits2_head by assumption.
    eexists. split; [reflexivity|]. intros c. apply digits1_rest.
Qed.

Lemma two_digit_d : two_digit field_d ok_d.
Proof.
  split.
  - intros s v rest H. unfold field_d in H. bound_cases.
    destruct s as [|a s]; [destruct H|].
    destruct (Ascii.eqb a " "); [|destruct H].
    apply digits1_length in H. cbn [String.length]. lia.
  - intros a b r Ha Hb. unfold field_d. rewrite digits2_head by assumption.
    rewrite (is_digit_not_space _ Ha), app_nil_r.
    eexists. split; [reflexivity|]. intros c. apply digits1_rest.
Qed.

Lemma first_match_some A B (k : A -> option B) l b :
  first_match k l = Some b -> exists c, In c l /\ k c = Some b.
Proof.
  induction l as [|c l IH]; simpl; [discriminate|].
  destruct (k c) eqn:E.
  - intros [= <-]. exists c. auto.
  - intros H. destruct (IH H) as (c' & Hin & Hk). exists c'. auto.
Qed.

Lemma match_fields_bound fs oks :
  Forall2 two_digit fs oks ->
  forall s vs rest,
    match_fields fs s = Some (vs, rest) ->
    (String.length s <= String.length rest + 2 * List.length fs)%nat.
Proof.
  induction 1 as [|f ok fs oks [Hb _] _ IH]; intros s vs rest; cbn [match_fields].
  - intros [= _ <-]. simpl. lia.
  - intros H. apply first_match_some in H as ([v r] & Hin & Hk).
    cbn [fst snd] in Hk.
    destruct (match_fields fs r) as [[vs' rest']|] eqn:E; [|discriminate].
    injection Hk as _ <-.
    apply Hb in Hin. apply IH in E. cbn [List.length]. lia.
Qed.

Lemma match_fields_pairs fs oks :
  Forall2 two_digit fs oks ->
  forall s, all_digits s = true ->
    String.length s = (2 * List.length fs)%nat ->
    if pairs_ok oks s
    then match_fields fs s = Some (pairs_values (List.length fs) s, EmptyString)
    else forall vs, match_fields fs s <> Some (vs, EmptyString).
Proof.
  induction 1 as [|f ok fs oks Hf Hfs IH]; intros s Hd Hl.
  - destruct s; [reflexivity|discriminate].
  - destruct s as [|a [|b r]];
      [exfalso; cbn [String.length List.length] in Hl; lia
      |exfalso; cbn [String.length List.length] in Hl; lia|].
    cbn [all_digits] in Hd. apply andb_true_iff in Hd as [Ha Hd].
    apply andb_true_iff in Hd as [Hb Hd].
    assert (String.length r = (2 * List.length fs)%nat) as Hr
        by (cbn [String.length List.length] in Hl; lia).
    specialize (IH r Hd Hr).
    destruct Hf as [_ Hhead].
    destruct (Hhead a b r Ha Hb) as (tl & Hcands & Htl).
    assert (forall vs,
              first_match
                (fun c : Z * string =>
                   match match_fields fs (snd c) with
                   | Some (vs0, rest) => Some (fst c :: vs0, rest)
                   | None => None
                   end) tl <> Some (vs, EmptyString)) as Hlate.
    { intros vs Hm. apply first_match_some in Hm as (c & Hin & Hk).
      rewrite (Htl c Hin) in Hk.
      destruct (match_fields fs (String b r)) as [[vs' rest']|] eqn:E;
        [|discriminate].
      injection Hk as _ ->.
      apply (match_fields_bound Hfs) in E. cbn [String.length] in E. lia. }
    cbn [match_fields pairs_ok pairs_values List.length]. rewrite Hcands.
    destruct (ok (digit_value a) (digit_value b)); cbn [andb app first_match fst snd].
    + destruct (pairs_ok oks r).
      * rewrite IH. reflexivity.
      * destruct (match_fields fs r) as [[vs' rest']|] eqn:E.
        -- intros vs [= _ ->]. apply (IH vs'). reflexivity.
        -- exact Hlate.
    + exact Hlate.
Qed.

Lemma digit_value_range c : is_digit c = true -> 0 <= digit_value c <= 9.
Proof.
  unfold is_digit, digit_value. intros H.
  apply andb_true_iff in H as [H1 H2].
  apply Nat.leb_le in H1, H2. lia.
Qed.

Lemma valid_datetime_ranges t :
  valid_datetime t = true ->
  1 <= month t <= 12 /\ 1 <= day t <= 31 /\ 0 <= hour t <= 23 /\
  0 <= minute t <= 59 /\ 0 <= second t <= 59.
Proof.
  unfold valid_datetime. rewrite !andb_true_iff, !Z.leb_le.
  intros H. assert (days_in_month (year t) (month t) <= 31).
  { unfold days_in_month. destruct (month t =? 2); [destruct (is_leap _); lia|].
    destruct (_ || _); lia. }
  lia.
Qed.

Ltac bool_to_prop :=
  repeat match goal with
         | H : _ || _ = false |- _ => apply orb_false_iff in H as [? ?]
         | H : _ && _ = false |- _ => apply andb_false_iff in H as [?|?]
         | H : (_ =? _) = false |- _ => apply Z.eqb_neq in H
         | H : (_ <=? _) = false |- _ => apply Z.leb_gt in H
         end.

Lemma ok_m_range a b : 0 <= a <= 9 -> 0 <= b <= 9 ->
  ok_m a b = false -> ~ 1 <= 10 * a + b <= 12.
Proof. unfold ok_m. intros Ha Hb H. bool_to_prop; lia. Qed.

Lemma ok_d_range a b : 0 <= a <= 9 -> 0 <= b <= 9 ->
  ok_d a b = false -> ~ 1 <= 10 * a + b <= 31.
Proof. unfold ok_d. intros Ha Hb H. bool_to_prop; lia. Qed.

Lemma ok_H_range a b : 0 <= a <= 9 -> 0 <= b <= 9 ->
  ok_H a b = false -> ~ 0 <= 10 * a + b <= 23.
Proof. unfold ok_H. intros Ha Hb H. bool_to_prop; lia. Qed.

Lemma ok_M_range a b : 0 <= a <= 9 -> 0 <= b <= 9 ->
  ok_M a b = false -> ~ 0 <= 10 * a + b <= 59.
Proof. unfold ok_M. intros Ha Hb H. bool_to_prop; lia. Qed.

Lemma ok_S_range a b : 0 <= a <= 9 -> 0 <= b <= 9 ->
  ok_S a b = false -> ~ 0 <= 10 * a + b <= 59.
Proof. unfold ok_S. intros Ha Hb H. bool_to_prop; lia. Qed.

Lemma field_Y_digits a b c d r :
  is_digit a = true -> is_digit b = true -> is_digit c = true ->
  is_digit d = true ->
  field_Y (String a (String b (String c (String d r))))
  = [(1000 * digit_value a + 100 * digit_value b + 10 * digit_value c
      + digit_value d, r)].
Proof. intros Ha Hb Hc Hd. unfold field_Y. rewrite Ha, Hb, Hc, Hd. reflexivity. Qed.

Lemma match_fields_cons f fs s :
  match_fields (f :: fs) s
  = first_match
      (fun c : Z * string =>
         match match_fields fs (snd c) with
         | Some (vs, rest) => Some (fst c :: vs, rest)
         | None => None
         end)
      (f s).
Proof. reflexivity. Qed.

Lemma strptime_digits (f : time_format) (s : string) :
  all_digits s = true ->
  String.length s = format_width f ->
  strptime s f
  = if valid_datetime (fixed_width f s) then Some (fixed_width f s) else None.
Proof.
  intros Hd Hl.
  destruct s as [|y1 [|y2 [|y3 [|y4 r]]]];
    try (destruct f; discriminate).
  cbn [all_digits] in Hd. rewrite !andb_true_iff in Hd.
  destruct Hd as (Hy1 & Hy2 & Hy3 & Hy4 & Hd).
  unfold strptime.
  destruct f; cbn [format_fields]; rewrite match_fields_cons;
    rewrite field_Y_digits by assumption; cbn [first_match fst snd].
  - (* fourteen *)
    assert (Forall2 two_digit [field_m; field_d; field_H; field_M; field_S]
                    [ok_m; ok_d; ok_H; ok_M; ok_S]) as Hfs.
    { repeat first [apply Forall2_nil | apply Forall2_cons];
        auto using two_digit_m, two_digit_d, two_digit_H, two_digit_M,
          two_digit_S. }
    assert (String.length r = (2 * 5)%nat) as Hr
        by (cbn [String.length format_width] in Hl; lia).
    pose proof (match_fields_pairs Hfs r Hd Hr) as Hm.
    do 10 (destruct r as [|? r]; [discriminate|]).
    destruct r; [|discriminate].
    cbn [all_digits] in Hd. rewrite !andb_true_iff in Hd.
    destruct Hd as (H1&H2&H3&H4&H5&H6&H7&H8&H9&H10&_).
    pose proof (digit_value_range _ H1) as R1.
    pose proof (digit_value_range _ H2) as R2.
    pose proof (digit_value_range _ H3) as R3.
    pose proof (digit_value_range _ H4) as R4.
    pose proof (digit_value_range _ H5) as R5.
    pose proof (digit_value_range _ H6) as R6.
    pose proof (digit_value_range _ H7) as R7.
    pose proof (digit_value_range _ H8) as R8.
    pose proof (digit_value_range _ H9) as R9.
    pose proof (digit_value_range _ H10) as R10.
    match goal with
    | |- _ = (if valid_datetime ?t then _ else _) =>
        replace t with
          (Datetime (1000 * digit_value y1 + 100 * digit_value y2
                     + 10 * digit_value y3 + digit_value y4)
                    (10 * digit_value a + digit_value a0)
                    (10 * digit_value a1 + digit_value a2)
                    (10 * digit_value a3 + digit_value a4)
                    (10 * digit_value a5 + digit_value a6)
                    (10 * digit_value a7 + digit_value a8) 0)
          by (unfold fixed_width, digits_at, int_of_digits;
              cbn [substring int_of_digits_from]; f_equal; lia)
    end.
    destruct (pairs_ok _ _) eqn:Hok.
    + cbn [List.length pairs_values] in Hm. rewrite Hm. reflexivity.
    + match goal with
      | |- _ = (if valid_datetime ?t then _ else _) =>
          assert (valid_datetime t = false) as ->
      end.
      { apply not_true_is_false. intros Hv.
        apply valid_datetime_ranges in Hv.
        cbn [month day hour minute second] in Hv.
        destruct Hv as (Vm & Vd & VH & VM & VS).
        cbn [pairs_ok] in Hok.
        repeat (apply andb_false_iff in Hok as [Hok|Hok]);
          [exact (ok_m_range R1 R2 Hok Vm)|exact (ok_d_range R3 R4 Hok Vd)
          |exact (ok_H_range R5 R6 Hok VH)|exact (ok_M_range R7 R8 Hok VM)
          |exact (ok_S_range R9 R10 Hok VS)|discriminate]. }
      destruct (match_fields _ _) as [[vs [|? ?]]|] eqn:E; try reflexivity.
      exfalso. exact (Hm vs eq_refl).
  - (* twelve *)
    assert (Forall2 two_digit [field_m; field_d; field_H; field_M]
                    [ok_m; ok_d; ok_H; ok_M]) as Hfs.
    { repeat first [apply Forall2_nil | apply Forall2_cons];
        auto using two_digit_m, two_digit_d, two_digit_H, two_digit_M. }
    assert (String.length r = (2 * 4)%nat) as Hr
        by (cbn [String.length format_width] in Hl; lia).
    pose proof (match_fields_pairs Hfs r Hd Hr) as Hm.
    do 8 (destruct r as [|? r]; [discriminate|]).
    destruct r; [|discriminate].
    cbn [all_digits] in Hd. rewrite !andb_true_iff in Hd.
    destruct Hd as (H1&H2&H3&H4&H5&H6&H7&H8&_).
    pose proof (digit_value_range _ H1) as R1.
    pose proof (digit_value_range _ H2) as R2.
    pose proof (digit_value_range _ H3) as R3.
    pose proof (digit_value_range _ H4) as R4.
    pose proof (digit_value_range _ H5) as R5.
    pose proof (digit_value_range _ H6) as R6.
    pose proof (digit_value_range _ H7) as R7.
    pose proof (digit_value_range _ H8) as R8.
    match goal with
    | |- _ = (if valid_datetime ?t then _ else _) =>
        replace t with
          (Datetime (1000 * digit_value y1 + 100 * digit_value y2
                     + 10 * digit_value y3 + digit_value y4)
                    (10 * digit_value a + digit_value a0)
                    (10 * digit_value a1 + digit_value a2)
                    (10 * digit_value a3 + digit_value a4)
                    (10 * digit_value a5 + digit_value a6) 0 0)
          by (unfold fixed_width, digits_at, int_of_digits;
              cbn [substring int_of_digits_from]; f_equal; lia)
    end.
    destruct (pairs_ok _ _) eqn:Hok.
    + cbn [List.length pairs_values] in Hm. rewrite Hm. reflexivity.
    + match goal with
      | |- _ = (if valid_datetime ?t then _ else _) =>
          assert (valid_datetime t = false) as ->
      end.
      { apply not_true_is_false. intros Hv.
        apply valid_datetime_ranges in Hv.
        cbn [month day hour minute second] in Hv.
        destruct Hv as (Vm & Vd & VH & VM & VS).
        cbn [pairs_ok] in Hok.
        repeat (apply andb_false_iff in Hok as [Hok|Hok]);
          [exact (ok_m_range R1 R2 Hok Vm)|exact (ok_d_range R3 R4 Hok Vd)
          |exact (ok_H_range R5 R6 Hok VH)|exact (ok_M_range R7 R8 Hok VM)
          |discriminate]. }
      destruct (match_fields _ _) as [[vs [|? ?]]|] eqn:E; try reflexivity.
      exfalso. exact (Hm vs eq_refl).
Qed.

(** ** Scheduling *)

Lemma parse_send_time_run timestamp w :
  parse_send_time timestamp w
  = match requested_time timestamp with
    | Some t => (Return t, w)
    | None =>
        (Raise (Exn ValueError
                  (if ((String.length timestamp =? 14)
                       || (String.length timestamp =? 12))%nat
                   then "strptime" else "Incorrect timestamp length")), w)
    end.
Proof.
  unfold parse_send_time, requested_time.
  destruct (String.length timestamp =? 14)%nat.
  - destruct (strptime timestamp fmt_YmdHMS); reflexivity.
  - destruct (String.length timestamp =? 12)%nat; [|reflexivity].
    destruct (strptime timestamp fmt_YmdHM); reflexivity.
Qed.

Lemma schedule_send_run timestamp content target_group w :
  schedule_send timestamp content target_group w
  = match requested_time timestamp with
    | Some t => try_except (register_send t content target_group) send_failed w
    | None => send invalid_timestamp_reply w
    end.
Proof.
  unfold schedule_send, try_except at 1, bind at 1.
  rewrite parse_send_time_run.
  destruct (requested_time timestamp); reflexivity.
Qed.

Lemma schedule_forward_run timestamp forward_message target_group w :
  schedule_forward timestamp forward_message target_group w
  = match requested_time timestamp with
    | Some t =>
        try_except (register_forward t forward_message target_group)
                   forward_failed w
    | None => send invalid_timestamp_reply w
    end.
Proof.
  unfold schedule_forward, try_except at 1, bind at 1.
  rewrite parse_send_time_run.
  destruct (requested_time timestamp); reflexivity.
Qed.

Lemma requested_time_lengths timestamp :
  requested_time timestamp
  = if (String.length timestamp =? 12)%nat then strptime timestamp fmt_YmdHM
    else if (String.length timestamp =? 14)%nat then strptime timestamp fmt_YmdHMS
    else None.
Proof.
  unfold requested_time.
  destruct (Nat.eqb_spec (String.length timestamp) 14) as [->|_]; reflexivity.
Qed.

Lemma isdigit_all_digits s : isdigit s = true -> all_digits s = true.
Proof. destruct s; [discriminate|auto]. Qed.

(** What a field of digits asks for: its fields at fixed width when the
    length fits a format and they make a date and a time. *)
Lemma requested_time_digits timestamp :
  isdigit timestamp = true ->
  requested_time timestamp
  = if (String.length timestamp =? 12)%nat then
      if valid_datetime (fixed_width fmt_YmdHM timestamp)
      then Some (fixed_width fmt_YmdHM timestamp) else None
    else if (String.length timestamp =? 14)%nat then
      if valid_datetime (fixed_width fmt_YmdHMS timestamp)
      then Some (fixed_width fmt_YmdHMS timestamp) else None
    else None.
Proof.
  intros Hd. apply isdigit_all_digits in Hd. rewrite requested_time_lengths.
  destruct (Nat.eqb_spec (String.length timestamp) 12) as [H12|_].
  - apply strptime_digits; assumption.
  - destruct (Nat.eqb_spec (String.length timestamp) 14) as [H14|_];
      [|reflexivity].
    apply strptime_digits; assumption.
Qed.

(** C6: a sendmessage command whose timestamp field is made of digits and
    is not 0 is handled by the length of the field.  Twelve digits are
    read as YYYYMMDDHHMM and fourteen as YYYYMMDDHHMMSS: when the fields
    make a date and a time, the job is registered for it (seconds 0 in
    the twelve-digit form).  Any other length, like fields that make no
    date, gets the reply that the timestamp format is invalid, after
    which the handler ends with nothing registered and nothing written. *)
Theorem sendmessage_timestamp_length (event : Event)
    (timestamp content target : string) (w : World) :
  accepted event = Some ("sendmessage", timestamp, content, target) ->
  isdigit timestamp = true ->
  timestamp <> "0" ->
  let scheduled send_time :=
    try_except (register_send send_time content (target_group_of target))
               send_failed w in
  let rejected := send invalid_timestamp_reply w in
  let read_as format :=
    if valid_datetime (fixed_width format timestamp)
    then scheduled (fixed_width format timestamp) else rejected in
  handle_message event w
  = (if (String.length timestamp =? 12)%nat then read_as fmt_YmdHM
     else if (String.length timestamp =? 14)%nat then read_as fmt_YmdHMS
     else rejected) /\
  scheduler_jobs (snd rejected) = scheduler_jobs w /\
  queue_file (snd rejected) = queue_file w /\
  calls (snd rejected)
  = (calls w ++ [matcher_send invalid_timestamp_reply])%list.
Proof.
  intros H Hd H0. cbv zeta. split.
  - rewrite (handle_message_accepted _ H). unfold delegate.
    cbn [String.eqb Ascii.eqb Bool.eqb]. unfold do_sendmessage.
    apply String.eqb_neq in H0. rewrite H0, Hd, schedule_send_run.
    rewrite requested_time_digits by assumption.
    destruct (String.length timestamp =? 12)%nat.
    { destruct (valid_datetime _); reflexivity. }
    destruct (String.length timestamp =? 14)%nat; [|reflexivity].
    destruct (valid_datetime _); reflexivity.
  - rewrite send_run. repeat split.
Qed.

Lemma requested_time_not_zero timestamp t :
  requested_time timestamp = Some t -> String.eqb timestamp "0" = false.
Proof.
  destruct (String.eqb_spec timestamp "0") as [->|_]; [|reflexivity].
  discriminate.
Qed.

Lemma register_send_run send_time content target_group stamp w :
  posix_timestamp P send_time = inr stamp ->
  let id := ("job_" ++ stamp ++ "_" ++ Z_str target_group)%string in
  let registered :=
    with_scheduler_jobs
      (scheduler_jobs w
       ++ [{| job_id := id; run_date := send_time;
              job_args := (JStr "sendmessage", JStr content,
                           JInt target_group, id) |}]) w in
  register_send send_time content target_group w
  = if has_job id (scheduler_jobs w)
    then (Raise (Exn ConflictingIdError (conflict_text P id)), w)
    else
      match read_failure (queue_file w) with
      | Some e => (Raise e, registered)
      | None =>
          send ("Message scheduled for " ++ strftime P send_time
                ++ " to group " ++ Z_str target_group ++ "."
                ++ " JobID: " ++ id)
            (with_queue_file
               (Some (Document (JObj (dict_set id
                  (task_info (isoformat send_time) "sendmessage" content
                             target_group)
                  (stored (queue_file w))))))
               registered)
      end.
Proof.
  intros Hs. cbv zeta. unfold register_send, timestamp_text. rewrite Hs.
  unfold bind at 1, ret at 1, bind at 1, add_job. cbn [job_id].
  destruct (has_job _ (scheduler_jobs w)); [reflexivity|].
  unfold bind. rewrite save_to_queue_run.
  cbn [queue_file with_scheduler_jobs].
  destruct (read_failure (queue_file w)); reflexivity.
Qed.

Lemma register_forward_run send_time forward_message target_group stamp w :
  posix_timestamp P send_time = inr stamp ->
  let id := ("job_forward_" ++ stamp ++ "_" ++ Z_str target_group)%string in
  let registered :=
    with_scheduler_jobs
      (scheduler_jobs w
       ++ [{| job_id := id; run_date := send_time;
              job_args := (JStr "forwardmessage",
                           JStr (str_of_Message P forward_message),
                           JInt target_group, id) |}]) w in
  register_forward send_time forward_message target_group w
  = if has_job id (scheduler_jobs w)
    then (Raise (Exn ConflictingIdError (conflict_text P id)), w)
    else
      match read_failure (queue_file w) with
      | Some e => (Raise e, registered)
      | None =>
          send ("Forward message scheduled for " ++ strftime P send_time
                ++ " to group " ++ Z_str target_group ++ "."
                ++ " JobID: " ++ id)
            (with_queue_file
               (Some (Document (JObj (dict_set id
                  (task_info (isoformat send_time) "forwardmessage"
                             (str_of_Message P forward_message) target_group)
                  (stored (queue_file w))))))
               registered)
      end.
Proof.
  intros Hs. cbv zeta. unfold register_forward, timestamp_text. rewrite Hs.
  unfold bind at 1, ret at 1, bind at 1, add_job. cbn [job_id].
  destruct (has_job _ (scheduler_jobs w)); [reflexivity|].
  unfold bind. rewrite save_to_queue_run.
  cbn [queue_file with_scheduler_jobs].
  destruct (read_failure (queue_file w)); reflexivity.
Qed.

Lemma send_keeps message w :
  scheduler_jobs (snd (send message w)) = scheduler_jobs w /\
  queue_file (snd (send message w)) = queue_file w.
Proof. rewrite send_run. split; reflexivity. Qed.

Lemma reply_or_report message (report : exn -> M unit) w :
  (forall e w0, scheduler_jobs (snd (report e w0)) = scheduler_jobs w0 /\
                queue_file (snd (report e w0)) = queue_file w0) ->
  scheduler_jobs (snd (try_except (send message) report w)) = scheduler_jobs w /\
  queue_file (snd (try_except (send message) report w)) = queue_file w.
Proof.
  intros Hr. unfold try_except. rewrite send_run.
  destruct (transport (calls w) (matcher_send message)) as [e|id].
  - destruct (Hr e (with_calls (calls w ++ [matcher_send message]) w)) as [-> ->].
    split; reflexivity.
  - split; reflexivity.
Qed.

Lemma send_failed_keeps e w :
  scheduler_jobs (snd (send_failed e w)) = scheduler_jobs w /\
  queue_file (snd (send_failed e w)) = queue_file w.
Proof. unfold send_failed. destruct (is_ValueError e); apply send_keeps. Qed.

Lemma forward_failed_keeps e w :
  scheduler_jobs (snd (forward_failed e w)) = scheduler_jobs w /\
  queue_file (snd (forward_failed e w)) = queue_file w.
Proof. unfold forward_failed. destruct (is_ValueError e); apply send_keeps. Qed.


(** ** The content markup parser: nothing is lost *)

Lemma strip_prefix_app p s r : strip_prefix p s = Some r -> s = (p ++ r)%string.
Proof.
  revert s; induction p as [|a p IH]; intros s; cbn [strip_prefix].
  - intros [= ->]. reflexivity.
  - destruct s as [|b s]; [discriminate|].
    destruct (Ascii.eqb_spec a b) as [->|_]; [|discriminate].
    intros H. cbn. rewrite (IH _ H). reflexivity.
Qed.

Lemma strip_prefix_ext p s r x :
  strip_prefix p s = Some r -> strip_prefix p (s ++ x) = Some (r ++ x)%string.
Proof.
  revert s; induction p as [|a p IH]; intros s; cbn [strip_prefix].
  - intros [= ->]. reflexivity.
  - destruct s as [|b s]; [discriminate|]. cbn [append].
    destruct (Ascii.eqb a b); [apply IH|discriminate].
Qed.

Lemma strip_prefix_self p r : strip_prefix p (p ++ r) = Some r.
Proof.
  induction p as [|a p IH]; cbn; [reflexivity|].
  rewrite Ascii.eqb_refl. exact IH.
Qed.

Lemma lazy_url_app s : forall u r,
  lazy_url s = Some (u, r) -> s = (u ++ image_close ++ r)%string.
Proof.
  induction s as [|c s IH]; intros u r; cbn [lazy_url].
  - cbn. discriminate.
  - destruct (strip_prefix image_close (String c s)) as [rest|] eqn:E.
    + intros [= <- <-]. apply strip_prefix_app in E. exact E.
    + destruct (Ascii.eqb c newline); [discriminate|].
      destruct (lazy_url s) as [[u' r']|]; [|discriminate].
      intros [= <- <-]. cbn. rewrite (IH _ _ eq_refl) at 1. reflexivity.
Qed.

Lemma string_length_app (a b : string) :
  String.length (a ++ b) = (String.length a + String.length b)%nat.
Proof. induction a; cbn; congruence. Qed.

Lemma strip_prefix_ext_none p : forall s x,
  (String.length p <= String.length s)%nat ->
  strip_prefix p s = None -> strip_prefix p (s ++ x) = None.
Proof.
  induction p as [|a p IH]; intros s x; cbn [strip_prefix].
  - discriminate.
  - destruct s as [|b s]; [cbn; lia|]. cbn [append String.length].
    destruct (Ascii.eqb a b); [|reflexivity].
    intros Hl. apply IH. lia.
Qed.

Lemma lazy_url_ext s x : forall u r,
  lazy_url s = Some (u, r) -> lazy_url (s ++ x) = Some (u, (r ++ x)%string).
Proof.
  induction s as [|c s IH]; intros u r.
  - cbn. discriminate.
  - intros H. pose proof (lazy_url_app _ H) as Hs. revert H.
    cbn [lazy_url]. change (String c s ++ x)%string with (String c (s ++ x)).
    cbn [lazy_url].
    change (String c (s ++ x)) with (String c s ++ x)%string.
    destruct (strip_prefix image_close (String c s)) as [rest|] eqn:E.
    + intros [= <- <-]. rewrite (strip_prefix_ext _ _ x E). reflexivity.
    + rewrite strip_prefix_ext_none; [|rewrite Hs, !string_length_app; lia|exact E].
      destruct (Ascii.eqb c newline); [discriminate|].
      destruct (lazy_url s) as [[u' r']|] eqn:El; [|discriminate].
      intros [= <- <-]. rewrite (IH _ _ eq_refl). reflexivity.
Qed.

Lemma lazy_url_exact s : forall u r,
  lazy_url s = Some (u, r) ->
  lazy_url (u ++ image_close) = Some (u, EmptyString).
Proof.
  induction s as [|c s IH]; intros u r.
  - cbn. discriminate.
  - intros H. revert H. cbn [lazy_url].
    destruct (strip_prefix image_close (String c s)) as [rest|] eqn:E.
    + intros [= <- <-]. reflexivity.
    + destruct (Ascii.eqb c newline) eqn:Ec; [discriminate|].
      destruct (lazy_url s) as [[u' r']|] eqn:El; [|discriminate].
      intros [= <- <-]. cbn [append lazy_url].
      rewrite Ec, (IH _ _ eq_refl).
      destruct (strip_prefix image_close (String c (u' ++ image_close)))
        as [rest|] eqn:E'; [|reflexivity].
      exfalso. apply (strip_prefix_ext _ _ r') in E'.
      change (String c (u' ++ image_close) ++ r')%string
        with (String c ((u' ++ image_close) ++ r')) in E'.
      rewrite string_app_assoc, <- (lazy_url_app _ El) in E'. congruence.
Qed.

Lemma lazy_url_no_newline s : forall u r,
  lazy_url s = Some (u, r) -> no_newline u = true.
Proof.
  induction s as [|c s IH]; intros u r; cbn [lazy_url].
  - cbn. discriminate.
  - destruct (strip_prefix image_close (String c s)); [intros [= <- _]; reflexivity|].
    destruct (Ascii.eqb c newline) eqn:Ec; [discriminate|].
    destruct (lazy_url s) as [[u' r']|]; [|discriminate].
    intros [= <- <-]. cbn. rewrite Ec, (IH _ _ eq_refl). reflexivity.
Qed.

Lemma match_tag_app s t r : match_tag s = Some (t, r) -> s = (t ++ r)%string.
Proof.
  unfold match_tag, match_image.
  destruct (strip_prefix at_all_tag s) as [r0|] eqn:E.
  - intros [= <- <-]. apply strip_prefix_app, E.
  - destruct (strip_prefix image_open s) as [s'|] eqn:E'; [|discriminate].
    destruct (lazy_url s') as [[u r']|] eqn:El; [|discriminate].
    intros [= <- <-]. rewrite (strip_prefix_app _ _ E'), (lazy_url_app _ El).
    unfold image_open. cbn [append]. rewrite string_app_assoc. reflexivity.
Qed.

Lemma match_tag_ext s x t r :
  match_tag s = Some (t, r) -> match_tag (s ++ x) = Some (t, (r ++ x)%string).
Proof.
  unfold match_tag, match_image.
  destruct (strip_prefix at_all_tag s) as [r0|] eqn:E.
  - intros [= <- <-]. rewrite (strip_prefix_ext _ _ x E). reflexivity.
  - destruct (strip_prefix image_open s) as [s'|] eqn:E'; [|discriminate].
    destruct (lazy_url s') as [[u r']|] eqn:El; [|discriminate].
    intros [= <- <-].
    rewrite strip_prefix_ext_none;
      [|rewrite (strip_prefix_app _ _ E'), string_length_app;
        change (String.length at_all_tag) with 8%nat;
        change (String.length image_open) with 13%nat; lia
       |exact E].
    rewrite (strip_prefix_ext _ _ x E'), (lazy_url_ext _ x El). reflexivity.
Qed.

Lemma segment_of_image u :
  lazy_url (u ++ image_close) = Some (u, EmptyString) ->
  segment_of_part (image_open ++ u ++ image_close) = [image u].
Proof.
  intros H. unfold segment_of_part.
  replace (String.eqb (image_open ++ u ++ image_close) EmptyString)
    with false by reflexivity.
  replace (String.eqb (image_open ++ u ++ image_close) at_all_tag)
    with false by reflexivity.
  unfold match_image. rewrite strip_prefix_self, H. reflexivity.
Qed.

(** The segment made of a part that is a tag: the tag itself. *)
Lemma segment_of_tag s t r :
  match_tag s = Some (t, r) -> markup_of (segment_of_part t) = t.
Proof.
  unfold match_tag, match_image.
  destruct (strip_prefix at_all_tag s) as [r0|] eqn:E.
  - intros [= <- _]. reflexivity.
  - destruct (strip_prefix image_open s) as [s'|] eqn:E'; [|discriminate].
    destruct (lazy_url s') as [[u r']|] eqn:El; [|discriminate].
    intros [= <- _].
    change (markup_of (segment_of_part (image_open ++ u ++ image_close))
            = (image_open ++ u ++ image_close)%string).
    rewrite (segment_of_image (lazy_url_exact _ El)).
    cbn [markup_of markup_of_segment]. apply string_app_nil_r.
Qed.

(** The segment made of a part that is not empty and does not begin with
    a tag: the text of the part. *)
Lemma segment_of_text p :
  p <> EmptyString -> match_tag p = None -> segment_of_part p = [text p].
Proof.
  intros Hp H. unfold segment_of_part.
  destruct (String.eqb_spec p EmptyString) as [->|_]; [congruence|].
  destruct (String.eqb_spec p at_all_tag) as [->|_]; [discriminate|].
  unfold match_tag in H.
  destruct (strip_prefix at_all_tag p); [discriminate|].
  destruct (match_image p) as [[u r]|]; [discriminate|reflexivity].
Qed.

Lemma markup_of_app (m1 m2 : Message) :
  markup_of (m1 ++ m2)%list = (markup_of m1 ++ markup_of m2)%string.
Proof.
  induction m1 as [|seg m1 IH]; cbn; [reflexivity|].
  rewrite IH, string_app_assoc. reflexivity.
Qed.

Lemma markup_of_piece cur s :
  cur = EmptyString \/ match_tag (cur ++ s) = None ->
  markup_of (segment_of_part cur) = cur.
Proof.
  intros [->|H]; [reflexivity|].
  destruct cur as [|c cur]; [reflexivity|].
  rewrite segment_of_text; [cbn; rewrite string_app_nil_r; reflexivity
                           |discriminate|].
  destruct (match_tag (String c cur)) as [[t r]|] eqn:E; [|reflexivity].
  rewrite (match_tag_ext _ s E) in H. discriminate.
Qed.

Lemma re_split_from_end cur : re_split_from cur EmptyString = [cur].
Proof. simp re_split_from. reflexivity. Qed.

Lemma re_split_from_tag cur s t r :
  match_tag s = Some (t, r) ->
  re_split_from cur s = cur :: t :: re_split_from EmptyString r.
Proof.
  intros H. rewrite (re_split_from_equation_1 cur s).
  destruct (inspect (match_tag s)) as [[[t' r']|] E]; [|congruence].
  assert (t' = t /\ r' = r) as [-> ->] by (split; congruence).
  reflexivity.
Qed.

Lemma re_split_from_char cur c s :
  match_tag (String c s) = None ->
  re_split_from cur (String c s)
  = re_split_from (cur ++ String c EmptyString) s.
Proof.
  intros H. rewrite (re_split_from_equation_1 cur (String c s)).
  destruct (inspect (match_tag (String c s))) as [[[t r]|] E]; [congruence|].
  reflexivity.
Qed.

Lemma markup_of_split n : forall s cur,
  (String.length s <= n)%nat ->
  cur = EmptyString \/ match_tag (cur ++ s) = None ->
  markup_of (flat_map segment_of_part (re_split_from cur s)) = (cur ++ s)%string.
Proof.
  induction n as [|n IH]; intros s cur Hn Hcur.
  - destruct s; [|cbn in Hn; lia].
    rewrite re_split_from_end. cbn [flat_map].
    rewrite app_nil_r, string_app_nil_r.
    apply (@markup_of_piece cur EmptyString Hcur).
  - destruct (match_tag s) as [[t r]|] eqn:E.
    + rewrite (@re_split_from_tag cur s t r E). cbn [flat_map].
      rewrite !markup_of_app.
      pose proof (match_tag_length _ E) as Hlen.
      rewrite (IH r EmptyString) by (auto; lia).
      rewrite (@markup_of_piece cur s Hcur), (@segment_of_tag s t r E).
      cbn [append]. rewrite (match_tag_app _ E) at 1. reflexivity.
    + destruct s as [|c s].
      * rewrite re_split_from_end. cbn [flat_map].
        rewrite app_nil_r, string_app_nil_r.
        apply (@markup_of_piece cur EmptyString Hcur).
      * rewrite (@re_split_from_char cur c s E), IH.
        -- rewrite string_app_assoc. reflexivity.
        -- cbn in Hn. lia.
        -- right. rewrite string_app_assoc. cbn [append].
           destruct Hcur as [->|H]; [exact E|exact H].
Qed.

(** X1: the parser loses nothing and keeps the order: the segments of a
    content, written back in markup one after the other, give the content
    with its escaped newlines replaced. *)
Theorem parse_content_markup (content : string) :
  markup_of (parse_content_to_message content)
  = replace_escaped_newlines content.
Proof.
  unfold parse_content_to_message, re_split.
  rewrite (@markup_of_split
             (String.length (replace_escaped_newlines content))
             (replace_escaped_newlines content) EmptyString);
    [reflexivity|lia|left; reflexivity].
Qed.

Lemma segment_of_part_shape p : forallb parsed_segment (segment_of_part p) = true.
Proof.
  unfold segment_of_part.
  destruct (String.eqb p EmptyString) eqn:E; [reflexivity|].
  destruct (String.eqb p at_all_tag); [reflexivity|].
  destruct (match_image p) as [[url r]|] eqn:Em; cbn.
  - unfold match_image in Em.
    destruct (strip_prefix image_open p) as [s'|]; [|discriminate].
    rewrite (lazy_url_no_newline _ Em). reflexivity.
  - rewrite E. reflexivity.
Qed.

(** X2: whatever the content, the parser builds only texts that are not
    empty, mentions of all, and images whose address holds no newline:
    never an empty text, never another kind of segment. *)
Theorem parse_content_segments (content : string) :
  forallb parsed_segment (parse_content_to_message content) = true.
Proof.
  unfold parse_content_to_message.
  induction (re_split (replace_escaped_newlines content)) as [|p parts IH];
    cbn [flat_map]; [reflexivity|].
  rewrite forallb_app, segment_of_part_shape. exact IH.
Qed.

(** ** The command grammar *)

Lemma lazy_group_sound A sep (k : string -> option A) s : forall g a,
  lazy_group sep k s = Some (g, a) ->
  exists rest, s = (g ++ sep ++ rest)%string /\ k rest = Some a.
Proof.
  induction s as [|c s IH]; intros g a; cbn [lazy_group].
  - destruct (strip_prefix sep EmptyString) as [rest|] eqn:E.
    + destruct (k rest) eqn:Ek; [|discriminate].
      intros [= <- <-]. exists rest. split; [|exact Ek].
      apply strip_prefix_app in E. exact E.
    + discriminate.
  - destruct (strip_prefix sep (String c s)) as [rest|] eqn:E.
    + destruct (k rest) as [a'|] eqn:Ek.
      * intros [= <- <-]. exists rest. split; [|exact Ek].
        apply strip_prefix_app in E. exact E.
      * destruct (lazy_group sep k s) as [[g' a']|] eqn:El; [|discriminate].
        intros [= <- <-]. destruct (IH _ _ eq_refl) as (rest' & -> & Hk).
        exists rest'. split; [reflexivity|exact Hk].
    + destruct (lazy_group sep k s) as [[g' a']|] eqn:El; [|discriminate].
      intros [= <- <-]. destruct (IH _ _ eq_refl) as (rest' & -> & Hk).
      exists rest'. split; [reflexivity|exact Hk].
Qed.

Lemma lazy_group_complete A sep' (k : string -> option A) g rest a :
  no_closing_bracket g = true ->
  k rest = Some a ->
  lazy_group (String "]" sep') k (g ++ String "]" (sep' ++ rest)) = Some (g, a).
Proof.
  intros Hg Hk. induction g as [|c g IH].
  - cbn [append lazy_group strip_prefix]. rewrite Ascii.eqb_refl.
    rewrite strip_prefix_self, Hk. reflexivity.
  - cbn [no_closing_bracket] in Hg. apply andb_true_iff in Hg as [Hc Hg].
    apply negb_true_iff in Hc.
    cbn [append lazy_group strip_prefix].
    rewrite Ascii.eqb_sym, Hc, (IH Hg). reflexivity.
Qed.

(** X3: a text in which [match_command] finds a command is made of its
    four groups between brackets, in order, followed by anything. *)
Theorem match_command_sound (s g1 g2 g3 g4 : string) :
  match_command s = Some (g1, g2, g3, g4) ->
  exists rest, s = command_text g1 g2 g3 g4 rest.
Proof.
  unfold match_command, command_text.
  destruct (strip_prefix "[" s) as [s1|] eqn:E0; [|discriminate].
  apply strip_prefix_app in E0. subst s.
  destruct (lazy_group _ _ s1) as [[h1 [h2 [h3 [h4 []]]]]|] eqn:E1;
    [|discriminate].
  intros [= <- <- <- <-].
  apply lazy_group_sound in E1 as (r1 & -> & E2).
  apply lazy_group_sound in E2 as (r2 & -> & E3).
  apply lazy_group_sound in E3 as (r3 & -> & E4).
  apply lazy_group_sound in E4 as (r4 & -> & _).
  exists r4. reflexivity.
Qed.

(** X4: four fields without a closing bracket, written between brackets,
    are read back as they are, whatever follows the last bracket; when
    the four fields are texts of ASCII characters, the handler then works
    with each of them stripped of the ASCII whitespace around it. *)
Theorem match_command_complete (f1 f2 f3 f4 rest : string) :
  no_closing_bracket f1 = true -> no_closing_bracket f2 = true ->
  no_closing_bracket f3 = true -> no_closing_bracket f4 = true ->
  match_command (command_text f1 f2 f3 f4 rest) = Some (f1, f2, f3, f4) /\
  (forallb ascii_text [f1; f2; f3; f4] = true ->
   command_fields (command_text f1 f2 f3 f4 rest)
   = Some (strip f1, strip f2, strip f3, strip f4)).
Proof.
  intros H1 H2 H3 H4.
  assert (match_command (command_text f1 f2 f3 f4 rest) = Some (f1, f2, f3, f4))
    as Hm.
  { unfold match_command, command_text. cbn [append strip_prefix].
    rewrite Ascii.eqb_refl.
    rewrite (@lazy_group_complete _ "[" _ f1
               (f2 ++ "][" ++ f3 ++ "][" ++ f4 ++ "]" ++ rest)%string
               (f2, (f3, (f4, tt))) H1); [reflexivity|].
    rewrite (@lazy_group_complete _ "[" _ f2
               (f3 ++ "][" ++ f4 ++ "]" ++ rest)%string
               (f3, (f4, tt)) H2); [reflexivity|].
    rewrite (@lazy_group_complete _ "[" _ f3 (f4 ++ "]" ++ rest)%string
               (f4, tt) H3); [reflexivity|].
    rewrite (@lazy_group_complete _ EmptyString _ f4 rest tt H4);
      reflexivity. }
  split; [exact Hm|]. intros _. unfold command_fields. rewrite Hm.
  reflexivity.
Qed.

(** ** The queue file: one job among the others *)

Lemma dict_set_values (V : Type) (Q : V -> Prop) k v (d : dict V) :
  Q v -> Forall (fun m => Q (snd m)) d ->
  Forall (fun m => Q (snd m)) (dict_set k v d).
Proof.
  intros Hv. induction 1 as [|[k' v'] d Hm Hd IH]; cbn.
  - constructor; [exact Hv|constructor].
  - destruct (String.eqb k k'); constructor; auto.
Qed.

Lemma members_values (Q : json -> Prop) ms : forall acc,
  Forall (fun m => Q (json_load (snd m))) ms ->
  Forall (fun m => Q (snd m)) acc ->
  Forall (fun m => Q (snd m)) (fold_left add_member ms acc).
Proof.
  induction ms as [|m ms IH]; intros acc Hms Hacc; cbn [fold_left].
  - exact Hacc.
  - inversion Hms as [|? ? Hm Hms']; subst.
    apply IH; [exact Hms'|]. unfold add_member.
    apply dict_set_values; assumption.
Qed.

Lemma map_loaded_id (d : dict json) :
  Forall (fun m => json_load (snd m) = snd m) d ->
  map (fun m => (fst m, json_load (snd m))) d = d.
Proof.
  induction 1 as [|[k v] d Hm Hd IH]; cbn; [reflexivity|].
  cbn in Hm. rewrite Hm, IH. reflexivity.
Qed.

(** A value that [json.load] returned loads back as itself. *)
Lemma json_load_idempotent : forall j, json_load (json_load j) = json_load j.
Proof.
  fix IH 1. intros [| b | n | s | l | ms]; try reflexivity.
  - cbn [json_load]. f_equal. rewrite map_map.
    induction l as [|x l IHl]; cbn [map]; [reflexivity|].
    rewrite IH, IHl. reflexivity.
  - rewrite json_load_object.
    assert (Forall (fun m => json_load (snd m) = snd m)
                   (fold_left add_member ms [])) as Hvals.
    { apply (@members_values (fun v => json_load v = v)); [|constructor].
      induction ms as [|m ms IHms]; constructor; [apply IH|exact IHms]. }
    assert (NoDup (keys (fold_left add_member ms []))) as Hnd
        by (apply NoDup_members; constructor).
    rewrite json_load_object, members_fresh; [|exact Hnd|intros x _ []].
    cbn [app]. rewrite map_loaded_id by exact Hvals. reflexivity.
Qed.

Lemma stored_values f :
  Forall (fun m => json_load (snd m) = snd m) (stored f).
Proof.
  destruct f as [[raw|raw|j]|]; cbn; try constructor.
  pose proof (json_load_idempotent j) as H.
  destruct (json_load j) as [| | | | |d] eqn:E; try constructor.
  rewrite json_load_object in H.
  assert (NoDup (keys d)) as Hnd by (eapply loaded_NoDup; exact E).
  rewrite members_fresh in H; [|exact Hnd|intros x _ []].
  cbn [app] in H. injection H as H.
  clear -H. induction d as [|[k v] d IH]; [constructor|].
  cbn in H. injection H as Hv Hd. constructor; [exact Hv|auto].
Qed.

(** The mapping of a file that was written from a dictionary of loaded
    values is that dictionary. *)
Lemma stored_dumped (d : dict json) :
  NoDup (keys d) ->
  Forall (fun m => json_load (snd m) = snd m) d ->
  stored (Some (Document (JObj d))) = d.
Proof.
  intros Hnd Hv. rewrite stored_written by exact Hnd.
  apply map_loaded_id, Hv.
Qed.

Lemma dict_get_set_other (V : Type) k k' (v : V) d :
  k' <> k -> dict_get k' (dict_set k v d) = dict_get k' d.
Proof.
  intros Hne. induction d as [|[k0 v0] d IH]; cbn.
  - destruct (String.eqb_spec k' k); [congruence|reflexivity].
  - destruct (String.eqb_spec k k0) as [->|Hk]; cbn.
    + destruct (String.eqb_spec k' k0); [congruence|reflexivity].
    + destruct (String.eqb k' k0); [reflexivity|exact IH].
Qed.

Lemma dict_get_del_other (V : Type) k k' (d : dict V) :
  k' <> k -> dict_get k' (dict_del k d) = dict_get k' d.
Proof.
  intros Hne. induction d as [|[k0 v0] d IH]; cbn; [reflexivity|].
  destruct (String.eqb_spec k k0) as [->|Hk]; cbn.
  - destruct (String.eqb_spec k' k0); [congruence|reflexivity].
  - destruct (String.eqb k' k0); [reflexivity|exact IH].
Qed.

Lemma dict_get_value (V : Type) (Q : V -> Prop) k (d : dict V) v :
  Forall (fun m => Q (snd m)) d -> dict_get k d = Some v -> Q v.
Proof.
  induction 1 as [|[k0 v0] d Hm Hd IH]; cbn; [discriminate|].
  destruct (String.eqb k k0); [intros [= <-]; exact Hm|exact IH].
Qed.

Lemma dict_del_values (V : Type) (Q : V -> Prop) k (d : dict V) :
  Forall (fun m => Q (snd m)) d -> Forall (fun m => Q (snd m)) (dict_del k d).
Proof.
  induction 1 as [|[k0 v0] d Hm Hd IH]; cbn; [constructor|].
  destruct (String.eqb k k0); [exact Hd|constructor; assumption].
Qed.

Lemma NoDup_dict_del (V : Type) k (d : dict V) :
  NoDup (keys d) -> NoDup (keys (dict_del k d)).
Proof.
  induction d as [|[k0 v0] d IH]; cbn; intros H; [constructor|].
  inversion H as [|? ? Hk Hd]; subst.
  destruct (String.eqb k k0); [exact Hd|].
  cbn. constructor; [|auto]. intros Hin. apply Hk. eapply keys_dict_del, Hin.
Qed.

Lemma keys_dict_set_exact (V : Type) k (v : V) d :
  keys (dict_set k v d)
  = if dict_mem k d then keys d else (keys d ++ [k])%list.
Proof.
  unfold dict_mem, keys. induction d as [|[k0 v0] d IH]; cbn; [reflexivity|].
  destruct (String.eqb_spec k k0) as [->|Hk]; cbn; [reflexivity|].
  rewrite IH. destruct (dict_get k d); reflexivity.
Qed.

Lemma dict_del_fresh (V : Type) k (v : V) d :
  ~ In k (keys d) -> dict_del k (d ++ [(k, v)])%list = d.
Proof.
  induction d as [|[k0 v0] d IH]; cbn; intros H.
  - rewrite String.eqb_refl. reflexivity.
  - destruct (String.eqb_spec k k0) as [->|_]; [tauto|].
    rewrite IH by tauto. reflexivity.
Qed.

Lemma loaded_lookup f k :
  option_map json_load (dict_get k (stored f)) = dict_get k (stored f).
Proof.
  destruct (dict_get k (stored f)) as [v|] eqn:E; [|reflexivity].
  cbn. f_equal.
  exact (@dict_get_value _ (fun v => json_load v = v) k _ v (stored_values f) E).
Qed.



Lemma removed_stored job_id w :
  stored (queue_file (snd (remove_from_queue job_id w)))
  = dict_del job_id (stored (queue_file w)).
Proof.
  rewrite remove_from_queue_world. unfold removed.
  destruct (unusable (queue_file w)) eqn:Hu.
  { rewrite (stored_unusable _ Hu). reflexivity. }
  destruct (dict_mem job_id (stored (queue_file w))) eqn:Hm.
  - cbn [queue_file with_queue_file].
    apply stored_dumped.
    + apply NoDup_dict_del, stored_NoDup.
    + apply (@dict_del_values _ (fun v => json_load v = v)), stored_values.
  - symmetry. revert Hm. unfold dict_mem. generalize (stored (queue_file w)).
    induction d as [|[k v] d IH]; cbn; [reflexivity|].
    destruct (String.eqb job_id k); [discriminate|].
    intros H. rewrite IH by exact H. reflexivity.
Qed.



Lemma accepted_target event command_type timestamp content target :
  accepted event = Some (command_type, timestamp, content, target) ->
  receiver_or_zero (target_group_of target).
Proof.
  unfold accepted, receiver_or_zero.
  destruct (negb (existsb _ (admin_groups config))); [discriminate|].
  destruct (negb (is_admin (user_id event))); [discriminate|].
  cbv zeta.
  destruct (String.eqb (lower (strip (plaintext event))) "message");
    [discriminate|].
  destruct (command_fields (strip (plaintext event)))
    as [[[[ct ts] c] tg]|]; [|discriminate].
  destruct (negb (isdigit tg) && negb (String.eqb ct "schedulemessage"));
    [discriminate|].
  destruct (target_group_of tg =? 0) eqn:E0.
  - intros H. injection H as _ _ _ <-. left. apply Z.eqb_eq, E0.
  - cbn [negb andb].
    destruct (existsb (Z.eqb (target_group_of tg)) (receiver_groups config))
      eqn:Ex; [|discriminate].
    intros H. injection H as _ _ _ <-. right.
    apply existsb_exists in Ex. destruct Ex as [g [Hin Hg]].
    apply Z.eqb_eq in Hg. rewrite Hg. exact Hin.
Qed.

(** ** What the handler keeps *)

Section Frame.

Variable R : World -> World -> Prop.
Hypothesis R_refl : forall w, R w w.
Hypothesis R_trans : forall a b c, R a b -> R b c -> R a c.

Lemma keeps_ret A (a : A) : keeps R (ret a).
Proof. intros w. apply R_refl. Qed.

Lemma keeps_raise A e : keeps R (@raise A e).
Proof. intros w. apply R_refl. Qed.

Lemma keeps_get A (f : World -> A) : keeps R (get f).
Proof. intros w. apply R_refl. Qed.

Lemma keeps_bind A B (m : M A) (k : A -> M B) :
  keeps R m -> (forall a, keeps R (k a)) -> keeps R (bind m k).
Proof.
  intros Hm Hk w. unfold bind. specialize (Hm w).
  destruct (m w) as [[a|e] w1]; cbn [snd] in *.
  - eapply R_trans; [exact Hm|apply Hk].
  - exact Hm.
Qed.

Lemma keeps_try A (m : M A) (h : exn -> M A) :
  keeps R m -> (forall e, keeps R (h e)) -> keeps R (try_except m h).
Proof.
  intros Hm Hh w. unfold try_except. specialize (Hm w).
  destruct (m w) as [[a|e] w1]; cbn [snd] in *.
  - exact Hm.
  - eapply R_trans; [exact Hm|apply Hh].
Qed.

Lemma keeps_for_each A (body : A -> M unit) l :
  (forall a, keeps R (body a)) -> keeps R (for_each l body).
Proof.
  intros Hb. induction l as [|a l IH]; cbn [for_each].
  - apply keeps_ret.
  - apply keeps_bind; [apply Hb|intros _; exact IH].
Qed.

Lemma keeps_filter_items keep d :
  (forall info, keeps R (keep info)) -> keeps R (filter_items keep d).
Proof.
  intros Hk. induction d as [|[k info] d IH]; cbn [filter_items].
  - apply keeps_ret.
  - apply keeps_bind; [apply Hk|intros kept].
    apply keeps_bind; [exact IH|intros rest; apply keeps_ret].
Qed.

Lemma keeps_getitem v k : keeps R (getitem v k).
Proof.
  unfold getitem. destruct v; try apply keeps_raise.
  destruct (dict_get k members); [apply keeps_ret|apply keeps_raise].
Qed.

Lemma keeps_items_of v : keeps R (items_of v).
Proof. destruct v; first [apply keeps_ret|apply keeps_raise]. Qed.

Lemma keeps_copy_of v : keeps R (copy_of v).
Proof. destruct v; first [apply keeps_ret|apply keeps_raise]. Qed.

Lemma keeps_fromisoformat_value v : keeps R (fromisoformat_value v).
Proof.
  unfold fromisoformat_value. destruct v; try apply keeps_raise.
  destruct (fromisoformat P s); [apply keeps_raise|apply keeps_ret].
Qed.

Lemma keeps_search_value found v : keeps R (search_value found v).
Proof. destruct v; first [apply keeps_ret|apply keeps_raise]. Qed.

Lemma keeps_content_preview v : keeps R (content_preview v).
Proof. destruct v; first [apply keeps_ret|apply keeps_raise]. Qed.

Lemma keeps_json_load_file : keeps R json_load_file.
Proof.
  intros w. unfold json_load_file.
  destruct (queue_file w) as [[raw|raw|j]|]; apply R_refl.
Qed.

Lemma keeps_parse_send_time timestamp : keeps R (parse_send_time timestamp).
Proof.
  unfold parse_send_time.
  destruct (_ =? 14)%nat; [destruct (strptime _ _);
                           [apply keeps_ret|apply keeps_raise]|].
  destruct (_ =? 12)%nat; [destruct (strptime _ _);
                           [apply keeps_ret|apply keeps_raise]|].
  apply keeps_raise.
Qed.

Lemma keeps_timestamp_text t : keeps R (timestamp_text t).
Proof.
  unfold timestamp_text.
  destruct (posix_timestamp P t); [apply keeps_raise|apply keeps_ret].
Qed.

Lemma keeps_call a :
  (forall w, R w (with_calls (calls w ++ [a]) w)) -> keeps R (call a).
Proof.
  intros Ha w. unfold call. destruct (transport (calls w) a); apply Ha.
Qed.

(** *** Replies and recalls *)

Hypothesis R_reply :
  forall message w, R w (with_calls (calls w ++ [matcher_send message]) w).
Hypothesis R_delete :
  forall id w, R w (with_calls (calls w ++ [delete_msg id]) w).

Lemma keeps_send message : keeps R (send message).
Proof.
  unfold send. apply keeps_bind; [|intros _; apply keeps_ret].
  apply keeps_call, R_reply.
Qed.

Lemma keeps_finish A message : keeps R (@finish A message).
Proof.
  unfold finish. apply keeps_bind; [|intros _; apply keeps_raise].
  apply keeps_call, R_reply.
Qed.

Lemma keeps_render_tasks entries : forall response,
  keeps R (render_tasks response entries).
Proof.
  induction entries as [|[id info] entries IH]; intros response;
    cbn [render_tasks].
  - apply keeps_ret.
  - apply keeps_bind; [apply keeps_getitem|intros stamp].
    apply keeps_bind; [apply keeps_fromisoformat_value|intros t].
    apply keeps_bind; [apply keeps_getitem|intros group].
    apply keeps_bind; [apply keeps_getitem|intros body].
    apply keeps_bind; [apply keeps_content_preview|intros preview].
    apply IH.
Qed.

Lemma keeps_filter_by_time timestamp tasks :
  keeps R (filter_by_time timestamp tasks).
Proof.
  unfold filter_by_time.
  destruct (String.eqb timestamp EmptyString); [apply keeps_ret|].
  apply keeps_try;
    [|intros e; destruct (is_ValueError e); [apply keeps_ret|apply keeps_raise]].
  apply keeps_bind.
  - destruct (_ =? 14)%nat; [destruct (strptime _ _);
                             [apply keeps_ret|apply keeps_raise]|].
    destruct (_ =? 12)%nat; [destruct (strptime _ _);
                             [apply keeps_ret|apply keeps_raise]|].
    apply keeps_ret.
  - intros [wanted|]; [|apply keeps_ret].
    apply keeps_bind; [apply keeps_items_of|intros entries].
    apply keeps_bind; [|intros kept; apply keeps_ret].
    apply keeps_filter_items. intros info.
    apply keeps_bind; [apply keeps_getitem|intros stamp].
    apply keeps_bind; [apply keeps_fromisoformat_value|intros t].
    apply keeps_ret.
Qed.

Lemma keeps_filter_by_content content tasks :
  keeps R (filter_by_content content tasks).
Proof.
  unfold filter_by_content.
  destruct (String.eqb content EmptyString); [apply keeps_ret|].
  apply keeps_try.
  - apply keeps_bind.
    + destruct (re_compile P content); [apply keeps_raise|apply keeps_ret].
    + intros found.
      apply keeps_bind; [apply keeps_items_of|intros entries].
      apply keeps_bind; [|intros kept; apply keeps_ret].
      apply keeps_filter_items. intros info.
      apply keeps_bind; [apply keeps_getitem|intros v].
      apply keeps_search_value.
  - intros e. destruct (is_re_error e); [|apply keeps_raise].
    apply keeps_bind; [apply keeps_send|intros _; apply keeps_ret].
Qed.

Lemma keeps_filter_by_group target tasks :
  keeps R (filter_by_group target tasks).
Proof.
  unfold filter_by_group. destruct (isdigit target); [|apply keeps_ret].
  apply keeps_bind; [apply keeps_items_of|intros entries].
  apply keeps_bind; [|intros kept; apply keeps_ret].
  apply keeps_filter_items. intros info.
  apply keeps_bind; [apply keeps_getitem|intros v; apply keeps_ret].
Qed.

Lemma keeps_do_schedulemessage timestamp content target :
  keeps R (do_schedulemessage timestamp content target).
Proof.
  unfold do_schedulemessage.
  apply keeps_bind; [apply keeps_get|intros present].
  destruct (negb present); [apply keeps_send|].
  apply keeps_bind.
  - apply keeps_try.
    + apply keeps_bind; [apply keeps_json_load_file|intros q; apply keeps_ret].
    + intros e. destruct (is_JSONDecodeError e); [|apply keeps_raise].
      apply keeps_bind; [apply keeps_send|intros _; apply keeps_ret].
  - intros [queue|]; [|apply keeps_ret].
    destruct (negb (truthy queue)); [apply keeps_send|].
    apply keeps_bind; [apply keeps_copy_of|intros tasks0].
    apply keeps_bind; [apply keeps_filter_by_time|intros tasks1].
    apply keeps_bind; [apply keeps_filter_by_content|intros [tasks2|]];
      [|apply keeps_ret].
    apply keeps_bind; [apply keeps_filter_by_group|intros tasks3].
    destruct (negb (truthy tasks3)); [apply keeps_send|].
    apply keeps_bind; [apply keeps_items_of|intros entries].
    apply keeps_bind; [apply keeps_render_tasks|intros response].
    apply keeps_send.
Qed.

Lemma keeps_do_recallmessage event content :
  keeps R (do_recallmessage event content).
Proof.
  unfold do_recallmessage. apply keeps_bind.
  - destruct (reply event) as [r|]; [|apply keeps_ret].
    apply keeps_try; [|intros e; apply keeps_ret].
    apply keeps_bind; [apply keeps_call, R_delete|intros _].
    apply keeps_bind; [apply keeps_send|intros _; apply keeps_ret].
  - intros [|]; [apply keeps_ret|].
    destruct (negb (isdigit content)); [apply keeps_finish|].
    apply keeps_try; [|intros e; apply keeps_send].
    apply keeps_bind; [apply keeps_call, R_delete|intros _; apply keeps_send].
Qed.

(** The checks before the delegation only reply. *)
Lemma keeps_handle_message_by event :
  (forall command_type timestamp content target,
     accepted event = Some (command_type, timestamp, content, target) ->
     keeps R (delegate event command_type timestamp content target
                       (target_group_of target))) ->
  keeps R (handle_message event).
Proof.
  unfold accepted, handle_message.
  destruct (negb (existsb _ (admin_groups config))); [intros _; apply keeps_ret|].
  destruct (negb (is_admin (user_id event))); [intros _; apply keeps_finish|].
  cbv zeta.
  destruct (String.eqb (lower (strip (plaintext event))) "message");
    [intros _; apply keeps_finish|].
  destruct (command_fields (strip (plaintext event)))
    as [[[[ct ts] c] tg]|]; [|intros _; apply keeps_ret].
  destruct (negb (isdigit tg) && negb (String.eqb ct "schedulemessage"));
    [intros _; apply keeps_finish|].
  destruct (negb (target_group_of tg =? 0)
            && negb (existsb (Z.eqb (target_group_of tg))
                             (receiver_groups config)));
    [intros _; apply keeps_finish|].
  intros H. apply H. reflexivity.
Qed.

(** *** Deliveries *)

Lemma keeps_immediate A g message (reply_ok : Z -> M A) (failed : exn -> M A) :
  (forall w,
     R w (with_calls (calls w ++ [send_group_msg g (of_message message)]) w)) ->
  (forall id, keeps R (reply_ok id)) -> (forall e, keeps R (failed e)) ->
  keeps R (try_except
             (bind (call (send_group_msg g (of_message message))) reply_ok)
             failed).
Proof.
  intros Hd Hr Hf. apply keeps_try; [|exact Hf].
  apply keeps_bind; [apply keeps_call, Hd|exact Hr].
Qed.

Variable ok_group : Z -> Prop.
Hypothesis R_deliver :
  forall g message w, ok_group g ->
    R w (with_calls (calls w ++ [send_group_msg g message]) w).

(** A command that does not write only delivers and replies. *)
Lemma keeps_delegate_reading event command_type timestamp content target g :
  ok_group g -> writes command_type timestamp = false ->
  keeps R (delegate event command_type timestamp content target g).
Proof.
  intros Hg Hw. unfold delegate, writes in *.
  destruct (String.eqb command_type "sendmessage") eqn:E1.
  { unfold do_sendmessage. destruct (String.eqb timestamp "0") eqn:E0.
    - apply keeps_immediate;
        [intros w; apply R_deliver, Hg|intros id; apply keeps_send
        |intros e; apply keeps_send].
    - destruct (isdigit timestamp); [cbn in Hw; discriminate|apply keeps_ret]. }
  destruct (String.eqb command_type "forwardmessage") eqn:E2.
  { unfold do_forwardmessage. destruct (reply event) as [r|];
      [|apply keeps_finish].
    cbv zeta. destruct (String.eqb timestamp "0") eqn:E0.
    - apply keeps_immediate;
        [intros w; apply R_deliver, Hg|intros id; apply keeps_send
        |intros e; apply keeps_send].
    - destruct (isdigit timestamp); [cbn in Hw; discriminate|apply keeps_ret]. }
  destruct (String.eqb command_type "recallmessage");
    [apply keeps_do_recallmessage|].
  destruct (String.eqb command_type "schedulemessage");
    [apply keeps_do_schedulemessage|].
  destruct (String.eqb command_type "cancelmessage"); [|apply keeps_ret].
  unfold do_cancelmessage. cbn in Hw. rewrite Hw. apply keeps_finish.
Qed.

(** *** The store and the scheduler *)

Lemma bind_assoc A B C (m : M A) (f : A -> M B) (k : B -> M C) w :
  bind (bind m f) k w = bind m (fun a => bind (f a) k) w.
Proof. unfold bind. destruct (m w) as [[a|e] w1]; reflexivity. Qed.

Lemma keeps_ext A (m m' : M A) :
  (forall w, m w = m' w) -> keeps R m -> keeps R m'.
Proof. intros He Hm w. rewrite <- He. apply Hm. Qed.

Variable ok_job : job -> Prop.
Hypothesis ok_job_intro :
  forall id t kind content g, ok_group g ->
    ok_job {| job_id := id; run_date := t;
              job_args := (JStr kind, JStr content, JInt g, id) |}.

(** A job is registered and saved under its identifier; it is taken from
    the scheduler and from the file under one identifier. *)
Hypothesis R_register :
  forall j info, ok_job j ->
    keeps R (bind (add_job j) (fun _ => save_to_queue (job_id j) info)).
Hypothesis R_cancel :
  forall id, keeps R (bind (remove_job id) (fun _ => remove_from_queue id)).

Lemma keeps_schedule_send timestamp content g :
  ok_group g -> keeps R (schedule_send timestamp content g).
Proof.
  intros Hg. unfold schedule_send. apply keeps_try.
  - apply keeps_bind; [apply keeps_parse_send_time|intros t].
    unfold register_send.
    apply keeps_bind; [apply keeps_timestamp_text|intros stamp]. cbv zeta.
    eapply keeps_ext; [intros w; apply bind_assoc|].
    apply keeps_bind; [|intros _; apply keeps_send].
    apply (@R_register
             {| job_id := ("job_" ++ stamp ++ "_" ++ Z_str g)%string;
                run_date := t;
                job_args := (JStr "sendmessage", JStr content, JInt g,
                             ("job_" ++ stamp ++ "_" ++ Z_str g)%string) |} _).
    apply ok_job_intro, Hg.
  - intros e. unfold send_failed. destruct (is_ValueError e); apply keeps_send.
Qed.

Lemma keeps_schedule_forward timestamp message g :
  ok_group g -> keeps R (schedule_forward timestamp message g).
Proof.
  intros Hg. unfold schedule_forward. apply keeps_try.
  - apply keeps_bind; [apply keeps_parse_send_time|intros t].
    unfold register_forward.
    apply keeps_bind; [apply keeps_timestamp_text|intros stamp]. cbv zeta.
    eapply keeps_ext; [intros w; apply bind_assoc|].
    apply keeps_bind; [|intros _; apply keeps_send].
    apply (@R_register
             {| job_id := ("job_forward_" ++ stamp ++ "_" ++ Z_str g)%string;
                run_date := t;
                job_args := (JStr "forwardmessage",
                             JStr (str_of_Message P message), JInt g,
                             ("job_forward_" ++ stamp ++ "_" ++ Z_str g)%string) |} _).
    apply ok_job_intro, Hg.
  - intros e. unfold forward_failed.
    destruct (is_ValueError e); apply keeps_send.
Qed.

Lemma keeps_do_cancelmessage timestamp content :
  keeps R (do_cancelmessage timestamp content).
Proof.
  unfold do_cancelmessage.
  destruct (negb (String.eqb timestamp "-1")); [apply keeps_finish|].
  cbv zeta. apply keeps_try; [|intros e; apply keeps_send].
  eapply keeps_ext; [intros w; apply bind_assoc|].
  apply keeps_bind; [apply R_cancel|intros _; apply keeps_send].
Qed.

Lemma keeps_delegate event command_type timestamp content target g :
  ok_group g ->
  keeps R (delegate event command_type timestamp content target g).
Proof.
  intros Hg. unfold delegate.
  destruct (String.eqb command_type "sendmessage").
  { unfold do_sendmessage. destruct (String.eqb timestamp "0").
    - apply keeps_immediate;
        [intros w; apply R_deliver, Hg|intros id; apply keeps_send
        |intros e; apply keeps_send].
    - destruct (isdigit timestamp);
        [apply keeps_schedule_send, Hg|apply keeps_ret]. }
  destruct (String.eqb command_type "forwardmessage").
  { unfold do_forwardmessage. destruct (reply event) as [r|];
      [|apply keeps_finish].
    cbv zeta. destruct (String.eqb timestamp "0").
    - apply keeps_immediate;
        [intros w; apply R_deliver, Hg|intros id; apply keeps_send
        |intros e; apply keeps_send].
    - destruct (isdigit timestamp);
        [apply keeps_schedule_forward, Hg|apply keeps_ret]. }
  destruct (String.eqb command_type "recallmessage");
    [apply keeps_do_recallmessage|].
  destruct (String.eqb command_type "schedulemessage");
    [apply keeps_do_schedulemessage|].
  destruct (String.eqb command_type "cancelmessage");
    [apply keeps_do_cancelmessage|apply keeps_ret].
Qed.

Lemma keeps_handle_message event :
  (forall g, receiver_or_zero g -> ok_group g) ->
  keeps R (handle_message event).
Proof.
  intros Hok. apply keeps_handle_message_by.
  intros ct ts c tg Ha. apply keeps_delegate, Hok.
  exact (accepted_target _ Ha).
Qed.

End Frame.

(** The steps on the scheduler and on the file, one at a time. *)
Section Steps.

Variable R : World -> World -> Prop.
Hypothesis R_refl : forall w, R w w.
Hypothesis R_trans : forall a b c, R a b -> R b c -> R a c.
Variable ok_job : job -> Prop.
Hypothesis R_file : forall f w, R w (with_queue_file f w).
Hypothesis R_add :
  forall j w, ok_job j ->
    R w (with_scheduler_jobs (scheduler_jobs w ++ [j]) w).
Hypothesis R_remove :
  forall id w,
    R w (with_scheduler_jobs
           (filter (fun j => negb (String.eqb (job_id j) id))
                   (scheduler_jobs w)) w).

Lemma keeps_register j info :
  ok_job j ->
  keeps R (bind (add_job j) (fun _ => save_to_queue (job_id j) info)).
Proof.
  intros Hj w. unfold bind, add_job.
  destruct (has_job (job_id j) (scheduler_jobs w)); cbn [snd];
    [apply R_refl|].
  rewrite save_to_queue_run. cbn [queue_file with_scheduler_jobs].
  destruct (read_failure (queue_file w)); cbn [snd]; [apply R_add, Hj|].
  eapply R_trans; [apply R_add, Hj|apply R_file].
Qed.

Lemma keeps_cancel id :
  keeps R (bind (remove_job id) (fun _ => remove_from_queue id)).
Proof.
  intros w. unfold bind, remove_job.
  destruct (has_job id (scheduler_jobs w)); cbn [snd]; [|apply R_refl].
  rewrite remove_from_queue_world. unfold removed.
  eapply R_trans; [apply R_remove|].
  cbn [queue_file with_scheduler_jobs].
  destruct (unusable (queue_file w)); [apply R_refl|].
  destruct (dict_mem id (stored (queue_file w))); [|apply R_refl].
  apply (R_file _ (with_scheduler_jobs _ w)).
Qed.

End Steps.

Lemma unchanged_refl w : unchanged w w.
Proof. split; reflexivity. Qed.

Lemma unchanged_trans a b c : unchanged a b -> unchanged b c -> unchanged a c.
Proof. intros [H1 H2] [H3 H4]. split; congruence. Qed.

Lemma unchanged_call a w : unchanged w (with_calls (calls w ++ [a]) w).
Proof. split; reflexivity. Qed.

(** X9: for an event whose text is made of ASCII characters, a command
    that is neither a scheduling nor a cancellation, and an event that
    the checks turn away, leave the queue file and the registrations of
    the scheduler as they were. *)
Theorem reading_commands_leave_store (event : Event) (w : World) :
  ascii_text (plaintext event) = true ->
  store_command event = false ->
  unchanged w (snd (handle_message event w)).
Proof.
  intros _ Hs. revert w. change (keeps unchanged (handle_message event)).
  apply keeps_handle_message_by;
    try first [exact unchanged_refl | exact unchanged_trans
              | intros; apply unchanged_call].
  intros ct ts c tg Ha. unfold store_command in Hs. rewrite Ha in Hs.
  apply keeps_delegate_reading with (ok_group := fun _ => True);
    try first [exact unchanged_refl | exact unchanged_trans | exact I
              | exact Hs | intros; apply unchanged_call].
Qed.

Lemma delivers_refl w : delivers_to_receivers w w.
Proof. exists []. split; [symmetry; apply app_nil_r|constructor]. Qed.

Lemma delivers_trans a b c :
  delivers_to_receivers a b -> delivers_to_receivers b c ->
  delivers_to_receivers a c.
Proof.
  intros [l1 [H1 F1]] [l2 [H2 F2]]. exists (l1 ++ l2)%list. split.
  - rewrite H2, H1. symmetry. apply app_assoc.
  - apply Forall_app. split; assumption.
Qed.

Lemma delivers_call a w :
  to_receivers a -> delivers_to_receivers w (with_calls (calls w ++ [a]) w).
Proof. intros Ha. exists [a]. split; [reflexivity|repeat constructor; exact Ha]. Qed.

Lemma delivers_same_calls w w' :
  calls w' = calls w -> delivers_to_receivers w w'.
Proof. intros H. exists []. split; [rewrite H; symmetry; apply app_nil_r|constructor]. Qed.

(** X10: whatever the event, the handler delivers to no group other than
    the receiver groups and the group written 0: the calls it adds to the
    trace are replies, recalls, and deliveries to such a group. *)
Theorem handle_message_delivers_to_receivers (event : Event) (w : World) :
  delivers_to_receivers w (snd (handle_message event w)).
Proof.
  revert w. change (keeps delivers_to_receivers (handle_message event)).
  apply keeps_handle_message
    with (ok_group := receiver_or_zero) (ok_job := fun _ => True);
    try first [exact delivers_refl | exact delivers_trans
              | intros; apply delivers_call; first [exact I | assumption]
              | intros; exact I | intros; assumption].
  - intros j info _. apply keeps_register with (ok_job := fun _ => True);
      try first [exact delivers_refl | exact delivers_trans | exact I
                | intros; apply delivers_same_calls; reflexivity].
  - intros id. apply keeps_cancel;
      try first [exact delivers_refl | exact delivers_trans
                | intros; apply delivers_same_calls; reflexivity].
Qed.

Lemma registers_refl w : registers_handler_jobs w w.
Proof. intros j Hj. left. exact Hj. Qed.

Lemma registers_trans a b c :
  registers_handler_jobs a b -> registers_handler_jobs b c ->
  registers_handler_jobs a c.
Proof.
  intros H1 H2 j Hj. destruct (H2 j Hj) as [Hb|Hh]; [|right; exact Hh].
  apply H1, Hb.
Qed.

Lemma registers_same_jobs w w' :
  scheduler_jobs w' = scheduler_jobs w -> registers_handler_jobs w w'.
Proof. intros H j Hj. left. rewrite <- H. exact Hj. Qed.

(** X11: every job that is registered after the handler ran was
    registered before, or is of the handler's making: its arguments are a
    kind, a content, a group that is a receiver group or 0, and the job's
    own identifier. *)
Theorem handle_message_registers_handler_jobs (event : Event) (w : World) :
  registers_handler_jobs w (snd (handle_message event w)).
Proof.
  assert (forall j w0, handler_job j ->
            registers_handler_jobs
              w0 (with_scheduler_jobs (scheduler_jobs w0 ++ [j]) w0)) as Hadd.
  { intros j w0 Hj j' Hin. cbn in Hin. apply in_app_or in Hin.
    destruct Hin as [Hin|[<-|[]]]; [left; exact Hin|right; exact Hj]. }
  assert (forall id w0,
            registers_handler_jobs
              w0 (with_scheduler_jobs
                    (filter (fun j => negb (String.eqb (job_id j) id))
                            (scheduler_jobs w0)) w0)) as Hdel.
  { intros id w0 j Hin. cbn in Hin. apply filter_In in Hin. left. apply Hin. }
  revert w. change (keeps registers_handler_jobs (handle_message event)).
  apply keeps_handle_message
    with (ok_group := receiver_or_zero) (ok_job := handler_job);
    try first [exact registers_refl | exact registers_trans
              | intros; apply registers_same_jobs; reflexivity
              | intros; assumption].
  - intros id t kind content g Hg. exists kind, content, g.
    split; [reflexivity|exact Hg].
  - intros j info Hj. apply keeps_register with (ok_job := handler_job);
      try first [exact registers_refl | exact registers_trans | exact Hj
                | exact Hadd
                | intros; apply registers_same_jobs; reflexivity].
  - intros id. apply keeps_cancel;
      try first [exact registers_refl | exact registers_trans | exact Hdel
                | intros; apply registers_same_jobs; reflexivity].
Qed.

Lemma has_job_filter id id' js :
  has_job id' (filter (fun j => negb (String.eqb (job_id j) id)) js) = true ->
  id' <> id /\ has_job id' js = true.
Proof.
  unfold has_job. intros H. apply existsb_exists in H as (j & Hj & Hid).
  apply filter_In in Hj as [Hj Hne]. apply String.eqb_eq in Hid. subst id'.
  split.
  - intros <-. rewrite String.eqb_refl in Hne. discriminate.
  - apply existsb_exists. exists j. split; [exact Hj|apply String.eqb_refl].
Qed.

Lemma records_same w w' :
  queue_file w' = queue_file w -> scheduler_jobs w' = scheduler_jobs w ->
  not_text (queue_file w) = false /\ registered_are_stored w ->
  not_text (queue_file w') = false /\ registered_are_stored w'.
Proof. unfold registered_are_stored. intros -> ->. exact (fun H => H). Qed.

Lemma records_register j info w :
  not_text (queue_file w) = false /\ registered_are_stored w ->
  let w' := snd (bind (add_job j) (fun _ => save_to_queue (job_id j) info) w) in
  not_text (queue_file w') = false /\ registered_are_stored w'.
Proof.
  intros [Ht Hw]. cbv zeta. unfold bind, add_job.
  destruct (has_job (job_id j) (scheduler_jobs w)); cbn [snd];
    [split; assumption|].
  rewrite save_to_queue_run. cbn [queue_file with_scheduler_jobs].
  rewrite (read_failure_text _ Ht).
  cbn [snd queue_file scheduler_jobs with_queue_file with_scheduler_jobs].
  split; [reflexivity|]. intros id.
  cbn [snd queue_file scheduler_jobs with_queue_file with_scheduler_jobs].
  rewrite has_job_app, stored_written by apply NoDup_dict_set, stored_NoDup.
  intros Hid. apply dict_mem_In. rewrite keys_loaded. apply keys_dict_set.
  apply orb_true_iff in Hid as [Hid|Hid].
  - right. apply dict_mem_In, Hw, Hid.
  - left. unfold has_job in Hid. cbn in Hid. rewrite orb_false_r in Hid.
    apply String.eqb_eq in Hid. symmetry. exact Hid.
Qed.

Lemma records_cancel id w :
  not_text (queue_file w) = false /\ registered_are_stored w ->
  let w' := snd (bind (remove_job id) (fun _ => remove_from_queue id) w) in
  not_text (queue_file w') = false /\ registered_are_stored w'.
Proof.
  intros [Ht Hw]. cbv zeta. unfold bind, remove_job.
  destruct (has_job id (scheduler_jobs w)); cbn [snd]; [|split; assumption].
  split.
  - rewrite remove_from_queue_world. unfold removed.
    cbn [queue_file with_scheduler_jobs].
    destruct (unusable (queue_file w)); [exact Ht|].
    destruct (dict_mem id (stored (queue_file w))); [reflexivity|exact Ht].
  - intros id'. rewrite removed_stored.
    destruct (remove_from_queue_fields id
                (with_scheduler_jobs
                   (filter (fun j => negb (String.eqb (job_id j) id))
                           (scheduler_jobs w)) w)) as [Hj _].
    cbv zeta in Hj. rewrite Hj.
    cbn [queue_file scheduler_jobs with_scheduler_jobs].
    intros Hid. apply has_job_filter in Hid as [Hne Hid].
    unfold dict_mem. rewrite dict_get_del_other by exact Hne.
    apply Hw, Hid.
Qed.


(** ** Startup, whatever the file holds *)

Lemma reload_job_adds entry w :
  exists added,
    snd (reload_job entry w)
    = with_scheduler_jobs (scheduler_jobs w ++ added) w /\
    Forall (fun j => registration (now w) entry = [j]) added.
Proof.
  assert (exists added : list job,
            w = with_scheduler_jobs (scheduler_jobs w ++ added) w /\
            Forall (fun j => registration (now w) entry = [j]) added) as Hnone.
  { exists []. split; [|constructor].
    rewrite app_nil_r, with_scheduler_jobs_same. reflexivity. }
  destruct entry as [id info].
  unfold reload_job, registration, stored_job in *. cbn [fst snd] in *.
  unfold getitem, fromisoformat_value, get, add_job; unfold bind, ret, raise.
  destruct info as [| | | | |d]; try exact Hnone.
  destruct (dict_get "timestamp" d) as [[| | |stamp| |]|]; try exact Hnone.
  destruct (fromisoformat P stamp) as [e|t]; [exact Hnone|].
  cbn [fst snd] in *. cbv beta in *.
  destruct (datetime_gt t (now w)) eqn:Egt; [|exact Hnone].
  destruct (dict_get "type" d) as [kind|]; [|exact Hnone].
  destruct (dict_get "content" d) as [content|]; [|exact Hnone].
  destruct (dict_get "target_group" d) as [target|]; [|exact Hnone].
  cbn [job_id].
  destruct (has_job id (scheduler_jobs w)); [exact Hnone|]. cbn [snd].
  eexists. split; [reflexivity|]. cbn. rewrite Egt. repeat constructor.
Qed.

Lemma reload_jobs_add queue : forall w,
  exists added,
    snd (for_each queue reload_job w)
    = with_scheduler_jobs (scheduler_jobs w ++ added) w /\
    Forall (fun j => exists entry,
                In entry queue /\ registration (now w) entry = [j]) added.
Proof.
  induction queue as [|entry queue IH]; intros w; cbn [for_each].
  - exists []. split; [|constructor]. cbn.
    rewrite app_nil_r, with_scheduler_jobs_same. reflexivity.
  - destruct (reload_job_adds entry w) as (a1 & H1 & F1).
    unfold bind. destruct (reload_job entry w) as [[[]|e] w1]; cbn [snd] in *.
    + destruct (IH w1) as (a2 & H2 & F2). exists (a1 ++ a2)%list. split.
      * rewrite H2, H1. cbn [scheduler_jobs with_scheduler_jobs].
        rewrite app_assoc. reflexivity.
      * apply Forall_app. split.
        -- eapply Forall_impl; [|exact F1]. intros j Hj.
           exists entry. split; [left; reflexivity|exact Hj].
        -- eapply Forall_impl; [|exact F2]. intros j (en & Hin & Hj).
           exists en. split; [right; exact Hin|].
           rewrite H1 in Hj. exact Hj.
    + exists a1. split; [exact H1|].
      eapply Forall_impl; [|exact F1]. intros j Hj.
      exists entry. split; [left; reflexivity|exact Hj].
Qed.

(** X13: whatever the queue file holds, and whether the reconciliation
    returns or raises, it leaves the queue file as it is, makes no call,
    and only adds to the scheduler, after the jobs that were registered:
    every job it adds is the registration due to a record of the file,
    under the identifier of that record. *)
Theorem on_startup_only_registers (w : World) :
  let w' := snd (on_startup w) in
  queue_file w' = queue_file w /\ calls w' = calls w /\
  exists added,
    scheduler_jobs w' = (scheduler_jobs w ++ added)%list /\
    Forall (reloaded_from w) added.
Proof.
  cbv zeta.
  assert (forall w0, w0 = w ->
            queue_file w0 = queue_file w /\ calls w0 = calls w /\
            exists added,
              scheduler_jobs w0 = (scheduler_jobs w ++ added)%list /\
              Forall (reloaded_from w) added) as Hnone.
  { intros w0 ->. repeat split. exists []. split; [|constructor].
    rewrite app_nil_r. reflexivity. }
  destruct (unusable (queue_file w)) eqn:Hu.
  { rewrite on_startup_unusable by exact Hu. apply Hnone. reflexivity. }
  destruct (read_failure (queue_file w)) as [e|] eqn:Hr.
  { rewrite (on_startup_not_text _ Hr). apply Hnone. reflexivity. }
  destruct (reload_jobs_add (stored (queue_file w)) w) as (added & Hrun & Hall).
  assert (snd (on_startup w) = snd (for_each (stored (queue_file w)) reload_job w))
    as ->.
  { revert Hu Hr. unfold on_startup, stored, unusable.
    destruct w as [[[raw|raw|j]|] js cs t b]; cbn [queue_file read_failure];
      try discriminate. intros Hu _. revert Hu.
    unfold bind at 1, file_exists, get. cbn [queue_file].
    unfold try_except, bind at 1, json_load_file. cbn [queue_file].
    destruct (json_load j) as [| | | | |d]; try discriminate. intros _.
    destruct (for_each d reload_job _) as [[[]|e] w1]; [reflexivity|].
    destruct (is_JSONDecodeError e); reflexivity. }
  rewrite Hrun. cbn [queue_file calls scheduler_jobs with_scheduler_jobs].
  repeat split. exists added. split; [reflexivity|].
  eapply Forall_impl; [|exact Hall]. intros j ([id info] & Hin & Hj).
  assert (job_id j = id) as Hid.
  { apply (@registration_ids (now w) (id, info) j). rewrite Hj. left. reflexivity. }
  exists info. rewrite Hid. split; assumption.
Qed.

Lemma for_each_app A (body : A -> M unit) l1 l2 w :
  for_each (l1 ++ l2) body w
  = bind (for_each l1 body) (fun _ => for_each l2 body) w.
Proof.
  revert w. induction l1 as [|a l1 IH]; intros w; cbn [for_each app].
  - reflexivity.
  - unfold bind. destruct (body a w) as [[[]|e] w1]; [|reflexivity].
    rewrite IH. reflexivity.
Qed.

Lemma on_startup_usable w :
  unusable (queue_file w) = false ->
  not_text (queue_file w) = false ->
  on_startup w
  = try_except (for_each (stored (queue_file w)) reload_job)
               (fun e => if is_JSONDecodeError e then ret tt else raise e) w.
Proof.
  unfold on_startup, stored, unusable.
  destruct w as [[[raw|raw|j]|] js cs t b]; cbn [queue_file not_text];
    try discriminate. intros Hu _. revert Hu.
  unfold bind at 1, file_exists, get. cbn [queue_file].
  unfold try_except, bind at 1, json_load_file. cbn [queue_file].
  destruct (json_load j) as [| | | | |d]; try discriminate. reflexivity.
Qed.


(** ** The listing *)

Lemma listed_job_inv info t content target_group :
  listed_job info = Some (t, content, target_group) ->
  exists d stamp,
    info = JObj d /\
    dict_get "timestamp" d = Some (JStr stamp) /\
    fromisoformat P stamp = inr t /\
    dict_get "content" d = Some (JStr content) /\
    dict_get "target_group" d = Some target_group.
Proof.
  unfold listed_job. destruct info as [| | | | |d]; try discriminate.
  destruct (dict_get "timestamp" d) as [[| | |stamp| |]|] eqn:E1;
    try discriminate.
  destruct (dict_get "content" d) as [[| | |c| |]|] eqn:E2; try discriminate.
  destruct (dict_get "target_group" d) as [g|] eqn:E3; [|discriminate].
  destruct (fromisoformat P stamp) as [e|t'] eqn:E; [discriminate|].
  intros [= -> -> ->]. exists d, stamp. repeat split; assumption.
Qed.

Lemma filter_items_pure keep (p : json -> bool) d w :
  (forall entry, In entry d -> keep (snd entry) w = (Return (p (snd entry)), w)) ->
  filter_items keep d w = (Return (filter (fun e => p (snd e)) d), w).
Proof.
  induction d as [|[k info] d IH]; intros H; cbn [filter_items filter].
  - reflexivity.
  - unfold bind. pose proof (H (k, info) (or_introl eq_refl)) as Hk.
    cbn [snd] in Hk. rewrite Hk.
    rewrite IH by (intros entry He; apply H; right; exact He).
    cbn [snd]. unfold ret. destruct (p info); reflexivity.
Qed.

Lemma bind_return A B (m : M A) (k : A -> M B) a w w' :
  m w = (Return a, w') -> bind m k w = k a w'.
Proof. intros H. unfold bind. rewrite H. reflexivity. Qed.

Lemma filter_all A (l : list A) : filter (fun _ => true) l = l.
Proof. induction l as [|a l IH]; cbn; [reflexivity|rewrite IH; reflexivity]. Qed.

Lemma filter_filter A (f g : A -> bool) l :
  filter g (filter f l) = filter (fun x => f x && g x) l.
Proof.
  induction l as [|a l IH]; cbn; [reflexivity|].
  destruct (f a); cbn; [|exact IH]. destruct (g a); rewrite IH; reflexivity.
Qed.

Section Listed.

Variable d : dict json.
Hypothesis all_listed :
  forall entry, In entry d -> listed_job (snd entry) <> None.

Lemma listed_sub (f : string * json -> bool) entry :
  In entry (filter f d) -> listed_job (snd entry) <> None.
Proof. intros H. apply filter_In in H. apply all_listed, H. Qed.

Lemma keep_time_run wanted w :
  filter_items
    (fun info =>
       stamp <- getitem info "timestamp" ;;
       t <- fromisoformat_value stamp ;;
       ret (datetime_eq t wanted))
    d w
  = (Return (filter (fun e => match listed_job (snd e) with
                              | Some (t, _, _) => datetime_eq t wanted
                              | None => false
                              end) d), w).
Proof.
  apply (@filter_items_pure _
           (fun info => match listed_job info with
                        | Some (t, _, _) => datetime_eq t wanted
                        | None => false
                        end)).
  intros entry Hin.
  destruct (listed_job (snd entry)) as [[[t c] g]|] eqn:E;
    [|exfalso; exact (all_listed _ Hin E)].
  apply listed_job_inv in E as (m & stamp & -> & H1 & H2 & _).
  unfold getitem, fromisoformat_value; unfold bind, ret.
  rewrite H1, H2. reflexivity.
Qed.

Lemma filter_by_time_run timestamp w :
  filter_by_time timestamp (JObj d) w
  = (Return (JObj (filter (fun e => time_selected timestamp (snd e)) d)), w).
Proof.
  unfold filter_by_time, time_selected, requested_time.
  destruct (String.eqb_spec timestamp EmptyString) as [->|Hne].
  { cbn. rewrite filter_all. reflexivity. }
  unfold try_except, items_of.
  destruct (String.length timestamp =? 14)%nat.
  { destruct (strptime timestamp fmt_YmdHMS) as [wanted|].
    - erewrite bind_return by reflexivity. cbv beta iota.
      erewrite bind_return by reflexivity. cbv beta iota.
      erewrite bind_return by apply keep_time_run. reflexivity.
    - cbn. rewrite filter_all. reflexivity. }
  destruct (String.length timestamp =? 12)%nat.
  { destruct (strptime timestamp fmt_YmdHM) as [wanted|].
    - erewrite bind_return by reflexivity. cbv beta iota.
      erewrite bind_return by reflexivity. cbv beta iota.
      erewrite bind_return by apply keep_time_run. reflexivity.
    - cbn. rewrite filter_all. reflexivity. }
  cbn. rewrite filter_all. reflexivity.
Qed.

Lemma keep_content_run found w :
  filter_items
    (fun info => v <- getitem info "content" ;; search_value found v) d w
  = (Return (filter (fun e => content_selected found (snd e)) d), w).
Proof.
  apply (@filter_items_pure _ (content_selected found)).
  intros entry Hin. unfold content_selected.
  destruct (listed_job (snd entry)) as [[[t c] g]|] eqn:E;
    [|exfalso; exact (all_listed _ Hin E)].
  apply listed_job_inv in E as (m & stamp & -> & _ & _ & H3 & _).
  unfold getitem, search_value; unfold bind, ret.
  rewrite H3. reflexivity.
Qed.

Lemma filter_by_content_run content found w :
  content_filter content = Some found ->
  filter_by_content content (JObj d) w
  = (Return (Some (JObj (filter (fun e => content_selected found (snd e)) d))),
     w).
Proof.
  unfold filter_by_content, content_filter.
  destruct (String.eqb content EmptyString).
  { intros [= <-]. unfold ret, content_selected.
    assert (filter (fun e : string * json =>
                      match listed_job (snd e) with
                      | Some (_, _, _) => true
                      | None => false
                      end) d = d) as ->; [|reflexivity].
    transitivity (filter (fun _ : string * json => true) d);
      [|apply filter_all].
    apply filter_ext_in. intros entry Hin.
    destruct (listed_job (snd entry)) as [[[t c] g]|] eqn:E;
      [reflexivity|exfalso; exact (all_listed _ Hin E)]. }
  destruct (re_compile P content) as [e|f]; [discriminate|].
  intros [= ->]. unfold try_except, items_of.
  erewrite bind_return by reflexivity. cbv beta iota.
  erewrite bind_return by reflexivity. cbv beta iota.
  erewrite bind_return by apply keep_content_run. reflexivity.
Qed.

Lemma keep_group_run n w :
  filter_items
    (fun info => v <- getitem info "target_group" ;; ret (eq_int v n)) d w
  = (Return (filter (fun e => match listed_job (snd e) with
                              | Some (_, _, g) => eq_int g n
                              | None => false
                              end) d), w).
Proof.
  apply (@filter_items_pure _
           (fun info => match listed_job info with
                        | Some (_, _, g) => eq_int g n
                        | None => false
                        end)).
  intros entry Hin.
  destruct (listed_job (snd entry)) as [[[t c] g]|] eqn:E;
    [|exfalso; exact (all_listed _ Hin E)].
  apply listed_job_inv in E as (m & stamp & -> & _ & _ & _ & H4).
  unfold getitem; unfold bind, ret.
  rewrite H4. reflexivity.
Qed.

Lemma filter_by_group_run target w :
  filter_by_group target (JObj d) w
  = (Return (JObj (filter (fun e => group_selected target (snd e)) d)), w).
Proof.
  unfold filter_by_group, group_selected.
  destruct (isdigit target).
  2:{ unfold ret. rewrite filter_all. reflexivity. }
  cbv zeta. unfold items_of.
  erewrite bind_return by reflexivity. cbv beta iota.
  erewrite bind_return by apply keep_group_run. reflexivity.
Qed.

Lemma render_tasks_run : forall response w,
  render_tasks response d w = (Return (response ++ lines_of d), w).
Proof.
  revert all_listed. induction d as [|[id info] rest IH];
    intros Hall response w; cbn [render_tasks lines_of].
  - rewrite string_app_nil_r. reflexivity.
  - destruct (listed_job info) as [[[t c] g]|] eqn:E;
      [|exfalso; exact (Hall (id, info) (or_introl eq_refl) E)].
    pose proof E as E'.
    apply listed_job_inv in E as (m & stamp & -> & H1 & H2 & H3 & H4).
    unfold getitem, fromisoformat_value, content_preview; unfold bind, ret.
    rewrite H1, H2, H4, H3.
    rewrite IH by (intros entry He; apply Hall; right; exact He).
    unfold task_lines. cbn [fst snd]. rewrite E'.
    rewrite string_app_assoc. reflexivity.
Qed.

End Listed.

Lemma json_load_file_usable w :
  stored (queue_file w) <> [] ->
  file_exists w = (Return true, w) /\
  json_load_file w = (Return (JObj (stored (queue_file w))), w).
Proof.
  unfold file_exists, json_load_file, stored, get.
  destruct (queue_file w) as [[raw|raw|j]|]; try congruence.
  destruct (json_load j); try congruence. split; reflexivity.
Qed.


(** ** Immediate commands and recalls *)

Lemma immediate_calls g message (told : Z -> string) (failed : exn -> string) w :
  exists replies,
    calls (snd (try_except
                  (bind (call (send_group_msg g message))
                        (fun id => send (told id)))
                  (fun e => send (failed e)) w))
    = (calls w ++ send_group_msg g message :: replies)%list /\
    Forall is_reply replies /\
    (List.length replies = 1 \/ List.length replies = 2)%nat.
Proof.
  unfold try_except, bind at 1, call at 1.
  destruct (transport (calls w) (send_group_msg g message)) as [e|id].
  - rewrite send_run. cbn [snd calls with_calls].
    exists [matcher_send (failed e)]. rewrite <- app_assoc.
    repeat split; [repeat constructor|left; reflexivity].
  - rewrite send_run. cbn [calls with_calls].
    destruct (transport _ (matcher_send (told id))) as [e|id'].
    + rewrite send_run. cbn [snd calls with_calls].
      exists [matcher_send (told id); matcher_send (failed e)].
      rewrite <- !app_assoc.
      repeat split; [repeat constructor|right; reflexivity].
    + cbn [snd calls with_calls]. exists [matcher_send (told id)].
      rewrite <- app_assoc.
      repeat split; [repeat constructor|left; reflexivity].
Qed.

(** X16: a sendmessage command with the timestamp 0, and a
    forwardmessage command with the timestamp 0 that replies to a
    message, deliver to the target group exactly once and before anything
    else, whatever the platform answers: the delivery is followed by one
    reply, or by two when the reply that reports the delivery fails, and
    is never attempted again. *)
Theorem immediate_command_delivers_once
    (event : Event) (command_type content target : string) (message : payload)
    (w : World) :
  accepted event = Some (command_type, "0", content, target) ->
  immediate_payload event command_type content = Some message ->
  exists replies,
    calls (snd (handle_message event w))
    = (calls w ++ send_group_msg (target_group_of target) message :: replies)%list /\
    Forall is_reply replies /\
    (List.length replies = 1 \/ List.length replies = 2)%nat.
Proof.
  intros Ha Hp. rewrite (handle_message_accepted _ Ha).
  unfold delegate, immediate_payload in *.
  destruct (String.eqb command_type "sendmessage").
  - injection Hp as <-. unfold do_sendmessage.
    cbn [String.eqb Ascii.eqb Bool.eqb]. apply immediate_calls.
  - destruct (String.eqb command_type "forwardmessage"); [|discriminate].
    unfold do_forwardmessage. destruct (reply event) as [r|]; [|discriminate].
    injection Hp as <-. cbv zeta.
    cbn [String.eqb Ascii.eqb Bool.eqb]. apply immediate_calls.
Qed.

(** X17: a recall that replies to a message recalls that message first.
    When the platform accepts the recall and the reply that reports it,
    the handler is done, and the content field is not looked at.  When
    the platform accepts the recall and refuses the reply that reports
    it, the handler goes on as if the command replied to no message: it
    reads the content field as the MessageID to recall. *)
Theorem recall_by_reply
    (event : Event) (r : Reply) (content : string) (message_id : Z) (w : World) :
  reply event = Some r ->
  transport (calls w) (delete_msg (reply_message_id r)) = inr message_id ->
  let told := matcher_send ("Message " ++ Z_str (reply_message_id r)
                            ++ " has been recalled.") in
  let w' := with_calls (calls w ++ [delete_msg (reply_message_id r); told]) w in
  do_recallmessage event content w
  = match transport (calls w ++ [delete_msg (reply_message_id r)]) told with
    | inr _ => (Return tt, w')
    | inl _ => do_recallmessage (without_reply event) content w'
    end.
Proof.
  intros Hr Hd. cbv zeta. unfold do_recallmessage at 1. rewrite Hr.
  unfold bind at 1, try_except at 1, bind at 1, call at 1. rewrite Hd.
  unfold bind at 1. rewrite send_run. cbn [calls with_calls].
  rewrite <- app_assoc. cbn [app].
  destruct (transport _ (matcher_send _)) as [e|id].
  - unfold ret at 1. unfold do_recallmessage, without_reply. cbn [reply].
    unfold bind at 3, ret at 2. reflexivity.
  - reflexivity.
Qed.

(** ** The configuration file *)

Lemma split_comma_single x : no_comma x = true -> split_comma x = [x].
Proof.
  induction x as [|c x IH]; cbn; [reflexivity|].
  destruct (Ascii.eqb c ","); [discriminate|]. cbn. intros H.
  rewrite IH by exact H. reflexivity.
Qed.

Lemma split_comma_app x rest :
  no_comma x = true ->
  split_comma (x ++ String "," rest) = x :: split_comma rest.
Proof.
  induction x as [|c x IH]; cbn; [reflexivity|].
  destruct (Ascii.eqb c ","); [discriminate|]. cbn. intros H.
  rewrite IH by exact H. reflexivity.
Qed.

Lemma split_comma_join items :
  items <> [] -> forallb no_comma items = true ->
  split_comma (join_comma items) = items.
Proof.
  induction items as [|x items IH]; [congruence|]. intros _ H.
  cbn [forallb] in H. apply andb_true_iff in H as [Hx Hi].
  cbn [join_comma]. destruct items as [|y items].
  - apply split_comma_single, Hx.
  - rewrite split_comma_app by exact Hx. rewrite IH; [reflexivity|discriminate|exact Hi].
Qed.

Lemma parse_id_list_join int_of_str items :
  forallb no_comma items = true ->
  parse_id_list int_of_str (join_comma items) = int_items int_of_str items.
Proof.
  intros H. unfold parse_id_list. destruct items as [|x items]; [reflexivity|].
  destruct (String.eqb_spec (join_comma (x :: items)) EmptyString) as [E|_].
  - pose proof (@split_comma_join (x :: items)) as Hs.
    rewrite E in Hs. cbn [split_comma] in Hs.
    rewrite <- Hs; [reflexivity|discriminate|exact H].
  - rewrite split_comma_join; [reflexivity|discriminate|exact H].
Qed.

Lemma int_items_readings int_of_str items readings :
  Forall2 (reads int_of_str) items readings ->
  int_items int_of_str items = inr (readings_list readings).
Proof.
  induction 1 as [|item reading items readings [_ Hr] _ IH]; [reflexivity|].
  cbn [int_items readings_list flat_map]. destruct reading as [n|].
  - destruct Hr as [Hne Hn].
    destruct (String.eqb_spec (strip item) EmptyString); [contradiction|].
    rewrite Hn, IH. reflexivity.
  - rewrite Hr. cbn. exact IH.
Qed.

(** X18: the value of a list option is read item by item: when it is
    made of items without comma, written with commas between them, each
    of them blank or stripped to a text that int reads as a number, the
    list loaded is the numbers of the items that are not blank, in the
    order of the file. *)
Theorem parse_id_list_reads_items
    (int_of_str : string -> exn + Z) (items : list string)
    (readings : list (option Z)) :
  Forall2 (reads int_of_str) items readings ->
  parse_id_list int_of_str (join_comma items) = inr (readings_list readings).
Proof.
  intros H. rewrite parse_id_list_join.
  - apply int_items_readings, H.
  - clear - H. induction H as [|item reading items readings [Hc _] _ IH];
      [reflexivity|]. cbn [forallb]. rewrite Hc, IH. reflexivity.
Qed.

Lemma int_items_blank int_of_str parts :
  forallb (fun g => String.eqb (strip g) EmptyString) parts = true ->
  int_items int_of_str parts = inr [].
Proof.
  induction parts as [|g parts IH]; [reflexivity|]. cbn [forallb int_items].
  intros H. apply andb_true_iff in H as [Hg Hp]. rewrite Hg. apply IH, Hp.
Qed.

(** X19: when the configuration in force was loaded from a file whose
    admin option is missing, empty, or holds nothing but commas and
    whitespace, every user is an admin. *)
Theorem blank_admin_option_admits_everyone
    (int_of_str : string -> exn + Z) (file : option ini) (user : Z) :
  fst (_load_config int_of_str file) = inr config ->
  blank_items (admin_option file) = true ->
  is_admin user = true.
Proof.
  intros Hload Hblank.
  assert (admins config = []) as Ha; [|unfold is_admin; rewrite Ha; reflexivity].
  assert (forall s, blank_items s = true -> parse_id_list int_of_str s = inr [])
    as Hlist.
  { intros s Hs. unfold parse_id_list.
    destruct (String.eqb s EmptyString); [reflexivity|].
    apply int_items_blank, Hs. }
  unfold _load_config, admin_option in *.
  destruct file as [sections|]; cbn [fst] in Hload.
  2:{ injection Hload as <-. reflexivity. }
  destruct (match dict_get "bdsmm_Groups" sections with
            | Some _ => _ | None => _ end) as [e|[ag rg]]; [discriminate|].
  destruct (dict_get "bdsmm_Admins" sections) as [section|].
  - rewrite (Hlist _ Hblank) in Hload. injection Hload as <-. reflexivity.
  - injection Hload as <-. reflexivity.
Qed.

(** ** Scheduling, then cancelling *)

Lemma filter_fresh_job id j js :
  has_job id js = false -> job_id j = id ->
  filter (fun j0 => negb (String.eqb (job_id j0) id)) (js ++ [j]) = js.
Proof.
  intros Hfree Hid. rewrite filter_app. cbn [filter].
  rewrite Hid, String.eqb_refl. cbn [negb]. rewrite app_nil_r.
  induction js as [|a js IH]; [reflexivity|].
  unfold has_job in Hfree. cbn [existsb] in Hfree.
  apply orb_false_iff in Hfree as [Ha Hjs].
  cbn [filter]. rewrite Ha. cbn [negb]. rewrite IH by exact Hjs. reflexivity.
Qed.

Lemma stored_save_remove id info f :
  dict_mem id (stored f) = false ->
  dict_del id (stored (Some (Document (JObj (dict_set id info (stored f))))))
  = stored f.
Proof.
  intros Hm.
  rewrite stored_written by apply NoDup_dict_set, stored_NoDup.
  assert (~ In id (keys (stored f))) as Hfresh.
  { intros Hin. apply dict_mem_In in Hin. congruence. }
  rewrite dict_set_fresh by exact Hfresh.
  rewrite map_app. cbn [map fst snd].
  rewrite map_loaded_id by apply stored_values.
  apply dict_del_fresh, Hfresh.
Qed.

Lemma do_cancelmessage_store id w :
  has_job id (scheduler_jobs w) = true ->
  scheduler_jobs (snd (do_cancelmessage "-1" id w))
  = filter (fun j => negb (String.eqb (job_id j) id)) (scheduler_jobs w) /\
  queue_file (snd (do_cancelmessage "-1" id w))
  = queue_file (snd (remove_from_queue id w)).
Proof.
  intros H. rewrite do_cancelmessage_run, H. cbv zeta.
  destruct (read_failure (queue_file w)) as [e|] eqn:E.
  { match goal with
    | |- context [send ?m ?w0] => destruct (send_keeps m w0) as [-> ->]
    end.
    rewrite remove_from_queue_run, E. split; reflexivity. }
  destruct (transport (calls w) _) as [e|n].
  - match goal with
    | |- context [send ?m ?w0] => destruct (send_keeps m w0) as [-> ->]
    end.
    split; reflexivity.
  - split; reflexivity.
Qed.

Lemma scheduling_world (event : Event)
    (command_type timestamp content target body stamp : string)
    (send_time : datetime) (w : World) :
  accepted event = Some (command_type, timestamp, content, target) ->
  isdigit timestamp = true ->
  requested_time timestamp = Some send_time ->
  posix_timestamp P send_time = inr stamp ->
  (command_type = "sendmessage" /\ body = content)
  \/ (command_type = "forwardmessage" /\
      exists r, reply event = Some r /\
                body = str_of_Message P (reply_message r)) ->
  let target_group := target_group_of target in
  let id :=
    ((if String.eqb command_type "sendmessage" then "job_" else "job_forward_")
     ++ stamp ++ "_" ++ Z_str target_group)%string in
  has_job id (scheduler_jobs w) = false ->
  scheduler_jobs (snd (handle_message event w))
  = (scheduler_jobs w
     ++ [{| job_id := id; run_date := send_time;
            job_args := (JStr command_type, JStr body, JInt target_group, id) |}])%list
  /\
  queue_file (snd (handle_message event w))
  = match read_failure (queue_file w) with
    | None =>
        Some (Document (JObj (dict_set id
                (task_info (isoformat send_time) command_type body
                           target_group)
                (stored (queue_file w)))))
    | Some _ => queue_file w
    end.
Proof.
  intros H Hd Ht Hs Hkind. cbv zeta.
  rewrite (handle_message_accepted _ H). unfold delegate.
  pose proof (requested_time_not_zero _ Ht) as H0.
  destruct Hkind as [[-> ->]|[-> (r & Hr & ->)]];
    cbn [String.eqb Ascii.eqb Bool.eqb]; intros Hfree.
  - unfold do_sendmessage. rewrite H0, Hd, schedule_send_run, Ht.
    unfold try_except.
    rewrite (@register_send_run send_time content _ stamp w Hs). cbv zeta.
    rewrite Hfree.
    destruct (read_failure (queue_file w)) as [e|].
    + match goal with
      | |- context [send_failed e ?w0] =>
          destruct (send_failed_keeps e w0) as [-> ->]
      end.
      split; reflexivity.
    + match goal with
      | |- context [send ?m ?w0] =>
          pose proof (@reply_or_report m send_failed w0 send_failed_keeps)
            as [Hj Hf]
      end.
      unfold try_except in Hj, Hf. split; [exact Hj|exact Hf].
  - unfold do_forwardmessage. rewrite Hr, H0, Hd, schedule_forward_run, Ht.
    unfold try_except.
    rewrite (@register_forward_run send_time _ _ stamp w Hs). cbv zeta.
    rewrite Hfree.
    destruct (read_failure (queue_file w)) as [e|].
    + match goal with
      | |- context [forward_failed e ?w0] =>
          destruct (forward_failed_keeps e w0) as [-> ->]
      end.
      split; reflexivity.
    + match goal with
      | |- context [send ?m ?w0] =>
          pose proof (@reply_or_report m forward_failed w0 forward_failed_keeps)
            as [Hj Hf]
      end.
      unfold try_except in Hj, Hf. split; [exact Hj|exact Hf].
Qed.

Lemma dict_del_absent (V : Type) k (d : dict V) :
  dict_mem k d = false -> dict_del k d = d.
Proof.
  unfold dict_mem. induction d as [|[k0 v] d IH]; cbn; [reflexivity|].
  destruct (String.eqb k k0); [discriminate|].
  intros H. rewrite IH by exact H. reflexivity.
Qed.



End Plugin.

(** * Instances: the theorems at concrete inputs, and counterexamples *)

Lemma parse_content_plain_text_witness :
  parse_content_to_message "hello\nworld"
  = [text (replace_escaped_newlines "hello\nworld")].
Proof.
  apply parse_content_plain_text; [discriminate|reflexivity].
Defined.

(** C5 as stated fails on the empty content: it holds no tag, and the
    parser yields no segment at all, not one empty Text segment. *)
Lemma parse_content_empty_counterexample :
  has_tag EmptyString = false /\
  parse_content_to_message EmptyString = [] /\
  parse_content_to_message EmptyString
  <> [text (replace_escaped_newlines EmptyString)].
Proof.
  split; [reflexivity|]. split; [reflexivity|discriminate].
Qed.

(** ** The command grammar *)

Example command_fields_sendmessage :
  command_fields "[sendmessage][0][hi][123]"
  = Some ("sendmessage", "0", "hi", "123").
Proof. reflexivity. Qed.

Example command_fields_stripped :
  command_fields "[ cancelmessage ][-1][ job_1 ][0] trailing"
  = Some ("cancelmessage", "-1", "job_1", "0").
Proof. reflexivity. Qed.

Example help_shortcut :
  is_bdsm_command (sample_event "message") = true /\
  is_bdsm_command (sample_event " MESSAGE ") = true /\
  is_bdsm_command (sample_event "not a command") = false.
Proof. repeat split. Qed.

Example help_reply :
  handle_message sample_platform sample_config transport_up
                 (sample_event "Message") sample_world
  = (Raise (Exn FinishedException EmptyString),
     with_calls [matcher_send help_text] sample_world).
Proof. reflexivity. Qed.

Example stranger_is_ignored :
  handle_message sample_platform sample_config transport_up
    {| group_id := 999; user_id := 7;
       plaintext := "[sendmessage][0][hi][200]"; reply := None |}
    sample_world
  = (Return tt, sample_world).
Proof. reflexivity. Qed.

(** ** The callback *)

(** C1 as stated fails when the delivery fails: the job of the sample
    world is executed on a transport that delivers nothing to its group;
    the callback returns, the delivery was attempted once, and the job is
    still in the queue file, which is as it was. *)
Lemma execute_failed_delivery_counterexample :
  let run :=
    execute_scheduled_task sample_platform sample_config transport_down
      "sendmessage" "hi" 200 "job_1" sample_world in
  fst run = Return tt /\
  calls (snd run) = [send_group_msg 200 (of_message [text "hi"])] /\
  queue_file (snd run) = queue_file sample_world /\
  dict_mem "job_1" (stored (queue_file (snd run))) = true /\
  dict_mem "job_1"
    (stored (queue_file (snd (remove_from_queue sample_platform "job_1"
                                                sample_world)))) = false.
Proof. cbv zeta. repeat split. Qed.

Example execute_delivered :
  let run :=
    execute_scheduled_task sample_platform sample_config transport_up
      "sendmessage" "hi" 200 "job_1" sample_world in
  fst run = Return tt /\
  queue_file (snd run) = Some (Document (JObj [])) /\
  scheduler_jobs (snd run) = [].
Proof. cbv zeta. repeat split. Qed.

(** ** Cancelling *)

Definition cancel_job_1 : Event := sample_event "[cancelmessage][-1][job_1][0]".



(** ** A queue file that cannot be used *)

Definition garbled_world : World :=
  {| queue_file := Some (Undecodable "not json");
     scheduler_jobs := []; calls := []; now := sample_now;
     bot_connected := true |}.

Definition array_world : World :=
  {| queue_file := Some (Document (JArr [JInt 1; JInt 2]));
     scheduler_jobs := []; calls := []; now := sample_now;
     bot_connected := true |}.

(** A queue file whose bytes are not UTF-8 text, and a job registered. *)
Definition binary_world : World :=
  {| queue_file := Some (NotUtf8 (String (ascii_of_nat 255) "{}"));
     scheduler_jobs :=
       [{| job_id := "job_1"; run_date := Datetime 2025 9 20 12 0 0 0;
           job_args := (JStr "sendmessage", JStr "hi", JInt 200, "job_1") |}];
     calls := []; now := sample_now;
     bot_connected := true |}.

Definition codec_error : exn :=
  Exn UnicodeDecodeError
      "'utf-8' codec can't decode byte 0xff in position 0: invalid start byte".

Definition list_all : Event := sample_event "[schedulemessage][][][]".


(** On bytes that are not UTF-8 text none of the readers recovers. *)
Example queue_file_not_text :
  read_queue sample_platform binary_world = (Raise codec_error, binary_world) /\
  on_startup sample_platform binary_world = (Raise codec_error, binary_world) /\
  remove_from_queue sample_platform "job_1" binary_world
  = (Raise codec_error, binary_world) /\
  save_to_queue sample_platform "job_2" (JObj []) binary_world
  = (Raise codec_error, binary_world) /\
  handle_message sample_platform sample_config transport_up list_all
                 binary_world
  = (Raise codec_error, binary_world).
Proof. repeat split. Qed.


(** The listing command on a file that holds a non-empty array: the
    handler raises, where the three other readers take the store for
    empty. *)
Example listing_array_raises :
  fst (handle_message sample_platform sample_config transport_up list_all
                      array_world)
  = Raise (Exn AttributeError "items") /\
  read_queue sample_platform array_world = (Return [], array_world).
Proof. split; reflexivity. Qed.

(** ** Startup reconciliation *)

(** A queue file with a job a month back and a job three weeks ahead. *)
Definition restart_world : World := {|
  queue_file :=
    Some (Document (JObj
      [("job_old", task_info "2025-08-01T09:00:00" "sendmessage" "late" 200);
       ("job_new", task_info "2025-09-20T12:00:00" "forwardmessage" "soon" 201)]));
  scheduler_jobs := [];
  calls := [];
  now := sample_now;
  bot_connected := true
|}.


(** A record without its content stops the reconciliation at the first
    job that is due: the exception leaves [on_startup], and the jobs after
    it in the file are not looked at. *)
Example on_startup_malformed_record :
  let w := {|
    queue_file :=
      Some (Document (JObj
        [("job_bad", JObj [("timestamp", JStr "2025-09-10T10:00:00");
                           ("type", JStr "sendmessage")]);
         ("job_new", task_info "2025-09-20T12:00:00" "sendmessage" "soon" 201)]));
    scheduler_jobs := []; calls := []; now := sample_now;
    bot_connected := true |} in
  on_startup sample_platform w = (Raise (Exn KeyError "content"), w).
Proof. reflexivity. Qed.

(** ** Scheduling *)

Definition send_at_noon : Event :=
  sample_event "[sendmessage][202509201200][hi {at_all}][200]".

Lemma sendmessage_timestamp_length_witness :
  accepted sample_config send_at_noon
  = Some ("sendmessage", "202509201200", "hi {at_all}", "200") /\
  fixed_width fmt_YmdHM "202509201200" = Datetime 2025 9 20 12 0 0 0 /\
  handle_message sample_platform sample_config transport_up send_at_noon
                 sample_world
  = try_except
      (register_send sample_platform transport_up
                     (Datetime 2025 9 20 12 0 0 0) "hi {at_all}" 200)
      (send_failed transport_up) sample_world.
Proof.
  split; [reflexivity|]. split; [reflexivity|].
  apply (@sendmessage_timestamp_length sample_platform sample_config
           transport_up send_at_noon "202509201200" "hi {at_all}" "200"
           sample_world eq_refl eq_refl).
  discriminate.
Defined.

Example strptime_twelve_digits :
  strptime "202509201200" fmt_YmdHM = Some (Datetime 2025 9 20 12 0 0 0) /\
  strptime "20250920120030" fmt_YmdHMS = Some (Datetime 2025 9 20 12 0 30 0) /\
  strptime "202513011200" fmt_YmdHM = None /\
  strptime "202502291200" fmt_YmdHM = None /\
  strptime "202402291200" fmt_YmdHM = Some (Datetime 2024 2 29 12 0 0 0).
Proof. repeat split. Qed.

Example sendmessage_thirteen_digits :
  snd (handle_message sample_platform sample_config transport_up
         (sample_event "[sendmessage][2025092012000][hi][200]") sample_world)
  = with_calls [matcher_send invalid_timestamp_reply] sample_world.
Proof. reflexivity. Qed.

(** A world in which the job of [send_at_noon] is already registered. *)
Definition busy_world : World := {|
  queue_file := Some (Document (JObj []));
  scheduler_jobs :=
    [{| job_id := "job_1758369600.0_200";
        run_date := Datetime 2025 9 20 12 0 0 0;
        job_args := (JStr "sendmessage", JStr "first", JInt 200,
                     "job_1758369600.0_200") |}];
  calls := [];
  now := sample_now;
  bot_connected := true
|}.


Example registration_then_persistence :
  let w' := snd (handle_message sample_platform sample_config transport_up
                                send_at_noon sample_world) in
  map job_id (scheduler_jobs w') = ["job_1758369600.0_200"] /\
  keys (stored (queue_file w')) = ["job_1"; "job_1758369600.0_200"].
Proof. split; reflexivity. Qed.

(** ** Timestamps that are neither 0 nor digits *)

Lemma non_digit_timestamp_is_ignored_witness :
  accepted sample_config (sample_reply_event "[forwardmessage][-1][][200]")
  = Some ("forwardmessage", "-1", EmptyString, "200") /\
  handle_message sample_platform sample_config transport_up
    (sample_reply_event "[forwardmessage][-1][][200]") sample_world
  = (Return tt, sample_world).
Proof.
  split; [reflexivity|].
  apply (@non_digit_timestamp_is_ignored sample_platform sample_config
           transport_up (sample_reply_event "[forwardmessage][-1][][200]")
           "forwardmessage" "-1" EmptyString "200" sample_world eq_refl).
  - right. split; [reflexivity|discriminate].
  - reflexivity.
  - discriminate.
  - reflexivity.
Defined.

(** A forwardmessage command that replies to no message does not get as
    far as its timestamp: the check of lines 439-441 answers that the
    command must be used by replying to a message. *)
Example forward_without_reply_is_rejected :
  let event := sample_event "[forwardmessage][abc][][200]" in
  let run := handle_message sample_platform sample_config transport_up
               event sample_world in
  accepted sample_config event
  = Some ("forwardmessage", "abc", EmptyString, "200") /\
  isdigit "abc" = false /\
  calls (snd run)
  = [matcher_send
       "The `forwardmessage` command must be used by replying to a message."] /\
  run <> (Return tt, sample_world).
Proof. cbv zeta. repeat split. discriminate. Qed.

(** ** Reading a command *)

Lemma match_command_sound_witness :
  exists rest,
    "[sendmessage][0][hi][200] and more"
    = command_text "sendmessage" "0" "hi" "200" rest.
Proof. apply match_command_sound. reflexivity. Defined.

Lemma match_command_complete_witness :
  match_command (command_text " sendmessage" "0" "a[b" "200 " "]tail")
  = Some (" sendmessage", "0", "a[b", "200 ") /\
  command_fields (command_text " sendmessage" "0" "a[b" "200 " "]tail")
  = Some ("sendmessage", "0", "a[b", "200").
Proof.
  destruct (@match_command_complete " sendmessage" "0" "a[b" "200 " "]tail"
              eq_refl eq_refl eq_refl eq_refl) as [Hm Hf].
  split; [exact Hm|exact (Hf eq_refl)].
Defined.

(** ** The queue file, job by job *)

Definition job_2_info : json :=
  task_info "2025-10-01T08:00:00" "forwardmessage" "later" 201.




(** ** What the handler keeps *)

Definition recall_12 : Event := sample_event "[recallmessage][0][12][200]".

Lemma reading_commands_leave_store_witness :
  unchanged sample_world
    (snd (handle_message sample_platform sample_config transport_down
                         recall_12 sample_world)).
Proof. apply reading_commands_leave_store; reflexivity. Defined.

(** A world in which the job of the queue file is registered. *)
Definition scheduled_world : World := {|
  queue_file := queue_file sample_world;
  scheduler_jobs :=
    [{| job_id := "job_1"; run_date := Datetime 2025 9 20 12 0 0 0;
        job_args := (JStr "sendmessage", JStr "hi", JInt 200, "job_1") |}];
  calls := [];
  now := sample_now;
  bot_connected := true
|}.


(** ** Startup on a record without timestamp *)

(** A queue file whose second record has lost its timestamp. *)
Definition damaged_world : World := {|
  queue_file :=
    Some (Document (JObj
      [("job_new", task_info "2025-09-20T12:00:00" "forwardmessage" "soon" 201);
       ("job_bad", JObj [("type", JStr "sendmessage"); ("content", JStr "x");
                         ("target_group", JInt 200)]);
       ("job_next", task_info "2025-09-21T12:00:00" "sendmessage" "after" 200)]));
  scheduler_jobs := [];
  calls := [];
  now := sample_now;
  bot_connected := true
|}.


(** ** The listing *)


(** The slice counts characters, not bytes: a character of two bytes
    followed by two letters, cut after two characters. *)
Example take_counts_characters :
  let e_acute := String (ascii_of_nat 195) (String (ascii_of_nat 169) EmptyString) in
  take 2 (e_acute ++ "ab") = (e_acute ++ "a")%string /\
  take 30 "short" = "short".
Proof. split; reflexivity. Qed.

(** ** Immediate commands and recalls *)

Lemma immediate_command_delivers_once_witness :
  exists replies,
    calls (snd (handle_message sample_platform sample_config transport_down
                  (sample_event "[sendmessage][0][hi{at_all}][200]")
                  sample_world))
    = (calls sample_world
       ++ send_group_msg (target_group_of "200")
            (of_message [text "hi"; at_ "all"]) :: replies)%list /\
    Forall is_reply replies /\
    (List.length replies = 1 \/ List.length replies = 2)%nat.
Proof.
  apply (@immediate_command_delivers_once sample_platform sample_config
           transport_down (sample_event "[sendmessage][0][hi{at_all}][200]")
           "sendmessage" "hi{at_all}" "200");
    reflexivity.
Defined.

(** A transport that recalls and delivers, and sends no reply. *)
Definition transport_mute : list action -> action -> exn + Z :=
  fun before a =>
    match a with
    | matcher_send _ =>
        inl (Exn (OtherException "ActionFailed") "ActionFailed(retcode=1200)")
    | _ => inr (1000 + Z.of_nat (List.length before))
    end.

Definition recall_reply : Event :=
  sample_reply_event "[recallmessage][0][12][200]".

Lemma recall_by_reply_witness :
  do_recallmessage transport_mute recall_reply "12" sample_world
  = do_recallmessage transport_mute (without_reply recall_reply) "12"
      (with_calls
         [delete_msg 55; matcher_send "Message 55 has been recalled."]
         sample_world).
Proof.
  exact (@recall_by_reply transport_mute recall_reply
           {| reply_message_id := 55; reply_message := [text "hello"] |}
           "12" 1000 sample_world eq_refl eq_refl).
Defined.

(** The recall that could not be reported is followed by the recall of
    the message named in the content field. *)
Example recall_twice :
  calls (snd (do_recallmessage transport_mute recall_reply "12" sample_world))
  = [delete_msg 55; matcher_send "Message 55 has been recalled.";
     delete_msg 12; matcher_send "Message 12 has been recalled.";
     matcher_send "Failed to recall message: ActionFailed(retcode=1200)"].
Proof. reflexivity. Qed.

(** ** Scheduling, then cancelling *)

Definition cancel_noon : Event :=
  sample_event "[cancelmessage][-1][job_1758369600.0_200][0]".


(** ** The configuration file *)

(** [int] on texts of decimal digits; anything else is refused. *)
Definition sample_int (s : string) : exn + Z :=
  if isdigit s then inr (int_of_digits s)
  else inl (Exn ValueError "invalid literal for int() with base 10").

Lemma parse_id_list_reads_items_witness :
  parse_id_list sample_int (join_comma [" 100"; " "; "200 "; EmptyString])
  = inr (readings_list [Some 100; None; Some 200; None]).
Proof.
  apply parse_id_list_reads_items.
  apply Forall2_cons;
    [split; [reflexivity|split; [discriminate|reflexivity]]|].
  apply Forall2_cons; [split; reflexivity|].
  apply Forall2_cons;
    [split; [reflexivity|split; [discriminate|reflexivity]]|].
  apply Forall2_cons; [split; reflexivity|]. apply Forall2_nil.
Defined.

(** A file with the groups of [sample_config] and a blank admin option. *)
Definition sample_ini : ini :=
  [("bdsmm_Groups", [("admin_groups", "100");
                     ("receiver_groups", "200, 201")]);
   ("bdsmm_Admins", [("admin", " , ")])].

Lemma blank_admin_option_admits_everyone_witness :
  is_admin sample_config 7 = true.
Proof.
  apply (@blank_admin_option_admits_everyone sample_config sample_int
           (Some sample_ini) 7); reflexivity.
Defined.

(** An item that is not a number makes the loading fail. *)
Example load_config_bad_item :
  fst (_load_config sample_int
         (Some [("bdsmm_Groups", [("admin_groups", "100, x1")])]))
  = inl (Exn ValueError "invalid literal for int() with base 10").
Proof. reflexivity. Qed.

(** ** What is written is what is read *)


(** ** A queue file that is not text *)




(** Cancelling the registered job on such a file: the registration goes,
    the file stays, and the reply reports the error of the read. *)
Example cancel_not_text :
  let w' := snd (handle_message sample_platform sample_config transport_up
                                cancel_job_1 binary_world) in
  scheduler_jobs w' = [] /\
  queue_file w' = queue_file binary_world /\
  calls w'
  = [matcher_send
       "Failed to cancel job job_1: 'utf-8' codec can't decode byte 0xff in position 0: invalid start byte"].
Proof. cbv zeta. repeat split. Qed.

(** Scheduling on such a file: the job is registered, the save fails, and
    the error of the read, a ValueError, is answered as a timestamp of
    the wrong format. *)
Example schedule_not_text :
  let w' := snd (handle_message sample_platform sample_config transport_up
                                send_at_noon binary_world) in
  map job_id (scheduler_jobs w') = ["job_1"; "job_1758369600.0_200"] /\
  queue_file w' = queue_file binary_world /\
  calls w'
  = [matcher_send
       "Invalid timestamp format. Please use YYYYMMDDHHMMSS or YYYYMMDDHHMM."].
Proof. cbv zeta. repeat split. Qed.
